(** * Visual_Helpers: binning, categorisation and per-interval averages

    A shallow embedding of [figure_functions.py] and the properties of its
    binning-and-aggregation logic.

    Conventions of the embedding.
    - Python floats and integers are exact rationals ([Qc], the canonical
      rationals, so that equal numbers are equal terms).  Rounding, [nan] and
      [inf] are outside the model; where numpy would produce [nan] the model
      raises [FloatingPointError].
    - A pandas [DataFrame] is a number of rows together with a finite map
      from column names to columns of cells; a cell is a number or a string.
    - Dataframes and numpy arrays are objects: they live in a store and are
      passed by reference, so in-place mutation and object identity are
      visible.
    - [np.random.randint] reads the next element of a sequence of draws that
      is part of the state.  A run that has used up the whole sequence and
      asks for another draw has not finished: the outcome [Spin].  A loop
      that ends in [Spin] on every sequence of draws never terminates.
    - The functions of numpy and pandas are modelled by their documented
      behaviour, following the algorithm of the library where that is what
      the properties are about (cumulative counts for [np.histogram], an
      accumulation pass for [groupby(...).mean()], overwriting in reverse
      for [np.select]). *)

From Stdlib Require Import QArith Qcanon Qround Lqa ZArith Lia OrderedTypeEx.
From stdpp Require Import base decidable option list sorting gmap strings numbers pretty.

(** ** Numbers *)

Definition of_Z (z : Z) : Qc := Qc_of_Z z.
Definition of_nat (n : nat) : Qc := Qc_of_Z (Z.of_nat n).

(** [math.ceil] on a float. *)
Definition ceil (q : Qc) : Z := Qceiling q.

(** ** Outcomes of running Python code *)

Inductive exn :=
| KeyError (k : string)
| TypeError
| ValueError
| IndexError
| ZeroDivisionError
| FloatingPointError
| DanglingReference.

Inductive outcome (A : Type) :=
| Ok (a : A)
| Raise (e : exn)
| Spin.
Arguments Ok {A} a.
Arguments Raise {A} e.
Arguments Spin {A}.

Definition obind {A B} (c : outcome A) (k : A -> outcome B) : outcome B :=
  match c with
  | Ok a => k a
  | Raise e => Raise e
  | Spin => Spin
  end.

Notation "'let*' x ':=' c 'in' k" := (obind c (fun x => k))
  (at level 10, x pattern, c at level 200, k at level 200).

Fixpoint mapM {A B} (f : A -> outcome B) (l : list A) : outcome (list B) :=
  match l with
  | [] => Ok []
  | a :: l' => let* b := f a in let* bs := mapM f l' in Ok (b :: bs)
  end.

(** ** Cells, columns and dataframes *)

Inductive cell :=
| Num (q : Qc)
| Str (s : string).

#[global] Instance cell_eq_dec : EqDecision cell.
Proof. solve_decision. Defined.

Record dataframe := DataFrame {
  nrows : nat;
  cols : gmap string (list cell)
}.

(** Every column of a dataframe has one cell per row. *)
Definition df_wf (d : dataframe) : Prop :=
  forall c l, cols d !! c = Some l -> length l = nrows d.

#[global] Instance df_wf_dec d : Decision (df_wf d).
Proof.
  refine (cast_if (decide (map_Forall (fun _ l => length l = nrows d) (cols d))));
    unfold df_wf, map_Forall in *; auto.
Defined.

(** [df[c]] *)
Definition getitem (d : dataframe) (c : string) : outcome (list cell) :=
  match cols d !! c with
  | Some l => Ok l
  | None => Raise (KeyError c)
  end.

(** [df[c] = l]: the column is added, or replaces the column of that name. *)
Definition setitem (d : dataframe) (c : string) (l : list cell) : outcome dataframe :=
  if decide (length l = nrows d)
  then Ok {| nrows := nrows d; cols := <[c := l]> (cols d) |}
  else Raise ValueError.

(** Numeric operations on a column raise [TypeError] on a string cell. *)
Definition as_num (c : cell) : outcome Qc :=
  match c with
  | Num q => Ok q
  | Str _ => Raise TypeError
  end.

Definition to_numeric (l : list cell) : outcome (list Qc) := mapM as_num l.

(** [l[i]] on a Python sequence or a numpy array *)
Definition getidx {A} (l : list A) (i : nat) : outcome A :=
  match l !! i with
  | Some x => Ok x
  | None => Raise IndexError
  end.

(** ** The order of group keys

    pandas sorts group keys; numbers come before strings, numbers are
    ordered by value and strings lexicographically. *)

Definition cell_le (a b : cell) : Prop :=
  match a, b with
  | Num x, Num y => (x <= y)%Qc
  | Num _, Str _ => True
  | Str _, Num _ => False
  | Str s, Str t => String.leb s t = true
  end.

#[global] Instance cell_le_dec : RelDecision cell_le.
Proof. intros [x|s] [y|t]; simpl; apply _. Defined.

(** ** numpy *)

Definition Qc_max (a b : Qc) : Qc := if decide (a <= b)%Qc then b else a.

(** [Series.max()]; the maximum of an empty column is [nan], on which
    [math.ceil] raises [ValueError]. *)
Definition series_max (l : list Qc) : outcome Qc :=
  match l with
  | [] => Raise ValueError
  | x :: l' => Ok (foldl Qc_max x l')
  end.

(** [np.arange(start, stop, step)]: [ceil((stop - start) / step)] elements
    [start + i * step]. *)
Definition np_arange (start stop step : Qc) : outcome (list Qc) :=
  if decide (step = 0%Qc) then Raise ZeroDivisionError
  else
    let n := Z.to_nat (ceil ((stop - start) / step)%Qc) in
    Ok (map (fun i => (start + of_nat i * step)%Qc) (seq 0 n)).

(** [np.searchsorted(sorted(a), v, 'left')] and [..., 'right']: the number
    of elements below [v], and the number of elements not above [v]. *)
Definition searchsorted_left (a : list Qc) (v : Qc) : Z :=
  Z.of_nat (length (filter (fun x => (x < v)%Qc) a)).

Definition searchsorted_right (a : list Qc) (v : Qc) : Z :=
  Z.of_nat (length (filter (fun x => (x <= v)%Qc) a)).

(** numpy's [_search_sorted_inclusive]: ['left'] for every edge but the
    last, ['right'] for the last. *)
Fixpoint search_sorted_inclusive (a v : list Qc) : list Z :=
  match v with
  | [] => []
  | [e] => [searchsorted_right a e]
  | e :: v' => searchsorted_left a e :: search_sorted_inclusive a v'
  end.

Fixpoint np_diff (c : list Z) : list Z :=
  match c with
  | x :: ((y :: _) as t) => (y - x)%Z :: np_diff t
  | _ => []
  end.

(** [np.any(bins[:-1] > bins[1:])] *)
Fixpoint any_decreasing (bins : list Qc) : bool :=
  match bins with
  | x :: ((y :: _) as t) => bool_decide (y < x)%Qc || any_decreasing t
  | _ => false
  end.

(** [np.histogram(a, bins)[0]] for an array of edges: the edges are checked
    first, then the values are sorted and searched. *)
Definition np_histogram (a : list cell) (bins : list Qc) : outcome (list Z) :=
  if any_decreasing bins then Raise ValueError
  else let* xs := to_numeric a in
       Ok (np_diff (search_sorted_inclusive xs bins)).

(** [Series.between(lo, hi)], inclusive on both sides. *)
Definition between (s : list Qc) (lo hi : Qc) : list bool :=
  map (fun x => bool_decide (lo <= x)%Qc && bool_decide (x <= hi)%Qc) s.

(** [np.select(condlist, choicelist, default)] with scalar choices: the
    result starts as [default] everywhere and the conditions are applied
    from the last to the first, so the first true condition wins. *)
Definition np_select (condlist : list (list bool)) (choicelist : list Z)
    (default : Z) : outcome (list Z) :=
  match condlist with
  | [] => Raise ValueError
  | c0 :: _ =>
      if decide (length condlist = length choicelist)
      then Ok (foldr (fun cv res =>
                        zip_with (fun (c : bool) r => if c then cv.2 else r) cv.1 res)
                     (replicate (length c0) default)
                     (zip condlist choicelist))
      else Raise ValueError
  end.

(** ** pandas *)

(** A [Series] indexed by group keys: the keys with their values, in the
    order of the index. *)
Definition series (K : Type) := list (K * Qc).

Section groupby.
Context {K : Type} `{EqDecision K}.
Variable key_le : relation K.
Context `{!RelDecision key_le}.

(** One row enters the table of running sums and row counts. *)
Fixpoint group_add (k : K) (v : Qc) (acc : list (K * (Qc * nat))) :
    list (K * (Qc * nat)) :=
  match acc with
  | [] => [(k, (v, 1))]
  | e :: r =>
      if decide (k = e.1)
      then (e.1, ((e.2.1 + v)%Qc, S e.2.2)) :: r
      else e :: group_add k v r
  end.

Definition group_sums (keys : list K) (vals : list Qc) : list (K * (Qc * nat)) :=
  foldl (fun acc kv => group_add kv.1 kv.2 acc) [] (zip keys vals).

Definition entry_le (a b : K * (Qc * nat)) : Prop := key_le a.1 b.1.

#[local] Instance entry_le_dec : RelDecision entry_le.
Proof. intros a b. unfold entry_le. apply _. Defined.

(** [groupby(keys)[vals].mean()]: the groups sorted by key, each with the
    sum of its rows divided by their number. *)
Definition group_means (keys : list K) (vals : list Qc) : series K :=
  map (fun e => (e.1, (e.2.1 / of_nat e.2.2)%Qc))
      (merge_sort entry_le (group_sums keys vals)).
End groupby.

(** The order of a two-level index: by the first key, then by the second. *)
Definition key2_le (a b : cell * cell) : Prop :=
  if decide (a.1 = b.1) then cell_le a.2 b.2 else cell_le a.1 b.1.

#[global] Instance key2_le_dec : RelDecision key2_le.
Proof. intros a b. unfold key2_le. destruct (decide (a.1 = b.1)); apply _. Defined.

(** [df.groupby([key])[val].mean()] *)
Definition groupby_mean (d : dataframe) (key val : string) : outcome (series cell) :=
  let* ks := getitem d key in
  let* vs := getitem d val in
  let* xs := to_numeric vs in
  Ok (group_means cell_le ks xs).

(** [df.groupby([key1, key2])[val].mean()] *)
Definition groupby2_mean (d : dataframe) (key1 key2 val : string) :
    outcome (series (cell * cell)) :=
  let* k1 := getitem d key1 in
  let* k2 := getitem d key2 in
  let* vs := getitem d val in
  let* xs := to_numeric vs in
  Ok (group_means key2_le (zip k1 k2) xs).

(** [s[v]] on a series with a two-level index: the entries whose first
    key is [v], indexed by their second key. *)
Definition series_sel (v : cell) (s : series (cell * cell)) : outcome (series cell) :=
  match filter (fun e => e.1.1 = v) s with
  | [] => Raise (KeyError "")
  | l => Ok (map (fun e => (e.1.2, e.2)) l)
  end.

(** A column can be sorted when its cells are all numbers or all strings. *)
Definition is_num (c : cell) : bool := match c with Num _ => true | Str _ => false end.

Definition sortable (l : list cell) : bool :=
  forallb is_num l || forallb (fun c => negb (is_num c)) l.

(** The rows of a column in the given order. *)
Definition take_rows {A} (order : list nat) (col : list A) : list A :=
  omap (fun i => col !! i) order.

Definition row_le (a b : cell * nat) : Prop := cell_le a.1 b.1.

#[global] Instance row_le_dec : RelDecision row_le.
Proof. intros a b. unfold row_le. apply _. Defined.

Definition argsort (key : list cell) : list nat :=
  (merge_sort row_le (zip key (seq 0 (length key)))).*2.

(** [df.sort_values(by=[by])]: a new dataframe with the rows reordered. *)
Definition sort_values (d : dataframe) (by_ : string) : outcome dataframe :=
  let* key := getitem d by_ in
  if sortable key
  then Ok {| nrows := nrows d; cols := take_rows (argsort key) <$> cols d |}
  else Raise TypeError.

(** [Series.unique()]: the distinct values in order of first appearance. *)
Fixpoint unique_from (seen l : list cell) : list cell :=
  match l with
  | [] => []
  | x :: l' =>
      if decide (x ∈ seen) then unique_from seen l'
      else x :: unique_from (x :: seen) l'
  end.

Definition unique (l : list cell) : list cell := unique_from [] l.

(** [df[df[c] == v][x]]: the cells of column [x] on the rows where column
    [c] holds [v]. *)
Definition rows_where (col : list cell) (v : cell) (xs : list cell) : list cell :=
  (filter (fun r => r.1 = v) (zip col xs)).*2.

(** ** Traces, layout and the call of [plotly.offline.plot] *)

Definition rgba := (Z * Z * Z * Qc)%type.

(** [dict(color='rgba' + str(t))] *)
Record marker := Marker { color : rgba }.

(** [name] holds the value whose [str] is the name of the trace; the [str]
    of a string is the string. *)
Inductive trace :=
| Bar (x : list Qc) (y : list Qc) (m : marker) (opacity : Qc) (name : cell)
| Scatter (x y : series cell) (mode : string) (m : marker) (name : cell) (yaxis : string).

Definition is_bar (t : trace) : bool := match t with Bar _ _ _ _ _ => true | _ => false end.
Definition is_scatter (t : trace) : bool := negb (is_bar t).

Definition trace_name (t : trace) : cell :=
  match t with Bar _ _ _ _ n => n | Scatter _ _ _ _ n _ => n end.

Record axis2 := Axis2 { a2_title : string; overlaying : string; side : string }.

Record layout := Layout {
  title : string;
  xaxis_title : string;
  xaxis_showline : bool;
  yaxis_title : string;
  barmode : option string;
  yaxis2 : option axis2
}.

Record plot_call := PlotCall {
  data : list trace;
  fig_layout : layout;
  filename : string
}.

(** ** The state: object store and random draws *)

(** Objects are named by their address, a natural number. *)

Record world := World {
  frames : gmap nat dataframe;
  arrays : gmap nat (list Qc);
  draws : list Z
}.

Definition M (A : Type) : Type := world -> outcome (A * world).

Definition ret {A} (a : A) : M A := fun w => Ok (a, w).

Definition bind {A B} (c : M A) (k : A -> M B) : M B :=
  fun w => match c w with
           | Ok (a, w') => k a w'
           | Raise e => Raise e
           | Spin => Spin
           end.

Definition lift {A} (c : outcome A) : M A :=
  fun w => match c with
           | Ok a => Ok (a, w)
           | Raise e => Raise e
           | Spin => Spin
           end.

Notation "'let!' x ':=' c 'in' k" := (bind c (fun x => k))
  (at level 10, x pattern, c at level 200, k at level 200).

Definition read_frame (l : nat) : M dataframe :=
  fun w => match frames w !! l with
           | Some d => Ok (d, w)
           | None => Raise DanglingReference
           end.

Definition write_frame (l : nat) (d : dataframe) : M unit :=
  fun w => Ok (tt, {| frames := <[l := d]> (frames w); arrays := arrays w; draws := draws w |}).

Definition read_array (l : nat) : M (list Qc) :=
  fun w => match arrays w !! l with
           | Some a => Ok (a, w)
           | None => Raise DanglingReference
           end.

(** A new array object. *)
Definition alloc_array (a : list Qc) : M nat :=
  fun w => let l := fresh (dom (arrays w)) in
           Ok (l, {| frames := frames w; arrays := <[l := a]> (arrays w); draws := draws w |}).

(** [np.random.randint(0, 8)] *)
Definition randint : M Z :=
  fun w => match draws w with
           | [] => Spin
           | d :: ds => Ok (d, {| frames := frames w; arrays := arrays w; draws := ds |})
           end.

(** ** figure_functions.py *)

Definition AXA_colors : list rgba :=
  [ (0, 0, 143, Q2Qc (8 # 10));
    (252, 211, 133, Q2Qc (8 # 10));
    (2, 113, 128, Q2Qc (8 # 10));
    (225, 150, 170, Q2Qc (8 # 10));
    (0, 174, 198, Q2Qc (8 # 10));
    (145, 65, 70, Q2Qc (8 # 10));
    (52, 60, 61, Q2Qc (8 # 10));
    (181, 208, 238, Q2Qc (8 # 10)) ]%Z.

(** [l[i]] for a Python integer [i]: a negative index counts from the end. *)
Definition py_index {A} (l : list A) (i : Z) : outcome A :=
  if decide (0 <= i)%Z then getidx l (Z.to_nat i)
  else if decide (- Z.of_nat (length l) <= i)%Z
       then getidx l (Z.to_nat (Z.of_nat (length l) + i))
       else Raise IndexError.

(** [y_bar = (count * 100 / len(df)) * 0.01] *)
Definition y_bar_of (count : list Z) (len : nat) : outcome (list Qc) :=
  if decide (len = 0 /\ count <> []) then Raise FloatingPointError
  else Ok (map (fun c => (of_Z c * of_Z 100 / of_nat len * Q2Qc (1 # 100))%Qc) count).

Definition create_dist (df : nat) (x_var : string) (color : marker)
    (x_bar : option nat) (interval_perc : Qc) : M (trace * nat) :=
  let! d := read_frame df in
  let! x_bar :=
    match x_bar with
    | Some l => ret l
    | None =>
        let! m := lift (let* s := getitem d x_var in
                        let* xs := to_numeric s in
                        series_max xs) in
        let temp := ceil (m / of_Z 100)%Qc in
        let interval := (interval_perc * of_Z temp)%Qc in
        let! a := lift (np_arange 0%Qc (of_Z (ceil (m / of_Z 100)%Qc * 100 + temp)) interval) in
        alloc_array a
    end in
  let! edges := read_array x_bar in
  let! count := lift (let* s := getitem d x_var in np_histogram s edges) in
  let! y_bar := lift (y_bar_of count (nrows d)) in
  ret (Bar edges y_bar color (Q2Qc (3 # 10)) (Str ("Dist. " +:+ x_var)), x_bar).

(** The loop of [cat_clients] that collects one condition per interval. *)
Fixpoint criteria_loop (d : dataframe) (x_var : string) (x_bar : list Qc)
    (range : list nat) : outcome (list (list bool)) :=
  match range with
  | [] => Ok []
  | i :: range' =>
      let* s := getitem d x_var in
      let* lo := getidx x_bar i in
      let* hi := getidx x_bar (i + 1) in
      let* xs := to_numeric s in
      let* criteria := criteria_loop d x_var x_bar range' in
      Ok (between xs lo hi :: criteria)
  end.

Definition cat_clients (df : nat) (x_var : string) (x_bar : nat) : M nat :=
  let! d := read_frame df in
  let! edges := read_array x_bar in
  let! criteria := lift (criteria_loop d x_var edges (seq 0 (length edges - 1))) in
  let values := map Z.of_nat (seq 0 (length edges - 1)) in
  let! sel := lift (np_select criteria values 0) in
  let! d' := lift (setitem d "cat" (map (fun z => Num (of_Z z)) sel)) in
  let! _ := write_frame df d' in
  ret df.

Definition avg_cats (df : nat) (x_var y_var : string) : M (series cell * series cell) :=
  let! d := read_frame df in
  let! d := lift (sort_values d "pr_total") in
  let! x := lift (groupby_mean d "cat" x_var) in
  let! y := lift (groupby_mean d "cat" y_var) in
  ret (x, y).

Definition create_scatter (x y : series cell) (var_name : cell) (color : marker)
    (axis_num : nat) : trace :=
  Scatter x y "lines+markers" color var_name ("y" +:+ pretty axis_num).

Fixpoint redraw (color_used : list Z) (temp : Z) (ds : list Z) : outcome (Z * list Z) :=
  if decide (temp ∈ color_used)
  then match ds with
       | [] => Spin
       | d :: ds' => redraw color_used d ds'
       end
  else Ok (temp, ds).

Definition find_color (color_used : list Z) : M (marker * list Z) :=
  let! temp := randint in
  let! temp := (fun w =>
    let* r := redraw color_used temp (draws w) in
    Ok (r.1, {| frames := frames w; arrays := arrays w; draws := r.2 |})) in
  let! c := lift (py_index AXA_colors temp) in
  ret (Marker c, color_used ++ [temp]).

(** The loop of [create_cat_plots] over the distinct values. *)
Fixpoint cat_plots_loop (d : dataframe) (categorical_var x_var : string)
    (temp_cat_x temp_cat_y : series (cell * cell)) (edges : list Qc)
    (vs : list cell) (trace_cats : list trace) (color_used : list Z) :
    M (list trace * list Z) :=
  match vs with
  | [] => ret (trace_cats, color_used)
  | v :: vs' =>
      let! temp_x := lift (series_sel v temp_cat_x) in
      let! temp_y := lift (series_sel v temp_cat_y) in
      let! count := lift (let* c := getitem d categorical_var in
                          let* xs := getitem d x_var in
                          np_histogram (rows_where c v xs) edges) in
      let! y_bar := lift (y_bar_of count (nrows d)) in
      let! cu := find_color color_used in
      cat_plots_loop d categorical_var x_var temp_cat_x temp_cat_y edges vs'
        (trace_cats ++ [create_scatter temp_x temp_y v cu.1 1;
                        Bar edges y_bar cu.1 (Q2Qc (3 # 10)) v])
        cu.2
  end.

Definition create_cat_plots (df : nat) (categorical_var x_var y_var : string)
    (x_bar : nat) (color_used : list Z) : M (list trace * list Z) :=
  let! d := read_frame df in
  let! temp_cat_x := lift (groupby2_mean d categorical_var "cat" x_var) in
  let! temp_cat_y := lift (groupby2_mean d categorical_var "cat" y_var) in
  let! vs := lift (let* c := getitem d categorical_var in Ok (unique c)) in
  let! edges := read_array x_bar in
  cat_plots_loop d categorical_var x_var temp_cat_x temp_cat_y edges vs [] color_used.

Definition output_dir : string :=
  "C:\Users\a-garde\PycharmProjects\Plotly-Graph\output_file\".

Definition create_figure (df : nat) (x_var y_var x_title y_title title : string)
    (second_y_var categorical_var : option string) (stack_bar : bool) : M plot_call :=
  let color_used := [] in
  let! cu := find_color color_used in
  let color := cu.1 in
  let color_used := cu.2 in
  let! tb := create_dist df x_var color None (Q2Qc (1 # 10)) in
  let trace_bar := tb.1 in
  let x_bar := tb.2 in
  let! df := cat_clients df x_var x_bar in
  let! xy := avg_cats df x_var y_var in
  let trace_scatter := create_scatter xy.1 xy.2 (Str x_var) color 1 in
  let bm := if stack_bar then Some "stack" else None in
  let data := [trace_bar; trace_scatter] in
  let layout := Layout title x_title true y_title bm None in
  let! st :=
    match second_y_var with
    | Some second_y_var =>
        let! xy2 := avg_cats df x_var second_y_var in
        let! cu2 := find_color color_used in
        let trace_scatter2 := create_scatter xy2.1 xy2.2 (Str second_y_var) cu2.1 2 in
        let! tb2 := create_dist df second_y_var cu2.1 (Some x_bar) (Q2Qc (1 # 10)) in
        ret (data ++ [trace_scatter2; tb2.1],
             Layout title x_title true y_title bm (Some (Axis2 second_y_var "y1" "right")),
             tb2.2, cu2.2)
    | None => ret (data, layout, x_bar, color_used)
    end in
  let '(data, layout, x_bar, color_used) := st in
  let! data :=
    match categorical_var with
    | Some categorical_var =>
        let! tc := create_cat_plots df categorical_var x_var y_var x_bar color_used in
        ret (data ++ tc.1)
    | None => ret data
    end in
  ret (PlotCall data layout (output_dir +:+ title +:+ ".html")).

(** ** Vocabulary of the properties *)

(** The run has not finished on the given draws. *)
Definition spins {A} (o : outcome A) : bool :=
  match o with Spin => true | _ => false end.

(** All sequences of [n] draws of [randint(0, 8)], each as likely as any
    other. *)
Fixpoint all_draws (n : nat) : list (list Z) :=
  match n with
  | 0 => [[]]
  | S n' => d ← seqZ 0 8; (fun ds => d :: ds) <$> all_draws n'
  end.

(** The colour indices among [0..7] that are in use. *)
Definition used_indices (color_used : list Z) : list Z :=
  filter (fun i => i ∈ color_used) (seqZ 0 8).

(** The category that [cat_clients] gives a value: the index of the first
    interval, closed on both sides, that holds the value, and 0 when there
    is none. *)
Fixpoint cat_from (i : Z) (edges : list Qc) (v : Qc) : Z :=
  match edges with
  | lo :: ((hi :: _) as t) =>
      if decide ((lo <= v)%Qc /\ (v <= hi)%Qc) then i else cat_from (i + 1) t v
  | _ => 0
  end.

Definition cat_of (edges : list Qc) (v : Qc) : Z := cat_from 0 edges v.

(** A value falls in interval [i] of the histogram: intervals are closed
    on the left and open on the right, except the last, which is closed on
    both sides. *)
Definition in_bin (edges : list Qc) (i : nat) (v : Qc) : Prop :=
  exists lo hi, edges !! i = Some lo /\ edges !! (i + 1) = Some hi /\
    (lo <= v)%Qc /\ ((v < hi)%Qc \/ (i + 2 = length edges /\ v = hi)).

#[global] Instance in_bin_dec edges i v : Decision (in_bin edges i v).
Proof.
  unfold in_bin.
  destruct (edges !! i) as [lo|] eqn:Hlo;
    [|right; intros (? & ? & ? & _); discriminate].
  destruct (edges !! (i + 1)) as [hi|] eqn:Hhi;
    [|right; intros (? & ? & ? & ? & _); discriminate].
  destruct (decide ((lo <= v)%Qc /\ ((v < hi)%Qc \/ (i + 2 = length edges /\ v = hi))))
    as [Hin|Hout].
  - left. exists lo, hi. tauto.
  - right. intros (lo' & hi' & [= <-] & [= <-] & Hrest). tauto.
Defined.

(** The number of values that fall in interval [i]. *)
Definition bin_count (edges : list Qc) (xs : list Qc) (i : nat) : nat :=
  length (filter (in_bin edges i) xs).

(** The bar heights over the intervals of [edges]: the share, among [len]
    rows, of the values [xs] that fall in each interval. *)
Definition shares (edges : list Qc) (xs : list Qc) (len : nat) : list Qc :=
  map (fun i => (of_nat (bin_count edges xs i) / of_nat len)%Qc)
      (seq 0 (length edges - 1)).

(** The traces of a categorical overlay: for each value, in order, a
    scatter trace and a bar trace that satisfy [P]. *)
Fixpoint traces_for (P : cell -> trace -> trace -> Prop) (vs : list cell)
    (ts : list trace) : Prop :=
  match vs, ts with
  | [], [] => True
  | v :: vs', s :: b :: ts' => P v s b /\ traces_for P vs' ts'
  | _, _ => False
  end.

(** The pair of traces that [create_cat_plots] makes for the value [v]:
    a scatter trace and a bar trace, both named [v] and of one colour; the
    bar heights come from the rows on which the column holds [v]. *)
Definition overlay_pair (d : dataframe) (categorical_var x_var : string)
    (edges : list Qc) (v : cell) (s b : trace) : Prop :=
  exists sx sy m col xcol count y,
    cols d !! categorical_var = Some col /\ cols d !! x_var = Some xcol /\
    np_histogram (rows_where col v xcol) edges = Ok count /\
    y_bar_of count (nrows d) = Ok y /\
    s = create_scatter sx sy v m 1 /\
    b = Bar edges y m (Q2Qc (3 # 10)) v.

(** A value lies in interval [i], the interval taken with both its edges. *)
Definition in_interval (edges : list Qc) (i : nat) (v : Qc) : Prop :=
  exists lo hi, edges !! i = Some lo /\ edges !! (i + 1) = Some hi /\
    (lo <= v)%Qc /\ (v <= hi)%Qc.

(** Term [i] of the arithmetic progression that starts at 0. *)
Definition term (step : Qc) (i : nat) : Qc := (0 + of_nat i * step)%Qc.

(** A small table and a state that holds it, for concrete runs. *)
Definition int (z : Z) : cell := Num (of_Z z).

Definition example_frame : dataframe :=
  DataFrame 4 (list_to_map
    [ ("x", [int 5; int 10; int 50; int 120]);
      ("y", [int 1; int 2; int 3; int 4]);
      ("pr_total", [int 3; int 1; int 2; int 0]);
      ("g", [Str "a"; Str "b"; Str "a"; Str "b"]) ]).

Definition example_world : world :=
  World {[ 0 := example_frame ]} ∅ [0; 0; 3; 3; 0; 5; 2]%Z.

(** The same state with an array of edges at address 0. *)
Definition example_binned : world :=
  World {[ 0 := example_frame ]} {[ 0 := of_Z <$> [0; 100; 200]%Z ]} [0; 0; 3; 3; 0; 5; 2]%Z.

(** The table after [cat_clients] with those edges, and a state with it. *)
Definition example_cat_frame : dataframe :=
  DataFrame 4 (list_to_map
    [ ("x", [int 5; int 10; int 50; int 120]);
      ("y", [int 1; int 2; int 3; int 4]);
      ("pr_total", [int 3; int 1; int 2; int 0]);
      ("g", [Str "a"; Str "b"; Str "a"; Str "b"]);
      ("cat", [int 0; int 0; int 0; int 1]) ]).

Definition example_categorised : world :=
  World {[ 0 := example_cat_frame ]} {[ 0 := of_Z <$> [0; 100; 200]%Z ]} [0; 0; 3; 3; 0; 5; 2]%Z.

(** A table with a negative value. *)
Definition signed_frame : dataframe :=
  DataFrame 2 (list_to_map [ ("x", [int (-5); int 50]) ]).

Definition signed_world : world := World {[ 0 := signed_frame ]} ∅ [].

(** A table that already has a column [cat], as after an earlier call. *)
Definition frame_with_cat : dataframe :=
  DataFrame 1 (list_to_map [ ("x", [int 10]); ("cat", [Str "old"]) ]).

Definition world_with_cat : world :=
  World {[ 0 := frame_with_cat ]} {[ 0 := of_Z <$> [0; 20]%Z ]} [].

(** A table with a value on an inner edge and a value beyond the last
    edge of the bins 0, 10, 20. *)
Definition edge_frame : dataframe :=
  DataFrame 2 (list_to_map [ ("x", [int 10; int 25]) ]).

Definition edge_world : world :=
  World {[ 0 := edge_frame ]} {[ 0 := of_Z <$> [0; 10; 20]%Z ]} [].

(** A table whose values are all negative. *)
Definition negative_frame : dataframe :=
  DataFrame 2 (list_to_map [ ("x", [int (-5); int (-3)]) ]).

Definition negative_world : world := World {[ 0 := negative_frame ]} ∅ [].

(** The sum of a list of numbers. *)
Definition Qc_sum (l : list Qc) : Qc := foldr Qcplus 0%Qc l.

(** The marker and the bar heights of a trace. *)
Definition trace_marker (t : trace) : marker :=
  match t with Bar _ _ m _ _ => m | Scatter _ _ _ m _ _ => m end.

Definition bar_heights (t : trace) : list Qc :=
  match t with Bar _ y _ _ _ => y | Scatter _ _ _ _ _ _ => [] end.

(** The marker of the colour with index [i]. *)
Definition axa_marker (i : Z) : marker :=
  Marker (default (0, 0, 0, 0%Qc)%Z (AXA_colors !! Z.to_nat i)).

(** The values of the rows with key [k], in the order of the rows. *)
Definition rows_of {K} `{EqDecision K} (k : K) (rows : list (K * Qc)) : list Qc :=
  (filter (fun r => r.1 = k) rows).*2.

(** The arithmetic mean. *)
Definition mean (l : list Qc) : Qc := (Qc_sum l / of_nat (length l))%Qc.

(** The entry of key [k] in a table of groups. *)
Fixpoint assoc {K V} `{EqDecision K} (k : K) (acc : list (K * V)) : option V :=
  match acc with
  | [] => None
  | e :: r => if decide (k = e.1) then Some e.2 else assoc k r
  end.

(** A row with value [v] enters the entry of its group: the running sum
    and the number of rows. *)
Definition enter (o : option (Qc * nat)) (v : Qc) : Qc * nat :=
  match o with
  | Some e => ((e.1 + v)%Qc, S e.2)
  | None => (v, 1)
  end.

(** The markers of a list of traces that come in pairs of one colour, from
    the colour index of each pair. *)
Definition pair_markers (idxs : list Z) : list marker :=
  idxs ≫= (fun i => [axa_marker i; axa_marker i]).

(** A draw of [np.random.randint(0, 8)]. *)
Definition is_draw (z : Z) : Prop := (0 <= z < 8)%Z.

(** A table whose column [g] has eight distinct values. *)
Definition crowded_frame : dataframe :=
  DataFrame 8 (list_to_map
    [ ("x", int <$> [5; 10; 15; 20; 25; 30; 35; 40]%Z);
      ("y", int <$> [1; 2; 3; 4; 5; 6; 7; 8]%Z);
      ("pr_total", int <$> [1; 2; 3; 4; 5; 6; 7; 8]%Z);
      ("g", Str <$> ["a"; "b"; "c"; "d"; "e"; "f"; "g"; "h"]) ]).

Definition crowded_world : world :=
  World {[ 0 := crowded_frame ]} ∅ [0; 1; 2; 3; 4; 5; 6; 7; 0; 1; 2]%Z.

(** A state with a table that has no column [pr_total], and two draws. *)
Definition drawn_world : world := World {[ 0 := edge_frame ]} ∅ [3; 5]%Z.

(** The cells of the column [cat] that [cat_clients] writes. *)
Definition cat_cells (edges xs : list Qc) : list cell :=
  map (fun v => Num (of_Z (cat_of edges v))) xs.

(** The height of the bar of a trace over interval [i]; a scatter trace
    has no bars. *)
Definition height_at (i : nat) (t : trace) : Qc := default 0%Qc (bar_heights t !! i).

(** The scatter trace that [create_cat_plots] makes for the value [v] of
    the categorical column [col]: one point for every category [c] that a
    row with the value [v] has, at the means of [xs] and of [ys] over the
    rows with the value [v] and the category [c]; the bar trace [b] has the
    same colour and the same name. *)
Definition value_scatter (col cats : list cell) (xs ys : list Qc)
    (v : cell) (s b : trace) : Prop :=
  exists sx sy m,
    s = Scatter sx sy "lines+markers" m v "y1" /\ trace_marker b = m /\ trace_name b = v /\
    (forall c q, (c, q) ∈ sx <->
                 ((v, c) ∈ zip col cats) /\
                 q = mean (rows_of (v, c) (zip (zip col cats) xs))) /\
    (forall c q, (c, q) ∈ sy <->
                 ((v, c) ∈ zip col cats) /\
                 q = mean (rows_of (v, c) (zip (zip col cats) ys))).

(** * Properties *)

(** ** Running monadic code backwards *)

Lemma obind_Ok {A B} (c : outcome A) (k : A -> outcome B) b :
  obind c k = Ok b <-> exists a, c = Ok a /\ k a = Ok b.
Proof.
  destruct c as [a| |]; simpl.
  - split; [eauto|]. by intros (a' & [= <-] & Hk).
  - split; [done|]. by intros (? & ? & ?).
  - split; [done|]. by intros (? & ? & ?).
Qed.

Lemma bind_Ok {A B} (c : M A) (k : A -> M B) w b w2 :
  bind c k w = Ok (b, w2) <-> exists a w1, c w = Ok (a, w1) /\ k a w1 = Ok (b, w2).
Proof.
  unfold bind. destruct (c w) as [[a w1]| |].
  - split; [eauto|]. by intros (a' & w' & [= <- <-] & Hk).
  - split; [done|]. by intros (? & ? & ? & ?).
  - split; [done|]. by intros (? & ? & ? & ?).
Qed.

Lemma lift_Ok {A} (c : outcome A) w a w1 :
  lift c w = Ok (a, w1) <-> c = Ok a /\ w1 = w.
Proof.
  unfold lift. destruct c as [a'| |].
  - split; [by intros [= <- <-]|by intros [[= <-] ->]].
  - split; [done|by intros [? ?]].
  - split; [done|by intros [? ?]].
Qed.

Lemma ret_Ok {A} (a : A) w b w1 : ret a w = Ok (b, w1) <-> b = a /\ w1 = w.
Proof. unfold ret. split; [intros [= <- <-]; auto | intros [-> ->]; auto]. Qed.

Lemma read_frame_Ok l w d w1 :
  read_frame l w = Ok (d, w1) <-> frames w !! l = Some d /\ w1 = w.
Proof.
  unfold read_frame. destruct (frames w !! l) as [d'|].
  - split; [by intros [= <- <-]|by intros [[= <-] ->]].
  - split; [done|by intros [? ?]].
Qed.

Lemma read_array_Ok l w a w1 :
  read_array l w = Ok (a, w1) <-> arrays w !! l = Some a /\ w1 = w.
Proof.
  unfold read_array. destruct (arrays w !! l) as [a'|].
  - split; [by intros [= <- <-]|by intros [[= <-] ->]].
  - split; [done|by intros [? ?]].
Qed.

(** Splits a successful run into the successful runs of its steps. *)
Ltac inv_run :=
  repeat match goal with
  | H : bind _ _ _ = Ok (_, _) |- _ =>
      apply bind_Ok in H; destruct H as (? & ? & ? & H)
  | H : lift _ _ = Ok (_, _) |- _ => apply lift_Ok in H; destruct H as [H ?]; subst
  | H : ret _ _ = Ok (_, _) |- _ => apply ret_Ok in H; destruct H as [? ?]; subst
  | H : read_frame _ _ = Ok (_, _) |- _ =>
      apply read_frame_Ok in H; destruct H as [H ?]; subst
  | H : read_array _ _ = Ok (_, _) |- _ =>
      apply read_array_Ok in H; destruct H as [H ?]; subst
  | H : obind _ _ = Ok _ |- _ => apply obind_Ok in H; destruct H as (? & ? & H)
  | H : Ok _ = Ok _ |- _ => injection H as H; subst
  end.

Lemma filter_all {A} (P : A -> Prop) `{forall x, Decision (P x)} (l : list A) :
  Forall P l -> filter P l = l.
Proof.
  induction 1 as [|x l Hx Hl IH]; [done|]. by rewrite filter_cons_True, IH.
Qed.

(** ** find_color *)

Section find_color.
Variable color_used : list Z.

Lemma redraw_Ok temp ds t rest :
  redraw color_used temp ds = Ok (t, rest) ->
  (t ∉ color_used) /\ (t ∈ temp :: ds) /\ rest `suffix_of` ds.
Proof.
  revert temp. induction ds as [|d ds IH]; intros temp; simpl.
  - case_decide; [discriminate|]. intros [= <- <-].
    split; [done|]. split; [apply list_elem_of_here|done].
  - case_decide.
    + intros Hr. apply IH in Hr as (? & ? & ?).
      split; [done|]. split; [by apply list_elem_of_further|]. by apply suffix_cons_r.
    + intros [= <- <-]. split; [done|]. split; [apply list_elem_of_here|done].
Qed.

Lemma redraw_no_raise temp ds e : redraw color_used temp ds <> Raise e.
Proof.
  revert temp. induction ds as [|d ds IH]; intros temp; simpl; case_decide; done.
Qed.

Lemma redraw_Spin temp ds :
  redraw color_used temp ds = Spin <-> Forall (fun d => d ∈ color_used) (temp :: ds).
Proof.
  revert temp. induction ds as [|d ds IH]; intros temp; simpl.
  - case_decide; split; try done.
    + intros _. by repeat constructor.
    + by intros [? ?]%Forall_cons_1.
  - case_decide.
    + rewrite IH. split; [by constructor|by intros [? ?]%Forall_cons_1].
    + split; [done|]. by intros [? ?]%Forall_cons_1.
Qed.

Lemma py_index_no_spin {A} (l : list A) i : py_index l i <> Spin.
Proof.
  unfold py_index, getidx. repeat case_decide; try done.
  - by destruct (l !! Z.to_nat i).
  - by destruct (l !! Z.to_nat (Z.of_nat (length l) + i)).
Qed.

(** The loop is still running exactly when every draw so far was a
    colour in use. *)
Lemma find_color_Spin w :
  find_color color_used w = Spin <-> Forall (fun d => d ∈ color_used) (draws w).
Proof.
  unfold find_color, bind, randint, lift, ret. destruct (draws w) as [|d ds]; simpl.
  - split; [by constructor|done].
  - rewrite <- redraw_Spin.
    destruct (redraw color_used d ds) as [[t rest]| |]; simpl; [|done..].
    destruct (py_index AXA_colors t) eqn:E; simpl; try done.
    by apply py_index_no_spin in E.
Qed.

Lemma py_index_colors i :
  (0 <= i < 8)%Z -> exists c, py_index AXA_colors i = Ok c.
Proof.
  intros Hi. unfold py_index. rewrite decide_True by lia.
  assert (Hn : Z.to_nat i < 8) by lia.
  unfold getidx. destruct (AXA_colors !! Z.to_nat i) eqn:E; [eauto|].
  apply lookup_ge_None in E. simpl in E. lia.
Qed.

Lemma find_color_Ok w m used' w' :
  Forall (fun d => 0 <= d < 8)%Z (draws w) ->
  find_color color_used w = Ok (m, used', w') ->
  exists idx, (0 <= idx < 8)%Z /\ (idx ∉ color_used) /\ (idx ∈ draws w) /\
              used' = color_used ++ [idx] /\
              py_index AXA_colors idx = Ok (color m) /\
              frames w' = frames w /\ arrays w' = arrays w /\
              draws w' `suffix_of` draws w.
Proof.
  intros Hrange Hrun. unfold find_color in Hrun.
  apply bind_Ok in Hrun as (d & w1 & Hd & Hrun).
  apply bind_Ok in Hrun as (t & w2 & Ht & Hrun).
  apply bind_Ok in Hrun as (c & w3 & Hc & Hrun).
  apply lift_Ok in Hc as [Hc ->]. apply ret_Ok in Hrun as [[= -> ->] ->].
  unfold randint in Hd. destruct (draws w) as [|d0 ds] eqn:Edr; [done|].
  injection Hd as <- <-. simpl in Ht.
  apply obind_Ok in Ht as ([t' rest] & Hre & [= <- <-]).
  apply redraw_Ok in Hre as (Hnot & Hin & Hsuf). simpl in *.
  exists t'. split.
  { rewrite Forall_forall in Hrange. by apply Hrange. }
  repeat split; try done. by apply suffix_cons_r.
Qed.

Lemma find_color_no_raise w e :
  Forall (fun d => 0 <= d < 8)%Z (draws w) ->
  find_color color_used w <> Raise e.
Proof.
  intros Hrange. unfold find_color, bind, randint, lift, ret.
  destruct (draws w) as [|d ds] eqn:Edr; simpl; [done|].
  destruct (redraw color_used d ds) as [[t rest]| |] eqn:Hre; simpl; [| |done].
  - apply redraw_Ok in Hre as (_ & Hin & _).
    destruct (py_index_colors t) as [c ->]; [|done].
    rewrite Forall_forall in Hrange. by apply Hrange.
  - by apply redraw_no_raise in Hre.
Qed.

(** Once an index that is not in use is drawn, the loop is left. *)
Lemma find_color_fair w :
  Forall (fun d => 0 <= d < 8)%Z (draws w) ->
  (exists d, d ∈ draws w /\ d ∉ color_used) ->
  exists r w', find_color color_used w = Ok (r, w').
Proof.
  intros Hrange (d & Hd & Hfree).
  destruct (find_color color_used w) as [[r w']| |] eqn:Hrun; [eauto| |].
  - by apply find_color_no_raise in Hrun.
  - apply find_color_Spin in Hrun. rewrite Forall_forall in Hrun.
    destruct Hfree. by apply Hrun.
Qed.

(** Of the [8 ^ n] sequences of [n] draws, the loop is still running
    after [u ^ n] of them, where [u] is the number of indices in use. *)
Lemma all_draws_S n :
  all_draws (S n) = seqZ 0 8 ≫= fun d => (fun ds => d :: ds) <$> all_draws n.
Proof. reflexivity. Qed.

Lemma all_draws_length n : length (all_draws n) = 8 ^ n.
Proof.
  induction n as [|n IH]; [done|]. rewrite all_draws_S.
  assert (Hgen : forall L : list Z,
    length (L ≫= fun d => (fun ds => d :: ds) <$> all_draws n) = length L * 8 ^ n).
  { induction L as [|a L IHL]; [done|].
    rewrite bind_cons, length_app, length_fmap, IHL, IH. simpl. lia. }
  rewrite Hgen, length_seqZ. simpl. lia.
Qed.

Lemma all_draws_range n ds :
  ds ∈ all_draws n -> Forall (fun d => 0 <= d < 8)%Z ds.
Proof.
  revert ds. induction n as [|n IH]; intros ds.
  - intros ->%list_elem_of_singleton. constructor.
  - rewrite all_draws_S. intros (d & (ds' & -> & Hds')%list_elem_of_fmap & Hd%elem_of_seqZ)%list_elem_of_bind.
    constructor; [lia|]. by apply IH.
Qed.

Lemma spinning_draws f a n :
  length (filter (fun ds => spins (find_color color_used (World f a ds))) (all_draws n))
  = length (used_indices color_used) ^ n.
Proof.
  assert (Hsp : forall ds, spins (find_color color_used (World f a ds))
                           <-> Forall (fun d => d ∈ color_used) ds).
  { intros ds. rewrite <- (find_color_Spin (World f a ds)).
    destruct (find_color color_used (World f a ds)); simpl; split; done. }
  induction n as [|n IH].
  - change (all_draws 0) with [@nil Z].
    rewrite filter_cons_True; [done|]. apply Hsp. constructor.
  - rewrite all_draws_S.
    assert (Hgen : forall L : list Z,
      length (filter (fun ds => spins (find_color color_used (World f a ds)))
                     (L ≫= fun d => (fun ds => d :: ds) <$> all_draws n))
      = length (filter (fun i => i ∈ color_used) L)
        * length (used_indices color_used) ^ n).
    { rewrite <- IH. clear IH.
      induction L as [|d L IHL]; [done|].
      rewrite bind_cons, filter_app, length_app, IHL. clear IHL.
      destruct (decide (d ∈ color_used)) as [Hd|Hd].
      - rewrite (filter_cons_True (fun i => i ∈ color_used)) by done.
        simpl. f_equal.
        induction (all_draws n) as [|ds D IHD]; [done|].
        rewrite fmap_cons.
        destruct (decide (Forall (fun d => d ∈ color_used) ds)) as [Hds|Hds].
        + rewrite !filter_cons_True; [|by apply Hsp|apply Hsp; by constructor].
          simpl. by rewrite IHD.
        + rewrite !filter_cons_False; [done|by rewrite Hsp|].
          rewrite Hsp. by intros [? ?]%Forall_cons_1.
      - rewrite (filter_cons_False (fun i => i ∈ color_used)) by done.
        replace (length (filter _ ((fun ds => d :: ds) <$> all_draws n))) with 0; [done|].
        symmetry. apply length_zero_iff_nil.
        induction (all_draws n) as [|ds D IHD]; [done|].
        rewrite fmap_cons, filter_cons_False; [done|].
        rewrite Hsp. by intros [? ?]%Forall_cons_1. }
    rewrite Hgen. reflexivity.
Qed.

Lemma used_indices_lt :
  length (used_indices color_used) < 8 <->
  exists i, (0 <= i < 8)%Z /\ i ∉ color_used.
Proof.
  unfold used_indices. split.
  - intros Hlt.
    destruct (decide (Forall (fun i => i ∈ color_used) (seqZ 0 8))) as [Hall|Hex].
    + rewrite filter_all, length_seqZ in Hlt by done. simpl in Hlt. lia.
    + apply not_Forall_Exists in Hex; [|apply _].
      apply Exists_exists in Hex as (i & Hi%elem_of_seqZ & Hfree).
      exists i. split; [lia|done].
  - intros (i & Hi & Hfree).
    assert (Hin : i ∈ seqZ 0 8) by (apply elem_of_seqZ; lia).
    apply list_elem_of_split in Hin as (l1 & l2 & Hs).
    assert (Hlen : length (seqZ 0 8) = 8) by (rewrite length_seqZ; done).
    rewrite Hs in *. rewrite filter_app, filter_cons_False by done.
    rewrite length_app in *. simpl in Hlen.
    pose proof (length_filter (fun i => i ∈ color_used) l1).
    pose proof (length_filter (fun i => i ∈ color_used) l2). lia.
Qed.
End find_color.

(** C9.  [find_color] on a list [color_used] and draws of [randint(0, 8)].
    When fewer than eight of the indices 0..7 are in use: the loop is left
    as soon as an index that is not in use is drawn; whenever it is left,
    the result is an index in 0..7 that was not in [color_used], the colour
    is the one at that index and the returned list is [color_used] with
    exactly that index appended; no exception is raised; and of the [8 ^ n]
    equally likely sequences of [n] draws only [u ^ n] keep the loop
    running, [u < 8] being the number of indices in use, so the loop
    terminates with probability one.  When all eight indices are in use the
    loop is still running after every sequence of draws: it never
    terminates. *)
Theorem find_color_terminates_unless_exhausted (color_used : list Z) (w : world) :
  Forall (fun d => 0 <= d < 8)%Z (draws w) ->
  ((exists i, (0 <= i < 8)%Z /\ (i ∉ color_used)) ->
     ((exists d, (d ∈ draws w) /\ (d ∉ color_used)) ->
        exists r w', find_color color_used w = Ok (r, w'))
     /\ (forall m used' w', find_color color_used w = Ok (m, used', w') ->
           exists idx, (0 <= idx < 8)%Z /\ (idx ∉ color_used) /\
                       used' = color_used ++ [idx] /\
                       py_index AXA_colors idx = Ok (color m) /\
                       frames w' = frames w /\ arrays w' = arrays w)
     /\ (forall e, find_color color_used w <> Raise e)
     /\ (forall n,
           length (all_draws n) = 8 ^ n /\
           length (filter (fun ds => spins (find_color color_used
                                              (World (frames w) (arrays w) ds)))
                          (all_draws n))
           = length (used_indices color_used) ^ n /\
           length (used_indices color_used) < 8))
  /\ ((forall i, (0 <= i < 8)%Z -> i ∈ color_used) ->
        find_color color_used w = Spin).
Proof.
  intros Hrange. split.
  - intros Hfree. split; [|split; [|split]].
    + by apply find_color_fair.
    + intros m used' w' Hrun.
      destruct (find_color_Ok _ _ _ _ _ Hrange Hrun)
        as (idx & ? & ? & ? & ? & ? & ? & ? & ?).
      exists idx. done.
    + intros e. by apply find_color_no_raise.
    + intros n. split; [apply all_draws_length|].
      split; [apply spinning_draws|]. by apply used_indices_lt.
  - intros Hall. apply find_color_Spin.
    eapply Forall_impl; [exact Hrange|]. intros d Hd. by apply Hall.
Qed.

Lemma find_color_terminates_unless_exhausted_witness :
  Forall (fun d => 0 <= d < 8)%Z [0; 1; 3]%Z /\
  (exists r w', find_color [0; 1]%Z (World ∅ ∅ [0; 1; 3]%Z) = Ok (r, w')) /\
  find_color [0; 1; 2; 3; 4; 5; 6; 7]%Z (World ∅ ∅ [0; 1; 3]%Z) = Spin.
Proof.
  assert (Hr : Forall (fun d => 0 <= d < 8)%Z [0; 1; 3]%Z)
    by (repeat constructor; lia).
  split; [exact Hr|]. split.
  - apply (find_color_terminates_unless_exhausted [0; 1]%Z (World ∅ ∅ [0; 1; 3]%Z) Hr).
    + exists 2%Z. split; [lia|set_solver].
    + exists 3%Z. split; set_solver.
  - apply (find_color_terminates_unless_exhausted
             [0; 1; 2; 3; 4; 5; 6; 7]%Z (World ∅ ∅ [0; 1; 3]%Z) Hr).
    intros i Hi.
    assert (i = 0 \/ i = 1 \/ i = 2 \/ i = 3 \/ i = 4 \/ i = 5 \/ i = 6 \/ i = 7)%Z
      as Hcases by lia.
    repeat destruct Hcases as [->|Hcases]; try subst i; set_solver.
Defined.

(** ** create_figure: the output file *)

(** C6.  Whatever the arguments, the call of [plotly.offline.plot] that ends
    [create_figure] names one output file: the fixed directory, the title
    and the extension [.html]. *)
Theorem create_figure_filename df x_var y_var x_title y_title title
    second_y_var categorical_var stack_bar w pc w' :
  create_figure df x_var y_var x_title y_title title
                second_y_var categorical_var stack_bar w = Ok (pc, w') ->
  filename pc
  = "C:\Users\a-garde\PycharmProjects\Plotly-Graph\output_file\" +:+ title +:+ ".html".
Proof.
  unfold create_figure. intros Hrun.
  apply bind_Ok in Hrun as (cu & w1 & _ & Hrun).
  apply bind_Ok in Hrun as (tb & w2 & _ & Hrun).
  apply bind_Ok in Hrun as (df' & w3 & _ & Hrun).
  apply bind_Ok in Hrun as (xy & w4 & _ & Hrun).
  apply bind_Ok in Hrun as ([[[dat lay] xb] used] & w5 & _ & Hrun).
  apply bind_Ok in Hrun as (dat' & w6 & _ & Hrun).
  apply ret_Ok in Hrun as [-> _]. reflexivity.
Qed.

Lemma create_figure_filename_witness :
  exists pc w',
    create_figure 0 "x" "y" "X" "Y" "T" (Some "y") (Some "g") false example_world
    = Ok (pc, w') /\
    filename pc = "C:\Users\a-garde\PycharmProjects\Plotly-Graph\output_file\T.html".
Proof.
  assert (Hrun : exists pc w',
    create_figure 0 "x" "y" "X" "Y" "T" (Some "y") (Some "g") false example_world
    = Ok (pc, w')) by (vm_compute; eauto).
  destruct Hrun as (pc & w' & Hrun). exists pc, w'. split; [exact Hrun|].
  exact (create_figure_filename _ _ _ _ _ _ _ _ _ _ _ _ Hrun).
Defined.

(** ** cat_clients *)

Lemma to_numeric_Ok col xs : to_numeric col = Ok xs <-> col = Num <$> xs.
Proof.
  unfold to_numeric. revert xs. induction col as [|c col IH]; intros xs; simpl.
  - split; [by intros [= <-]|]. by destruct xs.
  - split.
    + intros (q & Hq & (qs & Hqs & [= <-])%obind_Ok)%obind_Ok.
      apply IH in Hqs as ->. destruct c; [|done]. by injection Hq as ->.
    + destruct xs as [|q qs]; [done|]. intros [= -> ->]. simpl.
      by rewrite (proj2 (IH qs) eq_refl).
Qed.

Lemma to_numeric_length col xs : to_numeric col = Ok xs -> length xs = length col.
Proof. intros ->%to_numeric_Ok. by rewrite length_fmap. Qed.

Lemma cat_from_step i lo hi t v :
  cat_from i (lo :: hi :: t) v
  = if decide ((lo <= v)%Qc /\ (v <= hi)%Qc) then i else cat_from (i + 1) (hi :: t) v.
Proof. reflexivity. Qed.

Section cat_clients.
Variables (d : dataframe) (x_var : string) (edges : list Qc) (xs : list Qc).
Hypothesis Hcol : cols d !! x_var = Some (Num <$> xs).

(** One condition per pair of neighbouring edges. *)
Lemma criteria_loop_Ok k m :
  k + m + 1 <= length edges ->
  criteria_loop d x_var edges (seq k m)
  = Ok (map (fun i => between xs (default 0%Qc (edges !! i))
                                 (default 0%Qc (edges !! (i + 1)))) (seq k m)).
Proof.
  revert k. induction m as [|m IH]; intros k Hk; [done|].
  simpl. unfold getitem. rewrite Hcol. simpl. unfold getidx.
  destruct (lookup_lt_is_Some_2 edges k) as [lo Hlo]; [lia|].
  destruct (lookup_lt_is_Some_2 edges (k + 1)) as [hi Hhi]; [lia|].
  rewrite Hlo, Hhi. simpl.
  rewrite (proj2 (to_numeric_Ok _ _) eq_refl). simpl.
  rewrite IH by lia. reflexivity.
Qed.

Lemma zip_with_map_same {A B C D} (f : B -> C -> D) (g : A -> B) (h : A -> C) (l : list A) :
  zip_with f (map g l) (map h l) = map (fun a => f (g a) (h a)) l.
Proof. induction l as [|a l IH]; [done|]. simpl. by rewrite IH. Qed.

(** [np.select] over those conditions gives every value the index of the
    first closed interval that holds it. *)
Lemma select_cat_from k m :
  k + m + 1 = length edges ->
  foldr (fun (cv : list bool * Z) res =>
           zip_with (fun (c : bool) r => if c then cv.2 else r) cv.1 res)
        (replicate (length xs) 0%Z)
        (zip (map (fun i => between xs (default 0%Qc (edges !! i))
                                       (default 0%Qc (edges !! (i + 1)))) (seq k m))
             (map Z.of_nat (seq k m)))
  = map (cat_from (Z.of_nat k) (drop k edges)) xs.
Proof.
  revert k. induction m as [|m IH]; intros k Hk.
  - simpl. destruct (lookup_lt_is_Some_2 edges k) as [e He]; [lia|].
    rewrite (drop_S _ _ _ He), drop_ge by lia. simpl.
    clear. induction xs as [|v l IHl]; [done|]. simpl. by rewrite IHl.
  - destruct (lookup_lt_is_Some_2 edges k) as [lo Hlo]; [lia|].
    destruct (lookup_lt_is_Some_2 edges (S k)) as [hi Hhi]; [lia|].
    simpl seq. simpl map. simpl zip. simpl foldr.
    rewrite IH by lia. unfold between at 1.
    rewrite zip_with_map_same.
    replace (k + 1) with (S k) by lia. rewrite Hlo, Hhi. simpl default.
    apply map_ext. intros v.
    rewrite (drop_S _ _ _ Hlo), (drop_S _ _ _ Hhi), cat_from_step.
    replace (Z.of_nat k + 1)%Z with (Z.of_nat (S k)) by lia.
    destruct (decide ((lo <= v)%Qc /\ (v <= hi)%Qc)) as [[? ?]|Hn].
    + by rewrite !bool_decide_eq_true_2.
    + destruct (decide (lo <= v)%Qc); [|by rewrite bool_decide_eq_false_2].
      rewrite (bool_decide_eq_false_2 (v <= hi)%Qc) by tauto.
      by rewrite andb_false_r.
Qed.

Lemma np_select_cat :
  2 <= length edges ->
  np_select (map (fun i => between xs (default 0%Qc (edges !! i))
                                      (default 0%Qc (edges !! (i + 1))))
                 (seq 0 (length edges - 1)))
            (map Z.of_nat (seq 0 (length edges - 1))) 0
  = Ok (map (cat_of edges) xs).
Proof.
  intros Hlen. unfold np_select.
  pose proof (select_cat_from 0 (length edges - 1) ltac:(lia)) as Hsel.
  remember (length edges - 1) as n eqn:Hn. destruct n as [|m]; [lia|].
  cbn [seq map] in *. rewrite decide_True by (simpl; by rewrite !length_map).
  f_equal. unfold between at 1. rewrite length_map. exact Hsel.
Qed.
End cat_clients.

Lemma setitem_Ok d c l d' :
  setitem d c l = Ok d' <->
  length l = nrows d /\ d' = {| nrows := nrows d; cols := <[c := l]> (cols d) |}.
Proof.
  unfold setitem. case_decide.
  - split; [by intros [= <-]|by intros [_ ->]].
  - split; [done|by intros [? _]].
Qed.

(** What a successful call of [cat_clients] does to the state. *)
Lemma cat_clients_Ok df x_var x_bar w r w' :
  cat_clients df x_var x_bar w = Ok (r, w') ->
  exists d col,
    frames w !! df = Some d /\ r = df /\ length col = nrows d /\
    w' = {| frames := <[df := {| nrows := nrows d; cols := <["cat" := col]> (cols d) |}]> (frames w);
            arrays := arrays w; draws := draws w |}.
Proof.
  unfold cat_clients. intros Hrun.
  apply bind_Ok in Hrun as (d & w1 & [Hd ->]%read_frame_Ok & Hrun).
  apply bind_Ok in Hrun as (edges & w1 & [He ->]%read_array_Ok & Hrun).
  apply bind_Ok in Hrun as (crit & w1 & [Hc ->]%lift_Ok & Hrun).
  apply bind_Ok in Hrun as (sel & w1 & [Hs ->]%lift_Ok & Hrun).
  apply bind_Ok in Hrun as (d' & w1 & [[Hlen ->]%setitem_Ok ->]%lift_Ok & Hrun).
  apply bind_Ok in Hrun as ([] & w1 & Hw & Hrun).
  apply ret_Ok in Hrun as [-> ->]. injection Hw as <-.
  exists d, (map (fun z => Num (of_Z z)) sel). done.
Qed.

(** [cat_clients] returns when the table is well formed, the column is
    numeric and there is at least one interval; the new column holds the
    category of every row. *)
Lemma cat_clients_runs df x_var x_bar w d edges xs :
  frames w !! df = Some d ->
  arrays w !! x_bar = Some edges ->
  cols d !! x_var = Some (Num <$> xs) ->
  df_wf d ->
  2 <= length edges ->
  cat_clients df x_var x_bar w
  = Ok (df, {| frames := <[df := {| nrows := nrows d;
                                    cols := <["cat" := map (fun v => Num (of_Z (cat_of edges v))) xs]>
                                              (cols d) |}]> (frames w);
               arrays := arrays w; draws := draws w |}).
Proof.
  intros Hd He Hcol Hwf Hlen.
  unfold cat_clients, bind, read_frame, read_array, lift, write_frame, ret.
  rewrite Hd, He.
  rewrite (criteria_loop_Ok d x_var edges xs Hcol) by lia.
  rewrite (np_select_cat edges xs Hlen).
  unfold setitem. rewrite decide_True.
  - by rewrite map_map.
  - rewrite !length_map. rewrite <- (Hwf _ _ Hcol). by rewrite length_fmap.
Qed.

(** C10, amended.  [cat_clients] changes the caller's dataframe in place and
    returns that same object.  Afterwards the dataframe has a column [cat]:
    a new column when it had none, the old column overwritten when it had
    one.  Every other column, the number of rows, every other object and the
    draws are as before.  It returns whenever the dataframe is well formed,
    [x_var] is a numeric column and there are at least two edges. *)
Theorem cat_clients_in_place df x_var x_bar w d :
  frames w !! df = Some d ->
  (forall r w', cat_clients df x_var x_bar w = Ok (r, w') ->
     r = df /\ arrays w' = arrays w /\ draws w' = draws w /\
     (forall l, l <> df -> frames w' !! l = frames w !! l) /\
     exists d', frames w' !! df = Some d' /\
       nrows d' = nrows d /\
       is_Some (cols d' !! "cat") /\
       (forall c, c <> "cat" -> cols d' !! c = cols d !! c) /\
       dom (cols d') = {["cat"]} ∪ dom (cols d) /\
       (cols d !! "cat" = None -> size (cols d') = S (size (cols d))) /\
       (df_wf d -> df_wf d'))
  /\ (forall edges xs,
        arrays w !! x_bar = Some edges -> 2 <= length edges ->
        cols d !! x_var = Some (Num <$> xs) -> df_wf d ->
        exists w', cat_clients df x_var x_bar w = Ok (df, w')).
Proof.
  intros Hd. split.
  - intros r w' (d0 & col & Hd0 & -> & Hlen & ->)%cat_clients_Ok.
    rewrite Hd in Hd0. injection Hd0 as <-. simpl.
    split; [done|]. split; [done|]. split; [done|]. split.
    { intros l Hl. by rewrite lookup_insert_ne. }
    eexists. split; [apply lookup_insert_eq|]. simpl.
    split; [done|]. split; [rewrite lookup_insert_eq; eauto|].
    split; [intros c Hc; by rewrite lookup_insert_ne|].
    split; [apply dom_insert_L|].
    split; [intros Hnone; by apply map_size_insert_None|].
    intros Hwf c l. unfold df_wf in *. simpl.
    destruct (decide (c = "cat")) as [->|Hc].
    + rewrite lookup_insert_eq. by intros [= <-].
    + rewrite lookup_insert_ne by done. apply Hwf.
  - intros edges xs He Hlen Hcol Hwf. eexists.
    by apply (cat_clients_runs df x_var x_bar w d edges xs).
Qed.

Lemma cat_clients_in_place_witness :
  frames example_binned !! 0 = Some example_frame /\
  exists w', cat_clients 0 "x" 0 example_binned = Ok (0, w').
Proof.
  assert (Hd : frames example_binned !! 0 = Some example_frame) by reflexivity.
  split; [exact Hd|].
  apply (proj2 (cat_clients_in_place 0 "x" 0 example_binned example_frame Hd)
               (of_Z <$> [0; 100; 200]%Z) (of_Z <$> [5; 10; 50; 120]%Z)).
  - reflexivity.
  - simpl. lia.
  - reflexivity.
  - apply (bool_decide_unpack _). vm_compute. exact I.
Defined.

(** C10 as stated fails on a dataframe that already has a column [cat]:
    no column is added and the old values of [cat] are lost. *)
Lemma cat_clients_overwrites_cat :
  exists w' d',
    cat_clients 0 "x" 0 world_with_cat = Ok (0, w') /\
    frames w' !! 0 = Some d' /\
    size (cols d') = size (cols frame_with_cat) /\
    cols frame_with_cat !! "cat" = Some [Str "old"] /\
    cols d' !! "cat" = Some [int 0].
Proof.
  eexists _, _. split; [vm_compute; reflexivity|].
  split; [vm_compute; reflexivity|]. 
  split; [vm_compute; reflexivity|].
  split; vm_compute; reflexivity.
Qed.

(** ** np.histogram *)

(** Order facts of [Qc] are order facts of [Q]. *)
Ltac qc_order := unfold Qcle, Qclt in *; lra.

Section histogram.
Variable xs : list Qc.

Lemma count_below_split lo hi :
  (lo <= hi)%Qc ->
  (searchsorted_left xs hi - searchsorted_left xs lo)%Z
  = Z.of_nat (length (filter (fun v => (lo <= v)%Qc /\ (v < hi)%Qc) xs)).
Proof.
  intros Hle. unfold searchsorted_left.
  induction xs as [|v l IH]; [done|].
  rewrite !filter_cons.
  destruct (decide (v < hi)%Qc), (decide (v < lo)%Qc),
           (decide ((lo <= v)%Qc /\ (v < hi)%Qc)) as [[? ?]|Hn]; simpl length;
    try lia; exfalso; try (apply Hn; split); qc_order.
Qed.

Lemma count_upto_split lo hi :
  (lo <= hi)%Qc ->
  (searchsorted_right xs hi - searchsorted_left xs lo)%Z
  = Z.of_nat (length (filter (fun v => (lo <= v)%Qc /\ (v <= hi)%Qc) xs)).
Proof.
  intros Hle. unfold searchsorted_left, searchsorted_right.
  induction xs as [|v l IH]; [done|].
  rewrite !filter_cons.
  destruct (decide (v <= hi)%Qc), (decide (v < lo)%Qc),
           (decide ((lo <= v)%Qc /\ (v <= hi)%Qc)) as [[? ?]|Hn]; simpl length;
    try lia; exfalso; try (apply Hn; split); qc_order.
Qed.

Lemma in_bin_shift lo rest i v : in_bin (lo :: rest) (S i) v <-> in_bin rest i v.
Proof.
  unfold in_bin. simpl.
  split; intros (lo' & hi' & ? & ? & ? & [?|[? ?]]); exists lo', hi';
    repeat split; auto; right; split; auto; lia.
Qed.

Lemma in_bin_first lo hi t v :
  in_bin (lo :: hi :: t) 0 v
  <-> (lo <= v)%Qc /\ ((v < hi)%Qc \/ (t = [] /\ v = hi)).
Proof.
  unfold in_bin. simpl. split.
  - intros (lo' & hi' & [= <-] & [= <-] & Hlo & [Hlt|[Hlen ->]]); split; auto.
    right. split; [|done]. destruct t; [done|simpl in Hlen; lia].
  - intros [Hlo Hhi]. exists lo, hi. repeat split; try done.
    destruct Hhi as [?|[-> ->]]; auto.
Qed.

Lemma bin_count_shift lo rest i :
  bin_count (lo :: rest) xs (S i) = bin_count rest xs i.
Proof.
  unfold bin_count. f_equal. apply list_filter_iff. intros v. apply in_bin_shift.
Qed.

(** The counts of [np.histogram] are the numbers of values that fall in
    the intervals. *)
Lemma histogram_counts edges :
  any_decreasing edges = false ->
  np_diff (search_sorted_inclusive xs edges)
  = map (fun i => Z.of_nat (bin_count edges xs i)) (seq 0 (length edges - 1)).
Proof.
  induction edges as [|lo rest IH]; [done|].
  destruct rest as [|hi t]; [done|].
  intros Hmono. simpl in Hmono.
  apply orb_false_iff in Hmono as [Hle%bool_decide_eq_false Hmono].
  apply Qcnot_lt_le in Hle. specialize (IH Hmono).
  replace (length (lo :: hi :: t) - 1) with (S (length (hi :: t) - 1)) by (simpl; lia).
  cbn [seq map]. rewrite <- seq_shift, map_map.
  rewrite (map_ext _ (fun i => Z.of_nat (bin_count (hi :: t) xs i)))
    by (intros i; by rewrite bin_count_shift).
  rewrite <- IH. unfold bin_count at 1.
  rewrite (list_filter_iff _ _ _ (in_bin_first lo hi t)).
  destruct t as [|e t'].
  - simpl. f_equal. rewrite count_upto_split by done. f_equal. f_equal.
    apply list_filter_iff. intros v. split.
    + intros [Hlo Hhi]. split; [done|]. destruct (Qcle_lt_or_eq _ _ Hhi); auto.
    + intros [Hlo Hhi]. split; [done|].
      destruct Hhi as [?|[_ ->]]; [by apply Qclt_le_weak|apply Qcle_refl].
  - change (search_sorted_inclusive xs (lo :: hi :: e :: t'))
      with (searchsorted_left xs lo :: search_sorted_inclusive xs (hi :: e :: t')).
    change (search_sorted_inclusive xs (hi :: e :: t'))
      with (searchsorted_left xs hi :: search_sorted_inclusive xs (e :: t')) at 1.
    cbn [np_diff]. f_equal. rewrite count_below_split by done. f_equal. f_equal.
    apply list_filter_iff. intros v. split.
    + intros [? ?]. auto.
    + intros [? [?|[[=] _]]]. done.
Qed.
End histogram.

(** ** The category of a row and its interval in the histogram *)

Lemma monotone_head lo rest i e :
  any_decreasing (lo :: rest) = false -> (lo :: rest) !! i = Some e -> (lo <= e)%Qc.
Proof.
  revert lo i. induction rest as [|hi t IH]; intros lo i Hmono Hi.
  - destruct i; [|done]. injection Hi as <-. apply Qcle_refl.
  - destruct i as [|i]; [injection Hi as <-; apply Qcle_refl|].
    simpl in Hmono. apply orb_false_iff in Hmono as [Hle%bool_decide_eq_false Hmono].
    apply Qcnot_lt_le in Hle. eapply Qcle_trans; [exact Hle|]. by eapply IH.
Qed.

(** Away from the inner edges the two agree: a value that falls in
    interval [i] of the histogram, and is above the left edge of that
    interval unless [i] is 0, is given the category [i]. *)
Lemma cat_from_in_bin k edges i v :
  any_decreasing edges = false ->
  in_bin edges i v ->
  (i = 0 \/ exists lo, edges !! i = Some lo /\ (lo < v)%Qc) ->
  cat_from k edges v = (k + Z.of_nat i)%Z.
Proof.
  revert k i. induction edges as [|lo rest IH]; intros k i Hmono Hin Hleft.
  { by destruct Hin as (? & ? & ? & _). }
  destruct rest as [|hi t].
  { destruct Hin as (? & ? & _ & Hhi & _). by destruct i. }
  rewrite cat_from_step. destruct i as [|i].
  - apply in_bin_first in Hin as [Hlo Hhi].
    rewrite decide_True; [lia|]. split; [done|].
    destruct Hhi as [?|[_ ->]]; [by apply Qclt_le_weak|apply Qcle_refl].
  - destruct Hleft as [?|(e & He & Hlt)]; [done|].
    rewrite decide_False.
    + simpl in Hmono. apply orb_false_iff in Hmono as [_ Hmono].
      rewrite (IH (k + 1)%Z i Hmono); [lia|by apply in_bin_shift in Hin|].
      right. by exists e.
    + intros [_ Hhi]. simpl in Hmono. apply orb_false_iff in Hmono as [_ Hmono].
      pose proof (monotone_head hi t i e Hmono He). qc_order.
Qed.

(** C3, at the failing input.  With edges 0, 10, 20 and the values 10 and
    25: the histogram counts 10 in interval 1 and leaves 25 out, while
    [cat_clients] writes category 0 for both rows. *)
Theorem cat_clients_disagrees_with_histogram :
  exists w',
    cat_clients 0 "x" 0 edge_world = Ok (0, w') /\
    (frames w' !! 0 ≫= fun d => cols d !! "cat") = Some [int 0; int 0] /\
    np_histogram [int 10; int 25] (of_Z <$> [0; 10; 20]%Z) = Ok [0; 1]%Z /\
    in_bin (of_Z <$> [0; 10; 20]%Z) 1 (of_Z 10) /\
    ~ in_bin (of_Z <$> [0; 10; 20]%Z) 0 (of_Z 10) /\
    (forall i, ~ in_bin (of_Z <$> [0; 10; 20]%Z) i (of_Z 25)).
Proof.
  eexists. split; [vm_compute; reflexivity|].
  split; [vm_compute; reflexivity|].
  split; [vm_compute; reflexivity|].
  split; [apply (bool_decide_unpack _); vm_compute; exact I|].
  split; [apply (bool_decide_unpack _); vm_compute; exact I|].
  intros [|[|i]].
  - apply (bool_decide_unpack _). vm_compute. exact I.
  - apply (bool_decide_unpack _). vm_compute. exact I.
  - intros (? & ? & _ & Hhi & _). destruct i; discriminate.
Qed.

(** ** create_dist *)

Lemma percent_cancels : (of_Z 100 * Q2Qc (1 # 100) = 1)%Qc.
Proof. apply Qc_is_canon. reflexivity. Qed.

Lemma y_bar_of_Ok count len :
  len <> 0 ->
  y_bar_of count len = Ok (map (fun c => (of_Z c / of_nat len)%Qc) count).
Proof.
  intros Hlen. unfold y_bar_of. rewrite decide_False by tauto.
  f_equal. apply map_ext. intros c. unfold Qcdiv.
  transitivity (of_Z c * / of_nat len * (of_Z 100 * Q2Qc (1 # 100)))%Qc; [ring|].
  rewrite percent_cancels. ring.
Qed.

Lemma np_histogram_Ok col edges count :
  np_histogram col edges = Ok count <->
  any_decreasing edges = false /\
  exists xs, col = Num <$> xs /\
    count = map (fun i => Z.of_nat (bin_count edges xs i)) (seq 0 (length edges - 1)).
Proof.
  unfold np_histogram. destruct (any_decreasing edges) eqn:Hmono.
  - split; [done|]. by intros [? _].
  - split.
    + intros (xs & ->%to_numeric_Ok & [= <-])%obind_Ok.
      split; [done|]. exists xs. split; [done|]. by rewrite histogram_counts.
    + intros [_ (xs & -> & ->)]. rewrite (proj2 (to_numeric_Ok _ _) eq_refl). simpl.
      by rewrite histogram_counts.
Qed.

Lemma shares_of_counts edges xs len :
  map (fun c => (of_Z c / of_nat len)%Qc)
      (map (fun i => Z.of_nat (bin_count edges xs i)) (seq 0 (length edges - 1)))
  = shares edges xs len.
Proof. unfold shares. by rewrite map_map. Qed.

(** What a successful call of [create_dist] returns.  With edges passed
    in, the same array object comes back and the state is as before; with
    none, the array is a new object. *)
Lemma create_dist_Ok df x_var c x_bar p w tr xb w' :
  create_dist df x_var c x_bar p w = Ok ((tr, xb), w') ->
  exists d edges col count y,
    frames w !! df = Some d /\
    arrays w' !! xb = Some edges /\
    frames w' = frames w /\ draws w' = draws w /\
    (forall l, x_bar = Some l -> xb = l /\ w' = w) /\
    (x_bar = None -> (xb ∉ dom (arrays w)) /\ arrays w' = <[xb := edges]> (arrays w)) /\
    cols d !! x_var = Some col /\
    np_histogram col edges = Ok count /\
    y_bar_of count (nrows d) = Ok y /\
    tr = Bar edges y c (Q2Qc (3 # 10)) (Str ("Dist. " +:+ x_var)).
Proof.
  unfold create_dist. intros Hrun.
  apply bind_Ok in Hrun as (d & w1 & [Hd ->]%read_frame_Ok & Hrun).
  apply bind_Ok in Hrun as (l & w1 & Hxb & Hrun).
  apply bind_Ok in Hrun as (edges & w2 & [He ->]%read_array_Ok & Hrun).
  apply bind_Ok in Hrun as (count & w2 & [Hc ->]%lift_Ok & Hrun).
  apply bind_Ok in Hrun as (y & w2 & [Hy ->]%lift_Ok & Hrun).
  apply ret_Ok in Hrun as [[= -> ->] ->].
  apply obind_Ok in Hc as (col & Hcol & Hc).
  unfold getitem in Hcol. destruct (cols d !! x_var) as [col'|] eqn:Ecol; [|done].
  injection Hcol as ->.
  exists d, edges, col, count, y. split; [done|]. split; [done|].
  destruct x_bar as [l0|].
  - apply ret_Ok in Hxb as [-> ->].
    split; [done|]. split; [done|]. split; [by intros l' [= <-]|].
    split; [done|]. done.
  - apply bind_Ok in Hxb as (m & w2 & [_ ->]%lift_Ok & Hxb).
    apply bind_Ok in Hxb as (a & w2 & [_ ->]%lift_Ok & Hxb).
    unfold alloc_array in Hxb. injection Hxb as <- <-. simpl in *.
    rewrite lookup_insert_eq in He. injection He as ->.
    split; [done|]. split; [done|]. split; [done|].
    split; [|done]. intros _. split; [apply is_fresh|done].
Qed.

(** [create_dist] on given edges returns when the edges do not decrease,
    the column is numeric and the table is not empty. *)
Lemma create_dist_runs df x_var c l p w d edges xs :
  frames w !! df = Some d ->
  arrays w !! l = Some edges ->
  any_decreasing edges = false ->
  cols d !! x_var = Some (Num <$> xs) ->
  nrows d <> 0 ->
  create_dist df x_var c (Some l) p w
  = Ok ((Bar edges (shares edges xs (nrows d)) c (Q2Qc (3 # 10)) (Str ("Dist. " +:+ x_var)), l), w).
Proof.
  intros Hd He Hmono Hcol Hlen.
  unfold create_dist, bind, read_frame, read_array, lift, ret. rewrite Hd. simpl.
  rewrite He. unfold getitem. rewrite Hcol. simpl.
  rewrite (proj2 (np_histogram_Ok _ _ _) (conj Hmono (ex_intro _ xs (conj eq_refl eq_refl)))).
  rewrite y_bar_of_Ok by done. by rewrite shares_of_counts.
Qed.

(** ** create_cat_plots *)

Lemma find_color_state color_used w r w' :
  find_color color_used w = Ok (r, w') ->
  frames w' = frames w /\ arrays w' = arrays w /\ draws w' `suffix_of` draws w.
Proof.
  unfold find_color. intros Hrun.
  apply bind_Ok in Hrun as (t0 & w1 & Hd & Hrun).
  apply bind_Ok in Hrun as (t & w2 & Ht & Hrun).
  apply bind_Ok in Hrun as (c & w3 & [_ ->]%lift_Ok & Hrun).
  apply ret_Ok in Hrun as [_ ->].
  unfold randint in Hd. destruct (draws w) as [|d0 ds]; [done|].
  injection Hd as <- <-. simpl in Ht.
  apply obind_Ok in Ht as ([t' rest] & (_ & _ & Hsuf)%redraw_Ok & [= <- <-]).
  simpl. split; [done|]. split; [done|]. by apply suffix_cons_r.
Qed.

Lemma traces_for_impl (P Q : cell -> trace -> trace -> Prop) vs ts :
  (forall v s b, P v s b -> Q v s b) -> traces_for P vs ts -> traces_for Q vs ts.
Proof.
  intros HPQ. revert ts. induction vs as [|v vs IH]; intros [|s [|b ts]]; simpl; try done.
  intros [? ?]. split; auto.
Qed.

Lemma traces_for_length P vs ts : traces_for P vs ts -> length ts = 2 * length vs.
Proof.
  revert ts. induction vs as [|v vs IH]; intros [|s [|b ts]]; simpl; try done.
  intros [_ ->%IH]. lia.
Qed.

Lemma cat_plots_loop_Ok d cv xv tx ty edges vs acc used w traces used' w' :
  cat_plots_loop d cv xv tx ty edges vs acc used w = Ok ((traces, used'), w') ->
  exists new, traces = acc ++ new /\
              traces_for (overlay_pair d cv xv edges) vs new /\
              frames w' = frames w /\ arrays w' = arrays w.
Proof.
  revert acc used w. induction vs as [|v vs IH]; intros acc used w Hrun; simpl in Hrun.
  - apply ret_Ok in Hrun as [[= -> ->] ->]. exists []. by rewrite app_nil_r.
  - apply bind_Ok in Hrun as (sx & w1 & [_ ->]%lift_Ok & Hrun).
    apply bind_Ok in Hrun as (sy & w1 & [_ ->]%lift_Ok & Hrun).
    apply bind_Ok in Hrun as (count & w1 & [Hc ->]%lift_Ok & Hrun).
    apply bind_Ok in Hrun as (y & w1 & [Hy ->]%lift_Ok & Hrun).
    apply bind_Ok in Hrun as ([m used1] & w1 & (Hf & Ha & _)%find_color_state & Hrun).
    apply IH in Hrun as (new & -> & Hnew & Hf' & Ha').
    apply obind_Ok in Hc as (col & Hcol & Hc).
    apply obind_Ok in Hc as (xcol & Hxcol & Hc).
    unfold getitem in Hcol, Hxcol.
    destruct (cols d !! cv) as [col'|] eqn:Ecol; [injection Hcol as ->|done].
    destruct (cols d !! xv) as [xcol'|] eqn:Excol; [injection Hxcol as ->|done].
    eexists (_ :: _ :: new). split; [by rewrite <- app_assoc|].
    split; [|split; congruence].
    simpl. split; [|done]. by exists sx, sy, m, col, xcol, count, y.
Qed.

Lemma create_cat_plots_Ok df cv xv yv x_bar used w traces used' w' :
  create_cat_plots df cv xv yv x_bar used w = Ok ((traces, used'), w') ->
  exists d col edges,
    frames w !! df = Some d /\ cols d !! cv = Some col /\
    arrays w !! x_bar = Some edges /\
    traces_for (overlay_pair d cv xv edges) (unique col) traces /\
    frames w' = frames w /\ arrays w' = arrays w.
Proof.
  unfold create_cat_plots. intros Hrun.
  apply bind_Ok in Hrun as (d & w1 & [Hd ->]%read_frame_Ok & Hrun).
  apply bind_Ok in Hrun as (tx & w1 & [_ ->]%lift_Ok & Hrun).
  apply bind_Ok in Hrun as (ty & w1 & [_ ->]%lift_Ok & Hrun).
  apply bind_Ok in Hrun as (vs & w1 & [Hvs ->]%lift_Ok & Hrun).
  apply bind_Ok in Hrun as (edges & w1 & [He ->]%read_array_Ok & Hrun).
  apply cat_plots_loop_Ok in Hrun as (new & -> & Hnew & Hf & Ha).
  apply obind_Ok in Hvs as (col & Hcol & [= <-]).
  unfold getitem in Hcol. destruct (cols d !! cv) as [col'|] eqn:Ecol; [|done].
  injection Hcol as ->. by exists d, col, edges.
Qed.

(** [unique] keeps every value once, in the order of first appearance. *)
Lemma unique_from_spec seen l :
  NoDup (unique_from seen l) /\
  forall v, v ∈ unique_from seen l <-> (v ∈ l) /\ (v ∉ seen).
Proof.
  revert seen. induction l as [|x l IH]; intros seen; simpl.
  - split; [constructor|]. intros v. split; [by intros ?%elem_of_nil|].
    by intros [?%elem_of_nil _].
  - destruct (IH seen) as [Hnd Hin], (IH (x :: seen)) as [Hnd' Hin'].
    case_decide.
    + split; [done|]. intros v. rewrite Hin, elem_of_cons.
      split; [tauto|]. intros [[->|?] ?]; tauto.
    + split.
      * constructor; [|done]. rewrite Hin', elem_of_cons. tauto.
      * intros v. rewrite !elem_of_cons, Hin', elem_of_cons.
        destruct (decide (v = x)) as [->|]; tauto.
Qed.

Lemma unique_spec l : NoDup (unique l) /\ forall v, v ∈ unique l <-> v ∈ l.
Proof.
  destruct (unique_from_spec [] l) as [Hnd Hin]. split; [done|].
  intros v. unfold unique. rewrite Hin. split; [tauto|].
  intros ?. split; [done|]. apply not_elem_of_nil.
Qed.

(** C4.  On a dataframe that is not empty, the bar heights that
    [create_dist] returns are, interval by interval, the number of rows
    whose value falls in the interval divided by the number of rows of the
    dataframe; [create_dist] on given edges returns when the edges do not
    decrease and the column is numeric.  The bars of [create_cat_plots] for
    a value [v] count the rows on which the categorical column holds [v],
    and divide by the number of rows of the whole dataframe as well. *)
Theorem bar_heights_are_shares_of_all_rows df d w :
  frames w !! df = Some d -> nrows d <> 0 ->
  (forall x_var c x_bar p tr xb w',
     create_dist df x_var c x_bar p w = Ok ((tr, xb), w') ->
     exists edges xs,
       arrays w' !! xb = Some edges /\ cols d !! x_var = Some (Num <$> xs) /\
       tr = Bar edges (shares edges xs (nrows d)) c (Q2Qc (3 # 10))
                (Str ("Dist. " +:+ x_var)))
  /\ (forall x_var c l p edges xs,
        arrays w !! l = Some edges -> any_decreasing edges = false ->
        cols d !! x_var = Some (Num <$> xs) ->
        exists tr, create_dist df x_var c (Some l) p w = Ok ((tr, l), w))
  /\ (forall cv xv yv x_bar used traces used' w',
        create_cat_plots df cv xv yv x_bar used w = Ok ((traces, used'), w') ->
        exists edges col,
          arrays w !! x_bar = Some edges /\ cols d !! cv = Some col /\
          traces_for (fun v s b => exists xcol xs m,
                        cols d !! xv = Some xcol /\
                        rows_where col v xcol = Num <$> xs /\
                        b = Bar edges (shares edges xs (nrows d)) m (Q2Qc (3 # 10)) v)
                     (unique col) traces).
Proof.
  intros Hd Hlen. split; [|split].
  - intros x_var c x_bar p tr xb w' Hrun.
    apply create_dist_Ok in Hrun
      as (d' & edges & col & count & y & Hd' & He & _ & _ & _ & _ & Hcol & Hc & Hy & ->).
    rewrite Hd in Hd'. injection Hd' as <-.
    apply np_histogram_Ok in Hc as (_ & xs & -> & ->).
    rewrite y_bar_of_Ok, shares_of_counts in Hy by done. injection Hy as <-.
    by exists edges, xs.
  - intros x_var c l p edges xs He Hmono Hcol. eexists.
    by apply (create_dist_runs df x_var c l p w d edges xs).
  - intros cv xv yv x_bar used traces used' w' Hrun.
    apply create_cat_plots_Ok in Hrun as (d' & col & edges & Hd' & Hcol & He & Htr & _).
    rewrite Hd in Hd'. injection Hd' as <-.
    exists edges, col. split; [done|]. split; [done|].
    eapply traces_for_impl; [|exact Htr].
    intros v s b (sx & sy & m & col' & xcol & count & y & Hcol' & Hxcol & Hc & Hy & _ & ->).
    rewrite Hcol in Hcol'. injection Hcol' as <-.
    apply np_histogram_Ok in Hc as (_ & xs & Hxs & ->).
    rewrite y_bar_of_Ok, shares_of_counts in Hy by done. injection Hy as <-.
    by exists xcol, xs, m.
Qed.

Lemma bar_heights_are_shares_of_all_rows_witness :
  frames example_binned !! 0 = Some example_frame /\
  nrows example_frame <> 0 /\
  exists tr, create_dist 0 "x" (Marker (0, 0, 143, 0%Qc)%Z) (Some 0) (Q2Qc (1 # 10))
                         example_binned = Ok ((tr, 0), example_binned).
Proof.
  assert (Hd : frames example_binned !! 0 = Some example_frame) by reflexivity.
  assert (Hn : nrows example_frame <> 0) by discriminate.
  split; [exact Hd|]. split; [exact Hn|].
  apply (proj1 (proj2 (bar_heights_are_shares_of_all_rows 0 example_frame example_binned Hd Hn))
               "x" _ 0 _ (of_Z <$> [0; 100; 200]%Z) (of_Z <$> [5; 10; 50; 120]%Z));
    reflexivity.
Defined.

(** C5, amended.  For every distinct value of the categorical column, in
    the order of first appearance, the list that [create_cat_plots]
    returns holds two traces: a scatter trace and a bar trace, both named
    after the value.  The list holds nothing else; its length is twice the
    number of distinct values. *)
Theorem create_cat_plots_two_traces_per_value df cv xv yv x_bar used w traces used' w' :
  create_cat_plots df cv xv yv x_bar used w = Ok ((traces, used'), w') ->
  exists d col,
    frames w !! df = Some d /\ cols d !! cv = Some col /\
    NoDup (unique col) /\ (forall v, v ∈ unique col <-> v ∈ col) /\
    length traces = 2 * length (unique col) /\
    traces_for (fun v s b => is_scatter s = true /\ trace_name s = v /\
                             is_bar b = true /\ trace_name b = v)
               (unique col) traces.
Proof.
  intros (d & col & edges & Hd & Hcol & _ & Htr & _)%create_cat_plots_Ok.
  exists d, col. split; [done|]. split; [done|].
  destruct (unique_spec col) as [Hnd Hin]. split; [done|]. split; [done|].
  split; [by eapply traces_for_length|].
  eapply traces_for_impl; [|exact Htr].
  by intros v s b (sx & sy & m & ? & ? & ? & ? & _ & _ & _ & _ & -> & ->).
Qed.

Lemma create_cat_plots_two_traces_per_value_witness :
  exists traces used' w',
    create_cat_plots 0 "g" "x" "y" 0 [0]%Z example_categorised = Ok ((traces, used'), w') /\
    length traces = 2 * length (unique [Str "a"; Str "b"; Str "a"; Str "b"]).
Proof.
  assert (Hrun : exists traces used' w',
    create_cat_plots 0 "g" "x" "y" 0 [0]%Z example_categorised = Ok ((traces, used'), w'))
    by (vm_compute; eauto).
  destruct Hrun as (traces & used' & w' & Hrun). exists traces, used', w'.
  split; [exact Hrun|].
  destruct (create_cat_plots_two_traces_per_value _ _ _ _ _ _ _ _ _ _ Hrun)
    as (d & col & Hd & Hcol & _ & _ & Hlen & _).
  injection Hd as <-. injection Hcol as <-. exact Hlen.
Defined.

(** C5 as stated fails: with the two values [a] and [b] in the column the
    list holds four traces, two of them named [a]. *)
Lemma create_cat_plots_not_one_trace_per_value :
  exists traces used' w',
    create_cat_plots 0 "g" "x" "y" 0 [0]%Z example_categorised = Ok ((traces, used'), w') /\
    unique [Str "a"; Str "b"; Str "a"; Str "b"] = [Str "a"; Str "b"] /\
    length traces = 4 /\
    length (filter (fun t => trace_name t = Str "a") traces) = 2.
Proof.
  eexists _, _, _. split; [vm_compute; reflexivity|].
  split; [reflexivity|]. split; reflexivity.
Qed.

(** ** create_dist: the edges it builds *)

Ltac qc2q :=
  unfold Qcle, Qclt, Qcdiv, Qcminus, Qcinv, Qcopp, Qcplus, Qcmult,
         of_nat, of_Z, Qc_of_Z, Q2Qc in *;
  simpl this in *; rewrite ?Qred_correct in *.

Lemma arange_bounds (m p : Qc) (temp N : Z) :
  (0 < m)%Qc -> (0 < p)%Qc -> (p <= 1)%Qc ->
  temp = ceil (m / of_Z 100)%Qc ->
  N = ceil ((of_Z (temp * 100 + temp) - 0) / (p * of_Z temp))%Qc ->
  (1 <= temp)%Z /\ (1 <= N)%Z /\ (0 < p * of_Z temp)%Qc /\
  (m <= of_Z (N - 1) * (p * of_Z temp))%Qc /\
  (of_Z (N - 1) * (p * of_Z temp) < of_Z (temp * 100 + temp))%Qc /\
  (of_Z (temp * 100 + temp) <= of_Z N * (p * of_Z temp))%Qc.
Proof.
  intros Hm Hp Hp1 Htemp HN.
  pose proof (Qle_ceiling (this (m / of_Z 100)%Qc)) as Hc1.
  pose proof (Qle_ceiling (this ((of_Z (temp * 100 + temp) - 0) / (p * of_Z temp))%Qc)) as Hn1.
  pose proof (Qceiling_lt (this ((of_Z (temp * 100 + temp) - 0) / (p * of_Z temp))%Qc)) as Hn2.
  unfold ceil in *. rewrite <- Htemp in Hc1. rewrite <- HN in Hn1, Hn2. clear Htemp HN.
  unfold Z.sub in *. qc2q.
  rewrite !inject_Z_plus, !inject_Z_mult in *.
  change (inject_Z 100) with 100%Q in *. change (inject_Z (- (1))) with (-1)%Q in *.
  set (T := inject_Z temp) in *. set (Nq := inject_Z N) in *.
  assert (Hm100 : (m == (m * / 100) * 100)%Q) by field.
  set (X := (m * / 100)%Q) in *.
  assert (HT : (0 < T)%Q) by lra.
  assert (Hs : (0 < p * T)%Q) by nra.
  set (A := ((T * 100 + T + - 0) * / (p * T))%Q) in *.
  assert (HA : (A * (p * T) == T * 100 + T)%Q) by (unfold A; field; lra).
  assert (HpT : (p * T <= T)%Q) by nra.
  assert (HN1 : (T * 100 + T <= Nq * (p * T))%Q) by nra.
  assert (HN2 : ((Nq + -1) * (p * T) < T * 100 + T)%Q) by nra.
  split; [|split; [|split; [|split; [|split]]]].
  - subst T. change 0%Q with (inject_Z 0) in HT. rewrite <- Zlt_Qlt in HT. lia.
  - assert (HNq : (0 < Nq)%Q) by nra. subst Nq.
    change 0%Q with (inject_Z 0) in HNq. rewrite <- Zlt_Qlt in HNq. lia.
  - exact Hs.
  - nra.
  - exact HN2.
  - exact HN1.
Qed.

Lemma Qc_max_spec a b : (a <= Qc_max a b)%Qc /\ (b <= Qc_max a b)%Qc /\
                        (Qc_max a b = a \/ Qc_max a b = b).
Proof.
  unfold Qc_max. case_decide.
  - split; [done|]. split; [apply Qcle_refl|auto].
  - split; [apply Qcle_refl|]. split; [|auto].
    apply Qclt_le_weak. by apply Qcnot_le_lt.
Qed.

Lemma series_max_spec xs m :
  series_max xs = Ok m -> (m ∈ xs) /\ forall x, x ∈ xs -> (x <= m)%Qc.
Proof.
  destruct xs as [|x0 xs]; [done|]. simpl. intros [= <-].
  revert x0. induction xs as [|x xs IH]; intros x0; simpl.
  - split; [apply list_elem_of_here|]. intros x ->%list_elem_of_singleton. apply Qcle_refl.
  - destruct (IH (Qc_max x0 x)) as [Hin Hle].
    destruct (Qc_max_spec x0 x) as (Hx0 & Hx & Hcase). split.
    + apply elem_of_cons in Hin as [Hin|Hin].
      * rewrite Hin. destruct Hcase as [->| ->]; [apply list_elem_of_here|].
        apply list_elem_of_further, list_elem_of_here.
      * by do 2 apply list_elem_of_further.
    + intros y [->|[->|Hy]%elem_of_cons]%elem_of_cons.
      * eapply Qcle_trans; [exact Hx0|]. apply Hle, list_elem_of_here.
      * eapply Qcle_trans; [exact Hx|]. apply Hle, list_elem_of_here.
      * by apply Hle, list_elem_of_further.
Qed.

Lemma of_nat_S i : of_nat (S i) = (of_nat i + 1)%Qc.
Proof. unfold of_nat. by rewrite Nat2Z.inj_succ, <- Z.add_1_r, Z2Qc_inj_add, Z2Qc_inj_1. Qed.

Lemma of_nat_le i j : i <= j -> (of_nat i <= of_nat j)%Qc.
Proof. intros Hij. unfold of_nat. apply (proj1 (Z2Qc_inj_le _ _)). lia. Qed.

Section progression.
Variable step : Qc.
Hypothesis Hstep : (0 < step)%Qc.

Notation term := (term step).

Lemma term_mono i j : i <= j -> (term i <= term j)%Qc.
Proof.
  intros Hij. unfold term. apply Qcplus_le_mono_l.
  apply Qcmult_le_mono_pos_r; [done|]. by apply of_nat_le.
Qed.

Lemma term_nonneg i : (0 <= term i)%Qc.
Proof.
  replace 0%Qc with (term 0) at 1; [apply term_mono; lia|].
  unfold term, of_nat. change (Z.of_nat 0) with 0%Z. rewrite Z2Qc_inj_0. ring.
Qed.

Lemma term_step i : (term (S i) - term i = step)%Qc.
Proof. unfold term. rewrite of_nat_S. ring. Qed.

Lemma progression_not_decreasing k n :
  any_decreasing (map term (seq k n)) = false.
Proof.
  revert k. induction n as [|n IH]; intros k; [done|].
  destruct n as [|n]; [done|].
  specialize (IH (S k)). cbn [seq map] in *.
  change (any_decreasing (term k :: term (S k) :: map term (seq (S (S k)) n)))
    with (bool_decide (term (S k) < term k)%Qc
          || any_decreasing (term (S k) :: map term (seq (S (S k)) n))).
  rewrite IH, orb_false_r. apply bool_decide_eq_false.
  apply Qcle_not_lt, term_mono. lia.
Qed.
End progression.

(** A value between the first and the last edge falls in an interval. *)
Lemma covered_between lo rest l v :
  rest <> [] -> list.last (lo :: rest) = Some l ->
  (lo <= v)%Qc -> (v <= l)%Qc ->
  exists i, in_bin (lo :: rest) i v.
Proof.
  revert lo. induction rest as [|hi t IH]; intros lo Hne Hlast Hlo Hhi; [done|].
  destruct (decide (v < hi)%Qc) as [Hlt|Hge].
  - exists 0. apply in_bin_first. auto.
  - apply Qcnot_lt_le in Hge. destruct t as [|e t'].
    + simpl in Hlast. injection Hlast as <-.
      exists 0. apply in_bin_first. split; [done|]. right. split; [done|].
      by apply Qcle_antisym.
    + destruct (IH hi) as [i Hi]; [done|done|done|done|].
      exists (S i). by apply in_bin_shift.
Qed.

Lemma in_bin_interval edges i v : in_bin edges i v -> in_interval edges i v.
Proof.
  intros (lo & hi & Hlo & Hhi & Hle & Hcase). exists lo, hi.
  split; [done|]. split; [done|]. split; [done|].
  destruct Hcase as [?|[_ ->]]; [by apply Qclt_le_weak|apply Qcle_refl].
Qed.

Lemma series_max_is_max xs m :
  m ∈ xs -> (forall x, x ∈ xs -> (x <= m)%Qc) -> series_max xs = Ok m.
Proof.
  intros Hin Hub. destruct (series_max xs) as [m'| |] eqn:Hmax.
  - apply series_max_spec in Hmax as [Hin' Hub'].
    f_equal. apply Qcle_antisym; auto.
  - destruct xs; [by apply elem_of_nil in Hin|done].
  - destruct xs; [by apply elem_of_nil in Hin|done].
Qed.

(** [create_dist] without edges: the run, with the edges it builds. *)
Lemma create_dist_builds df x_var c p w d xs m :
  frames w !! df = Some d ->
  cols d !! x_var = Some (Num <$> xs) ->
  series_max xs = Ok m ->
  nrows d <> 0 ->
  (0 < m)%Qc -> (0 < p)%Qc -> (p <= 1)%Qc ->
  let temp := ceil (m / of_Z 100)%Qc in
  let step := (p * of_Z temp)%Qc in
  let n := Z.to_nat (ceil ((of_Z (temp * 100 + temp) - 0) / step)%Qc) in
  let edges := map (term step) (seq 0 n) in
  let l := fresh (dom (arrays w)) in
  create_dist df x_var c None p w
  = Ok ((Bar edges (shares edges xs (nrows d)) c (Q2Qc (3 # 10)) (Str ("Dist. " +:+ x_var)), l),
        {| frames := frames w; arrays := <[l := edges]> (arrays w); draws := draws w |}).
Proof.
  intros Hd Hcol Hmax Hlen Hm Hp Hp1 temp step n edges l.
  destruct (arange_bounds m p temp _ Hm Hp Hp1 eq_refl eq_refl) as (_ & _ & Hstep & _).
  fold step in Hstep.
  unfold create_dist, bind, read_frame, read_array, lift, ret, alloc_array.
  rewrite Hd. simpl. unfold getitem. rewrite Hcol. simpl.
  rewrite (proj2 (to_numeric_Ok _ _) eq_refl). simpl. rewrite Hmax. simpl.
  unfold np_arange. fold temp step. rewrite decide_False by (by apply Qclt_not_eq in Hstep).
  cbv beta iota zeta. cbn [arrays]. fold l. rewrite lookup_insert_eq.
  change (map _ (seq 0 (Z.to_nat _))) with edges.
  rewrite (proj2 (np_histogram_Ok (Num <$> xs) edges _)
             (conj (progression_not_decreasing step Hstep 0 n)
                   (ex_intro _ xs (conj eq_refl eq_refl)))).
  rewrite y_bar_of_Ok by done. by rewrite shares_of_counts.
Qed.

(** The progression starts at 0: no interval holds a negative value. *)
Lemma progression_no_negative step n v i :
  (0 < step)%Qc -> (v < 0)%Qc -> ~ in_interval (map (term step) (seq 0 n)) i v.
Proof.
  intros Hstep Hv (lo & hi & Hlo & _ & Hle & _).
  change (map (term step)) with (fmap (M:=list) (term step)) in Hlo.
  rewrite list_lookup_fmap in Hlo.
  destruct (seq 0 n !! i) as [j|]; [|done]. injection Hlo as <-.
  apply (Qclt_not_le _ _ Hv). eapply Qcle_trans; [|exact Hle].
  by apply term_nonneg.
Qed.



(** X2.  [create_dist] without edges needs a positive maximum.  On an empty
    column, or on a numeric column whose maximum is zero or negative, it
    raises for every [interval_perc] in (0, 1]: the maximum of an empty
    column is not a number, a maximum in (-100, 0] gives the step 0, and a
    maximum of -100 or less gives edges that decrease, which
    [np.histogram] refuses. *)
Theorem create_dist_needs_positive_maximum df x_var c p w d xs :
  frames w !! df = Some d ->
  cols d !! x_var = Some (Num <$> xs) ->
  (0 < p)%Qc -> (p <= 1)%Qc ->
  (forall m, m ∈ xs -> (forall x, x ∈ xs -> (x <= m)%Qc) -> (m <= 0)%Qc) ->
  exists e, create_dist df x_var c None p w = Raise e.
Proof.
  intros Hd Hcol Hp Hp1 Hneg.
  unfold create_dist, bind, read_frame, lift, ret, alloc_array, read_array.
  rewrite Hd. cbv beta iota. unfold getitem. rewrite Hcol. cbn [obind].
  rewrite (proj2 (to_numeric_Ok _ _) eq_refl). cbn [obind].
  destruct (series_max xs) as [m| |] eqn:Hmax; cbn [obind]; [|eauto|by destruct xs].
  apply series_max_spec in Hmax as [Hin Hub]. specialize (Hneg m Hin Hub).
  set (temp := ceil (m / of_Z 100)%Qc).
  assert (Htemp : (temp <= 0)%Z).
  { pose proof (Qceiling_lt (this (m / of_Z 100)%Qc)) as Hc.
    fold (ceil (m / of_Z 100)%Qc) in Hc. fold temp in Hc. clearbody temp.
    unfold Z.sub in Hc. qc2q. rewrite inject_Z_plus in Hc.
    change (inject_Z (- (1))) with (-1)%Q in Hc. change (inject_Z 100) with 100%Q in Hc.
    assert (Hm100 : (m == (m * / 100) * 100)%Q) by field.
    set (X := (m * / 100)%Q) in *.
    assert (Hlt : (inject_Z temp < inject_Z 1)%Q) by (change (inject_Z 1) with 1%Q; lra).
    rewrite <- Zlt_Qlt in Hlt. lia. }
  unfold np_arange. case_decide as Hstep; [eauto|]. cbv beta iota zeta.
  cbn [arrays]. rewrite lookup_insert_eq. cbn [obind].
  set (step := (p * of_Z temp)%Qc) in *.
  set (N := ceil ((of_Z (temp * 100 + temp) - 0) / step)%Qc).
  assert (Hneg_step : (step < 0)%Qc /\ (2 <= N)%Z).
  { pose proof (Qle_ceiling (this ((of_Z (temp * 100 + temp) - 0) / step)%Qc)) as Hn.
    fold (ceil ((of_Z (temp * 100 + temp) - 0) / step)%Qc) in Hn. fold N in Hn.
    assert (Ht0 : temp <> 0%Z).
    { intros Hz. apply Hstep. unfold step, of_Z. rewrite Hz, Z2Qc_inj_0. ring. }
    clearbody N. subst step. clear Hstep. clearbody temp. qc2q.
    rewrite inject_Z_plus, inject_Z_mult in Hn. change (inject_Z 100) with 100%Q in Hn.
    assert (HT : (inject_Z temp < inject_Z 0)%Q) by (rewrite <- Zlt_Qlt; lia).
    change (inject_Z 0) with 0%Q in HT. set (T := inject_Z temp) in *.
    assert (Hs : (p * T < 0)%Q) by nra.
    split; [exact Hs|].
    set (A := ((T * 100 + T + - 0) * / (p * T))%Q) in *.
    assert (HA : (A * (p * T) == T * 100 + T)%Q) by (unfold A; field; lra).
    assert (H101 : (101 <= A)%Q) by nra.
    assert (Hlt : (inject_Z 1 < inject_Z N)%Q) by (change (inject_Z 1) with 1%Q; lra).
    rewrite <- Zlt_Qlt in Hlt. lia. }
  destruct Hneg_step as [Hs HN].
  destruct (Z.to_nat N) as [|[|n]] eqn:Hn; [lia|lia|].
  cbn [seq map]. unfold np_histogram.
  replace (any_decreasing _) with true; [eauto|].
  symmetry. cbn [any_decreasing]. apply orb_true_iff. left.
  apply bool_decide_eq_true. unfold of_nat. change (Z.of_nat 0) with 0%Z.
  change (Z.of_nat 1) with 1%Z. rewrite Z2Qc_inj_0, Z2Qc_inj_1.
  clear -Hs. qc2q. lra.
Qed.

Lemma create_dist_needs_positive_maximum_witness :
  frames negative_world !! 0 = Some negative_frame /\
  cols negative_frame !! "x" = Some (Num <$> (of_Z <$> [-5; -3]%Z)) /\
  (0 < Q2Qc (1 # 10))%Qc /\ (Q2Qc (1 # 10) <= 1)%Qc /\
  exists e, create_dist 0 "x" (Marker (0, 0, 143, 0%Qc)%Z) None (Q2Qc (1 # 10))
                        negative_world = Raise e.
Proof.
  assert (Hd : frames negative_world !! 0 = Some negative_frame) by reflexivity.
  assert (Hcol : cols negative_frame !! "x" = Some (Num <$> (of_Z <$> [-5; -3]%Z)))
    by reflexivity.
  assert (Hp : (0 < Q2Qc (1 # 10))%Qc) by reflexivity.
  assert (Hp1 : (Q2Qc (1 # 10) <= 1)%Qc) by discriminate.
  split; [exact Hd|]. split; [exact Hcol|]. split; [exact Hp|]. split; [exact Hp1|].
  apply (create_dist_needs_positive_maximum 0 "x" _ _ negative_world negative_frame
           (of_Z <$> [-5; -3]%Z) Hd Hcol Hp Hp1).
  intros m (z & -> & Hz)%list_elem_of_fmap _.
  repeat (apply elem_of_cons in Hz as [->|Hz]; [discriminate|]).
  by apply elem_of_nil in Hz.
Defined.

(** ** create_dist: what it leaves alone *)

Lemma y_bar_of_length count len y : y_bar_of count len = Ok y -> length y = length count.
Proof.
  unfold y_bar_of. case_decide; [done|]. intros [= <-]. by rewrite length_map.
Qed.

(** X3.  A successful call of [create_dist] changes no dataframe, no
    existing array and no draw.  With edges passed in it returns that same
    array object and the state is untouched; without, the array it returns
    is a new object.  The trace is a bar trace over the edges, in the
    colour passed in, named [Dist. x_var], with one height per interval. *)
Theorem create_dist_leaves_state df x_var c x_bar p w tr xb w' :
  create_dist df x_var c x_bar p w = Ok ((tr, xb), w') ->
  frames w' = frames w /\ draws w' = draws w /\
  (forall l, l ∈ dom (arrays w) -> arrays w' !! l = arrays w !! l) /\
  match x_bar with
  | Some l => xb = l /\ w' = w
  | None => xb ∉ dom (arrays w)
  end /\
  exists edges y,
    arrays w' !! xb = Some edges /\
    tr = Bar edges y c (Q2Qc (3 # 10)) (Str ("Dist. " +:+ x_var)) /\
    length y = length edges - 1.
Proof.
  intros (d & edges & col & count & y & Hd & He & Hf & Hdr & Hsome & Hnone
          & Hcol & Hc & Hy & ->)%create_dist_Ok.
  split; [done|]. split; [done|]. split; [|split].
  - intros l Hl. destruct x_bar as [l0|].
    + by destruct (Hsome l0 eq_refl) as [_ ->].
    + destruct (Hnone eq_refl) as [Hfresh ->].
      rewrite lookup_insert_ne; [done|]. by intros ->.
  - destruct x_bar as [l0|]; [by apply Hsome|by apply Hnone].
  - exists edges, y. split; [done|]. split; [done|].
    apply y_bar_of_length in Hy as ->.
    apply np_histogram_Ok in Hc as (_ & xs & _ & ->).
    by rewrite length_map, length_seq.
Qed.

Lemma create_dist_leaves_state_witness :
  exists tr w',
    create_dist 0 "x" (Marker (0, 0, 143, 0%Qc)%Z) (Some 0) (Q2Qc (1 # 10)) example_binned
    = Ok ((tr, 0), w') /\ w' = example_binned.
Proof.
  assert (Hrun : exists tr w',
    create_dist 0 "x" (Marker (0, 0, 143, 0%Qc)%Z) (Some 0) (Q2Qc (1 # 10)) example_binned
    = Ok ((tr, 0), w')) by (vm_compute; eauto).
  destruct Hrun as (tr & w' & Hrun). exists tr, w'. split; [exact Hrun|].
  destruct (create_dist_leaves_state _ _ _ _ _ _ _ _ _ Hrun) as (_ & _ & _ & [_ Hw] & _).
  exact Hw.
Defined.

(** ** cat_clients: errors and categories *)

Lemma to_numeric_Str col s : Str s ∈ col -> to_numeric col = Raise TypeError.
Proof.
  unfold to_numeric. induction col as [|c col IH]; [by intros ?%elem_of_nil|].
  intros [<-|Hin]%elem_of_cons; simpl; [done|].
  destruct c as [q|s']; [|done]. simpl. by rewrite IH.
Qed.

Lemma fmap_Num_inj (a b : list Qc) : Num <$> a = Num <$> b -> a = b.
Proof.
  revert b. induction a as [|x a IH]; intros [|y b]; try done.
  intros [= -> ->%IH]. done.
Qed.

(** What a successful call of [cat_clients] needed and wrote. *)
Lemma cat_clients_Ok_column df x_var x_bar w r w' :
  cat_clients df x_var x_bar w = Ok (r, w') ->
  exists d edges xs,
    frames w !! df = Some d /\ arrays w !! x_bar = Some edges /\
    2 <= length edges /\ cols d !! x_var = Some (Num <$> xs) /\
    length xs = nrows d /\ r = df /\
    w' = {| frames := <[df := {| nrows := nrows d;
                                 cols := <["cat" := map (fun v => Num (of_Z (cat_of edges v))) xs]>
                                           (cols d) |}]> (frames w);
            arrays := arrays w; draws := draws w |}.
Proof.
  unfold cat_clients. intros Hrun.
  apply bind_Ok in Hrun as (d & w1 & [Hd ->]%read_frame_Ok & Hrun).
  apply bind_Ok in Hrun as (edges & w1 & [He ->]%read_array_Ok & Hrun).
  apply bind_Ok in Hrun as (crit & w1 & [Hc ->]%lift_Ok & Hrun).
  apply bind_Ok in Hrun as (sel & w1 & [Hs ->]%lift_Ok & Hrun).
  apply bind_Ok in Hrun as (d' & w1 & [[Hlen ->]%setitem_Ok ->]%lift_Ok & Hrun).
  apply bind_Ok in Hrun as ([] & w1 & Hw & Hrun).
  apply ret_Ok in Hrun as [-> ->]. injection Hw as <-.
  assert (Hedges : 2 <= length edges).
  { destruct (decide (2 <= length edges)) as [|Hsmall]; [done|]. exfalso.
    replace (length edges - 1) with 0 in Hc, Hs by lia.
    simpl in Hc. injection Hc as <-. discriminate. }
  assert (Hcol : exists xs, cols d !! x_var = Some (Num <$> xs)).
  { destruct (length edges - 1) as [|m] eqn:Hm; [lia|].
    cbn [seq criteria_loop] in Hc.
    apply obind_Ok in Hc as (s & Hs' & Hc).
    apply obind_Ok in Hc as (lo & _ & Hc).
    apply obind_Ok in Hc as (hi & _ & Hc).
    apply obind_Ok in Hc as (xs & ->%to_numeric_Ok & _).
    unfold getitem in Hs'. destruct (cols d !! x_var) as [col|]; [|done].
    injection Hs' as ->. by exists xs. }
  destruct Hcol as [xs Hcol].
  rewrite (criteria_loop_Ok d x_var edges xs Hcol) in Hc by lia. injection Hc as <-.
  rewrite (np_select_cat edges xs Hedges) in Hs. injection Hs as <-.
  rewrite !length_map in Hlen. rewrite map_map.
  by exists d, edges, xs.
Qed.

(** X4.  [cat_clients] raises instead of writing a column: [ValueError]
    when the array holds fewer than two edges, so that there is no
    interval ([np.select] refuses an empty list of conditions); with two
    edges or more, [KeyError] when the dataframe has no column [x_var] and
    [TypeError] when that column holds a string. *)
Theorem cat_clients_raises df x_var x_bar w d edges :
  frames w !! df = Some d ->
  arrays w !! x_bar = Some edges ->
  (length edges < 2 -> cat_clients df x_var x_bar w = Raise ValueError) /\
  (2 <= length edges -> cols d !! x_var = None ->
   cat_clients df x_var x_bar w = Raise (KeyError x_var)) /\
  (2 <= length edges -> forall col s, cols d !! x_var = Some col -> Str s ∈ col ->
   cat_clients df x_var x_bar w = Raise TypeError).
Proof.
  intros Hd He.
  unfold cat_clients, bind, read_frame, read_array, lift. rewrite Hd, He.
  split; [|split].
  - intros Hlen. by replace (length edges - 1) with 0 by lia.
  - intros Hlen Hnone. destruct (length edges - 1) as [|m] eqn:Hm; [lia|].
    cbn [seq criteria_loop]. unfold getitem. by rewrite Hnone.
  - intros Hlen col s Hcol Hs. destruct (length edges - 1) as [|m] eqn:Hm; [lia|].
    cbn [seq criteria_loop]. unfold getitem, getidx. rewrite Hcol. cbn [obind].
    destruct (lookup_lt_is_Some_2 edges 0) as [lo ->]; [lia|].
    destruct (lookup_lt_is_Some_2 edges (0 + 1)) as [hi ->]; [simpl; lia|].
    cbn [obind]. by rewrite (to_numeric_Str col s Hs).
Qed.

Lemma cat_clients_raises_witness :
  frames world_with_cat !! 0 = Some frame_with_cat /\
  arrays world_with_cat !! 0 = Some (of_Z <$> [0; 20]%Z) /\
  cat_clients 0 "z" 0 world_with_cat = Raise (KeyError "z").
Proof.
  assert (Hd : frames world_with_cat !! 0 = Some frame_with_cat) by reflexivity.
  assert (He : arrays world_with_cat !! 0 = Some (of_Z <$> [0; 20]%Z)) by reflexivity.
  split; [exact Hd|]. split; [exact He|].
  apply (proj1 (proj2 (cat_clients_raises 0 "z" 0 world_with_cat frame_with_cat _ Hd He))).
  - simpl. lia.
  - reflexivity.
Defined.

Lemma in_interval_shift lo rest i v :
  in_interval (lo :: rest) (S i) v <-> in_interval rest i v.
Proof. reflexivity. Qed.

Lemma in_interval_first lo hi t v :
  in_interval (lo :: hi :: t) 0 v <-> (lo <= v)%Qc /\ (v <= hi)%Qc.
Proof.
  unfold in_interval. simpl. split.
  - by intros (lo' & hi' & [= <-] & [= <-] & ? & ?).
  - intros [? ?]. by exists lo, hi.
Qed.

(** The category is the index of the first interval, edges included, that
    holds the value; it is 0 when no interval does. *)
Lemma cat_from_spec k edges v :
  (exists i, cat_from k edges v = (k + Z.of_nat i)%Z /\ i + 2 <= length edges /\
             in_interval edges i v /\ forall i', i' < i -> ~ in_interval edges i' v)
  \/ (cat_from k edges v = 0%Z /\ forall i, ~ in_interval edges i v).
Proof.
  revert k. induction edges as [|lo rest IH]; intros k.
  { right. split; [done|]. by intros i (? & ? & ? & _). }
  destruct rest as [|hi t].
  { right. split; [done|]. intros i (? & ? & _ & Hhi & _). by destruct i. }
  rewrite cat_from_step. case_decide as Hin.
  - left. exists 0. split; [lia|]. split; [simpl; lia|].
    split; [by apply in_interval_first|]. intros i' Hi'. lia.
  - destruct (IH (k + 1)%Z) as [(i & Hc & Hlen & Hi & Hfirst)|[Hc Hnone]].
    + left. exists (S i). split; [lia|]. split; [simpl in *; lia|].
      split; [by apply in_interval_shift|].
      intros [|i'] Hi'; [by rewrite in_interval_first|].
      rewrite in_interval_shift. apply Hfirst. lia.
    + right. split; [done|].
      intros [|i]; [by rewrite in_interval_first|]. rewrite in_interval_shift. apply Hnone.
Qed.





(** ** create_dist: the bars add up *)

Lemma np_diff_sum x c l :
  list.last (x :: c) = Some l ->
  foldr Z.add 0%Z (np_diff (x :: c)) = (l - x)%Z.
Proof.
  revert x. induction c as [|y c IH]; intros x Hlast.
  - simpl in *. injection Hlast as <-. lia.
  - change (np_diff (x :: y :: c)) with ((y - x)%Z :: np_diff (y :: c)).
    cbn [foldr]. rewrite IH; [lia|]. exact Hlast.
Qed.

Lemma search_sorted_inclusive_ends xs lo rest hi :
  rest <> [] -> list.last (lo :: rest) = Some hi ->
  exists c, search_sorted_inclusive xs (lo :: rest) = searchsorted_left xs lo :: c /\
            list.last (searchsorted_left xs lo :: c) = Some (searchsorted_right xs hi).
Proof.
  revert lo. induction rest as [|e t IH]; intros lo Hne Hlast; [done|].
  destruct t as [|e' t'].
  - simpl in Hlast. injection Hlast as <-. by eexists.
  - destruct (IH e) as (c & Hc & Hl); [done|exact Hlast|].
    exists (searchsorted_left xs e :: c). split.
    + change (search_sorted_inclusive xs (lo :: e :: e' :: t'))
        with (searchsorted_left xs lo :: search_sorted_inclusive xs (e :: e' :: t')).
      by rewrite Hc.
    + exact Hl.
Qed.

(** The counts of all intervals together: the values between the first and
    the last edge. *)
Lemma bin_counts_total xs lo rest hi :
  any_decreasing (lo :: rest) = false ->
  rest <> [] -> list.last (lo :: rest) = Some hi ->
  foldr Nat.add 0 (map (bin_count (lo :: rest) xs) (seq 0 (length (lo :: rest) - 1)))
  = length (filter (fun v => (lo <= v)%Qc /\ (v <= hi)%Qc) xs).
Proof.
  intros Hmono Hne Hlast.
  pose proof (histogram_counts xs (lo :: rest) Hmono) as Hc.
  destruct (search_sorted_inclusive_ends xs lo rest hi Hne Hlast) as (c & Hs & Hl).
  rewrite Hs in Hc.
  pose proof (np_diff_sum _ _ _ Hl) as Hsum. rewrite Hc in Hsum.
  assert (Hhi : (lo <= hi)%Qc).
  { rewrite last_lookup in Hlast. by eapply monotone_head. }
  rewrite count_upto_split in Hsum by done.
  apply Nat2Z.inj. rewrite <- Hsum. clear.
  induction (seq 0 (length (lo :: rest) - 1)) as [|i l IH]; [done|].
  cbn [map foldr]. rewrite Nat2Z.inj_add, IH. reflexivity.
Qed.

Lemma bin_counts_bounded xs edges :
  any_decreasing edges = false ->
  foldr Nat.add 0 (map (bin_count edges xs) (seq 0 (length edges - 1))) <= length xs.
Proof.
  intros Hmono. destruct edges as [|lo rest]; [simpl; lia|].
  destruct rest as [|e t]; [simpl; lia|].
  destruct (list.last (lo :: e :: t)) as [hi|] eqn:Hlast.
  - rewrite (bin_counts_total xs lo (e :: t) hi Hmono) by done. apply length_filter.
  - by apply last_None in Hlast.
Qed.

Lemma shares_sum edges xs len :
  Qc_sum (shares edges xs len)
  = (of_nat (foldr Nat.add 0%nat (map (bin_count edges xs) (seq 0 (length edges - 1)%nat)))
     / of_nat len)%Qc.
Proof.
  unfold shares, Qc_sum. induction (seq 0 (length edges - 1)) as [|i l IH].
  - simpl. unfold of_nat. change (Z.of_nat 0) with 0%Z. rewrite Z2Qc_inj_0.
    unfold Qcdiv. ring.
  - cbn [map foldr]. rewrite IH. unfold of_nat.
    rewrite Nat2Z.inj_add, Z2Qc_inj_add. unfold Qcdiv. ring.
Qed.

Lemma share_bounds a n :
  a <= n -> n <> 0 -> (0 <= of_nat a / of_nat n)%Qc /\ (of_nat a / of_nat n <= 1)%Qc.
Proof.
  intros Han Hn.
  assert (Ha : (inject_Z 0 <= inject_Z (Z.of_nat a))%Q) by (rewrite <- Zle_Qle; lia).
  assert (Hle : (inject_Z (Z.of_nat a) <= inject_Z (Z.of_nat n))%Q) by (rewrite <- Zle_Qle; lia).
  assert (Hpos : (inject_Z 0 < inject_Z (Z.of_nat n))%Q) by (rewrite <- Zlt_Qlt; lia).
  change (inject_Z 0) with 0%Q in *.
  split; qc2q.
  - set (A := inject_Z (Z.of_nat a)) in *. set (B := inject_Z (Z.of_nat n)) in *.
    assert (HB : (B * / B == 1)%Q) by (field; lra).
    assert (0 < / B)%Q by (apply Qinv_lt_0_compat; lra). nra.
  - change (Qred 1) with 1%Q.
    set (A := inject_Z (Z.of_nat a)) in *. set (B := inject_Z (Z.of_nat n)) in *.
    assert (HB : (B * / B == 1)%Q) by (field; lra).
    assert (0 < / B)%Q by (apply Qinv_lt_0_compat; lra). nra.
Qed.



(** ** Group keys are totally ordered *)

Lemma string_leb_trans s t u :
  String.leb s t = true -> String.leb t u = true -> String.leb s u = true.
Proof.
  unfold String.leb. intros Hst Htu.
  destruct (String.compare s t) eqn:Est; [|clear Hst|done].
  - apply String.compare_eq_iff in Est as ->. exact Htu.
  - destruct (String.compare t u) eqn:Etu; [|clear Htu|done].
    + apply String.compare_eq_iff in Etu as <-. by rewrite Est.
    + apply String_as_OT.cmp_lt in Est, Etu.
      pose proof (String_as_OT.lt_trans _ _ _ Est Etu) as Hsu.
      apply String_as_OT.cmp_lt in Hsu. unfold String_as_OT.cmp in Hsu. by rewrite Hsu.
Qed.

#[global] Instance cell_le_trans : Transitive cell_le.
Proof.
  intros [x|s] [y|t] [z|u]; simpl; try done.
  - apply Qcle_trans.
  - apply string_leb_trans.
Qed.

#[global] Instance cell_le_total : Total cell_le.
Proof.
  intros [x|s] [y|t]; simpl; auto.
  - destruct (Qc_le_total x y); auto.
  - apply String.leb_total.
Qed.

#[global] Instance cell_le_antisym : AntiSymm eq cell_le.
Proof.
  intros [x|s] [y|t]; simpl; try done.
  - intros. f_equal. by apply Qcle_antisym.
  - intros. f_equal. by apply String.leb_antisym.
Qed.

(** ** Tables of groups *)

Lemma Qc_sum_app l k : Qc_sum (l ++ k) = (Qc_sum l + Qc_sum k)%Qc.
Proof.
  unfold Qc_sum. induction l as [|x l IH]; simpl; [ring|]. rewrite IH. ring.
Qed.

Lemma Qc_sum_perm l k : l ≡ₚ k -> Qc_sum l = Qc_sum k.
Proof.
  unfold Qc_sum. induction 1 as [|x l k _ IH|x y l|l k m _ IH1 _ IH2]; simpl.
  - done.
  - by rewrite IH.
  - ring.
  - by rewrite IH1.
Qed.

Section groups.
Context {K : Type} `{EqDecision K}.
Implicit Types (k : K) (acc : list (K * (Qc * nat))) (rows : list (K * Qc)).
Implicit Types (keys : list K) (vals : list Qc).

Lemma assoc_group_add k' k v acc :
  assoc k' (group_add k v acc)
  = if decide (k' = k) then Some (enter (assoc k acc) v) else assoc k' acc.
Proof.
  induction acc as [|[k0 [s n]] r IH]; simpl.
  - by destruct (decide (k' = k)).
  - destruct (decide (k = k0)) as [->|Hne]; simpl.
    + by destruct (decide (k' = k0)).
    + rewrite IH. destruct (decide (k' = k0)) as [->|]; [|done].
      by rewrite decide_False by done.
Qed.

Lemma keys_group_add k v acc :
  (group_add k v acc).*1 = if decide (k ∈ acc.*1) then acc.*1 else acc.*1 ++ [k].
Proof.
  induction acc as [|[k0 e0] r IH]; [done|].
  cbn [group_add fst snd]. rewrite (fmap_cons fst (k0, e0) r). cbn [fst].
  destruct (decide (k = k0)) as [->|Hne].
  - rewrite fmap_cons. cbn [fst]. rewrite decide_True; [done|apply list_elem_of_here].
  - rewrite fmap_cons, IH. cbn [fst]. destruct (decide (k ∈ r.*1)) as [Hin|Hout].
    + rewrite decide_True; [done|]. by apply list_elem_of_further.
    + rewrite decide_False; [done|]. by intros [?|?]%elem_of_cons.
Qed.

Lemma NoDup_group_add k v acc : NoDup acc.*1 -> NoDup (group_add k v acc).*1.
Proof.
  intros Hnd. rewrite keys_group_add. case_decide; [done|].
  apply NoDup_app. split; [done|]. split; [|apply NoDup_singleton].
  intros x Hx ->%list_elem_of_singleton. done.
Qed.

Lemma assoc_elem_of k (e : Qc * nat) acc :
  NoDup acc.*1 -> (k, e) ∈ acc <-> assoc k acc = Some e.
Proof.
  induction acc as [|[k0 e0] r IH]; simpl.
  - intros _. split; [by intros ?%elem_of_nil|done].
  - intros [Hk0 Hnd]%NoDup_cons. rewrite elem_of_cons.
    destruct (decide (k = k0)) as [->|Hne].
    + split.
      * intros [[= ->]|Hin]; [done|]. destruct Hk0.
        apply list_elem_of_fmap. by exists (k0, e).
      * intros [= ->]. by left.
    + rewrite <- IH by done. split; [|by right].
      intros [[= -> ->]|Hin]; done.
Qed.

Lemma assoc_None k (acc : list (K * (Qc * nat))) : assoc k acc = None <-> k ∉ acc.*1.
Proof.
  induction acc as [|[k0 e0] r IH]; simpl.
  - split; [intros _; apply not_elem_of_nil|done].
  - rewrite not_elem_of_cons. destruct (decide (k = k0)) as [->|Hne].
    + split; [done|]. by intros [? _].
    + rewrite IH. tauto.
Qed.

Lemma rows_of_cons k k0 v rows :
  rows_of k ((k0, v) :: rows) = if decide (k0 = k) then v :: rows_of k rows else rows_of k rows.
Proof.
  unfold rows_of. rewrite filter_cons. simpl. by destruct (decide (k0 = k)).
Qed.

Lemma foldl_enter (s : Qc) (n : nat) l :
  foldl (fun o v => Some (enter o v)) (Some (s, n)) l
  = Some ((s + Qc_sum l)%Qc, n + length l).
Proof.
  revert s n. induction l as [|v l IH]; intros s n; simpl.
  - f_equal. f_equal; [unfold Qc_sum; simpl; ring|lia].
  - rewrite IH. f_equal. f_equal; [unfold Qc_sum; simpl; ring|lia].
Qed.

(** After all rows have entered, the entry of a key holds the sum and the
    number of the rows with that key. *)
Lemma assoc_group_rows k acc rows :
  assoc k (foldl (fun acc kv => group_add kv.1 kv.2 acc) acc rows)
  = foldl (fun o v => Some (enter o v)) (assoc k acc) (rows_of k rows).
Proof.
  revert acc. induction rows as [|[k0 v0] rows IH]; intros acc; [done|].
  cbn [foldl]. rewrite IH, rows_of_cons, assoc_group_add. simpl.
  destruct (decide (k = k0)) as [->|Hne].
  - by rewrite decide_True.
  - by rewrite decide_False by done.
Qed.

Lemma NoDup_group_rows acc rows :
  NoDup acc.*1 -> NoDup (foldl (fun acc kv => group_add kv.1 kv.2 acc) acc rows).*1.
Proof.
  revert acc. induction rows as [|[k0 v0] rows IH]; intros acc Hnd; [done|].
  cbn [foldl]. by apply IH, NoDup_group_add.
Qed.

Lemma assoc_group_sums k keys vals :
  assoc k (group_sums keys vals)
  = match rows_of k (zip keys vals) with
    | [] => None
    | l => Some (Qc_sum l, length l)
    end.
Proof.
  unfold group_sums. rewrite assoc_group_rows. simpl.
  destruct (rows_of k (zip keys vals)) as [|v l]; [done|].
  cbn [foldl enter]. by rewrite foldl_enter.
Qed.

Lemma NoDup_group_sums keys vals : NoDup (group_sums keys vals).*1.
Proof. apply NoDup_group_rows. constructor. Qed.

Lemma rows_of_nil_iff k keys vals :
  length keys = length vals -> rows_of k (zip keys vals) = [] <-> k ∉ keys.
Proof.
  revert vals. induction keys as [|k0 keys IH]; intros [|v vals] Hlen; try done.
  - split; [intros _; apply not_elem_of_nil|done].
  - simpl. rewrite rows_of_cons, not_elem_of_cons.
    destruct (decide (k0 = k)) as [->|Hne].
    + split; [done|]. by intros [? _].
    + rewrite IH by (simpl in Hlen; lia). split; [by split|by intros [_ ?]].
Qed.

Lemma rows_of_perm k rows rows' : rows ≡ₚ rows' -> rows_of k rows ≡ₚ rows_of k rows'.
Proof. intros Hp. unfold rows_of. by rewrite Hp. Qed.

Section sorted.
Variable key_le : relation K.
Context `{!RelDecision key_le} `{!Transitive key_le} `{!Total key_le}
        `{!AntiSymm eq key_le}.

#[local] Existing Instance entry_le_dec.

#[local] Instance entry_le_trans : Transitive (entry_le key_le).
Proof. intros a b c. unfold entry_le. apply transitivity. Qed.

#[local] Instance entry_le_total : Total (entry_le key_le).
Proof. intros a b. unfold entry_le. apply total. apply _. Qed.

(** The series of means: an entry for a key is the mean of the rows with
    that key; an entry exists for the keys that occur. *)
Lemma group_means_elem_of keys vals k m :
  length keys = length vals ->
  (k, m) ∈ group_means key_le keys vals
  <-> (k ∈ keys) /\ m = mean (rows_of k (zip keys vals)).
Proof.
  intros Hlen. unfold group_means.
  change (map ?f ?l) with (f <$> l). rewrite list_elem_of_fmap.
  pose proof (NoDup_group_sums keys vals) as Hnd.
  split.
  - intros ([k' [s n]] & [= -> ->] & Hin). simpl.
    rewrite merge_sort_Permutation in Hin.
    apply assoc_elem_of in Hin; [|done]. rewrite assoc_group_sums in Hin.
    destruct (rows_of k' (zip keys vals)) as [|v l] eqn:Hrows; [done|].
    injection Hin as <- <-. split; [|done].
    destruct (decide (k' ∈ keys)) as [|Hout]; [done|].
    apply (rows_of_nil_iff k' keys vals Hlen) in Hout. by rewrite Hout in Hrows.
  - intros [Hk ->].
    exists (k, (Qc_sum (rows_of k (zip keys vals)), length (rows_of k (zip keys vals)))).
    split; [done|]. rewrite merge_sort_Permutation.
    apply assoc_elem_of; [done|]. rewrite assoc_group_sums.
    destruct (rows_of k (zip keys vals)) as [|v l] eqn:Hrows; [|done].
    by apply (rows_of_nil_iff k keys vals Hlen) in Hrows.
Qed.

Lemma group_means_keys keys vals :
  Sorted key_le (group_means key_le keys vals).*1 /\
  NoDup (group_means key_le keys vals).*1.
Proof.
  unfold group_means. change (map ?f ?l) with (f <$> l).
  rewrite <- list_fmap_compose.
  change ((fst ∘ _) <$> ?l) with (fst <$> l).
  split.
  - pose proof (Sorted_merge_sort (entry_le key_le) (group_sums keys vals)) as Hs.
    induction Hs as [|e l Hl IH Hhd]; [constructor|].
    rewrite fmap_cons. constructor; [done|].
    destruct Hhd as [|e' l' Hee']; constructor. exact Hee'.
  - rewrite merge_sort_Permutation. apply NoDup_group_sums.
Qed.

(** The series depends on the rows, not on their order. *)
Lemma group_means_perm keys vals keys' vals' :
  zip keys vals ≡ₚ zip keys' vals' ->
  group_means key_le keys vals = group_means key_le keys' vals'.
Proof.
  intros Hp. unfold group_means. f_equal.
  pose proof (NoDup_group_sums keys vals) as Hnd.
  pose proof (NoDup_group_sums keys' vals') as Hnd'.
  assert (Hassoc : forall k, assoc k (group_sums keys vals) = assoc k (group_sums keys' vals')).
  { intros k. rewrite !assoc_group_sums.
    pose proof (rows_of_perm k _ _ Hp) as Hr.
    destruct (rows_of k (zip keys vals)) as [|v l] eqn:E1,
             (rows_of k (zip keys' vals')) as [|v' l'] eqn:E2.
    - done.
    - by apply Permutation_nil_l in Hr.
    - by apply Permutation_nil_r in Hr.
    - cbv zeta. by rewrite (Qc_sum_perm _ _ Hr), (Permutation_length Hr). }
  assert (Hperm : group_sums keys vals ≡ₚ group_sums keys' vals').
  { apply NoDup_Permutation; [by eapply NoDup_fmap_1|by eapply NoDup_fmap_1|].
    intros [k e]. rewrite !assoc_elem_of by done. by rewrite Hassoc. }
  apply (Sorted_unique_strong (entry_le key_le)).
  - intros [k1 e1] [k2 e2] H1 H2 Hle Hge. unfold entry_le in *. simpl in *.
    assert (k1 = k2) as -> by by apply (anti_symm key_le).
    rewrite merge_sort_Permutation in H1, H2.
    apply assoc_elem_of in H1, H2; try done. rewrite Hassoc in H1. congruence.
  - apply Sorted_merge_sort. apply _.
  - apply Sorted_merge_sort. apply _.
  - by rewrite !merge_sort_Permutation.
Qed.
End sorted.
End groups.

(** ** sort_values *)

Lemma take_rows_fmap {A B} (f : A -> B) order (col : list A) :
  take_rows order (f <$> col) = f <$> take_rows order col.
Proof.
  unfold take_rows. rewrite list_fmap_omap.
  induction order as [|i order IH]; [done|].
  cbn [omap list_omap]. rewrite list_lookup_fmap.
  destruct (col !! i); simpl; by rewrite IH.
Qed.

Lemma take_rows_seq {A} (col : list A) : take_rows (seq 0 (length col)) col = col.
Proof.
  unfold take_rows.
  assert (Hgen : forall pre, omap (fun i => (pre ++ col) !! i) (seq (length pre) (length col)) = col).
  { induction col as [|x col IH]; intros pre; [done|].
    cbn [length seq omap list_omap].
    rewrite lookup_app_r, Nat.sub_diag by lia. simpl. f_equal.
    specialize (IH (pre ++ [x])). rewrite length_app, <- app_assoc in IH. simpl in IH.
    by rewrite Nat.add_1_r in IH. }
  exact (Hgen []).
Qed.

Lemma take_rows_zip {A B} order (a : list A) (b : list B) :
  length a = length b ->
  zip (take_rows order a) (take_rows order b) = take_rows order (zip a b).
Proof.
  intros Hlen. unfold take_rows. induction order as [|i order IH]; [done|].
  cbn [omap list_omap].
  destruct (a !! i) as [x|] eqn:Ha, (b !! i) as [y|] eqn:Hb.
  - rewrite (proj2 (lookup_zip_Some a b i x y) (conj Ha Hb)). simpl. by rewrite IH.
  - apply lookup_lt_Some in Ha. apply lookup_ge_None in Hb. lia.
  - apply lookup_lt_Some in Hb. apply lookup_ge_None in Ha. lia.
  - rewrite (proj2 (lookup_zip_None a b i) (or_introl Ha)). exact IH.
Qed.

(** Reordering all rows by one permutation keeps the rows. *)
Lemma take_rows_rows {A B} order (a : list A) (b : list B) :
  order ≡ₚ seq 0 (length a) -> length a = length b ->
  zip (take_rows order a) (take_rows order b) ≡ₚ zip a b.
Proof.
  intros Hp Hlen. rewrite take_rows_zip by done.
  transitivity (take_rows (seq 0 (length a)) (zip a b)).
  { unfold take_rows. by rewrite Hp. }
  replace (length a) with (length (zip a b)) by (rewrite length_zip; lia).
  by rewrite take_rows_seq.
Qed.

Lemma take_rows_perm {A} order (a : list A) :
  order ≡ₚ seq 0 (length a) -> take_rows order a ≡ₚ a.
Proof.
  intros Hp. transitivity (take_rows (seq 0 (length a)) a).
  { unfold take_rows. by rewrite Hp. }
  by rewrite take_rows_seq.
Qed.

Lemma argsort_perm key : argsort key ≡ₚ seq 0 (length key).
Proof.
  unfold argsort. rewrite merge_sort_Permutation.
  rewrite snd_zip; [done|]. by rewrite length_seq.
Qed.

Lemma sort_values_Ok d by_ ds :
  sort_values d by_ = Ok ds <->
  exists key, cols d !! by_ = Some key /\ sortable key = true /\
              ds = {| nrows := nrows d; cols := take_rows (argsort key) <$> cols d |}.
Proof.
  unfold sort_values, getitem. destruct (cols d !! by_) as [key|]; cbn [obind].
  - destruct (sortable key) eqn:Hs; split.
    + intros [= <-]. exists key. split; [done|]. split; done.
    + by intros (key' & [= <-] & _ & ->).
    + done.
    + intros (key' & [= <-] & ? & _). congruence.
  - split; [done|]. by intros (? & ? & _).
Qed.

Lemma numeric_cells col : Forall (fun c => is_num c = true) col -> exists xs, col = Num <$> xs.
Proof.
  induction 1 as [|c col Hc _ [xs ->]]; [by exists []|].
  destruct c as [q|s]; [|done]. by exists (q :: xs).
Qed.

(** ** avg_cats *)

Lemma groupby_mean_Ok d key val s :
  groupby_mean d key val = Ok s <->
  exists ks xs, cols d !! key = Some ks /\ cols d !! val = Some (Num <$> xs) /\
                s = group_means cell_le ks xs.
Proof.
  unfold groupby_mean, getitem. split.
  - intros (ks & Hk & (vs & Hv & (xs & ->%to_numeric_Ok & [= <-])%obind_Ok)%obind_Ok)%obind_Ok.
    destruct (cols d !! key) as [ks'|]; [injection Hk as ->|done].
    destruct (cols d !! val) as [vs'|]; [injection Hv as ->|done].
    by exists ks, xs.
  - intros (ks & xs & -> & -> & ->). simpl.
    by rewrite (proj2 (to_numeric_Ok _ _) eq_refl).
Qed.

(** What a successful call of [avg_cats] read and returned. *)
Lemma avg_cats_Ok df x_var y_var w xy w' :
  avg_cats df x_var y_var w = Ok (xy, w') ->
  w' = w /\
  exists d key ds,
    frames w !! df = Some d /\ cols d !! "pr_total" = Some key /\ sortable key = true /\
    ds = {| nrows := nrows d; cols := take_rows (argsort key) <$> cols d |} /\
    groupby_mean ds "cat" x_var = Ok xy.1 /\ groupby_mean ds "cat" y_var = Ok xy.2.
Proof.
  unfold avg_cats. intros Hrun.
  apply bind_Ok in Hrun as (d & w1 & [Hd ->]%read_frame_Ok & Hrun).
  apply bind_Ok in Hrun as (ds & w1 & [Hs ->]%lift_Ok & Hrun).
  apply bind_Ok in Hrun as (sx & w1 & [Hx ->]%lift_Ok & Hrun).
  apply bind_Ok in Hrun as (sy & w1 & [Hy ->]%lift_Ok & Hrun).
  apply ret_Ok in Hrun as [-> ->]. split; [done|].
  apply sort_values_Ok in Hs as (key & Hkey & Hsort & ->).
  eexists d, key, _. split; [done|]. split; [done|]. split; [done|].
  split; [reflexivity|]. split; done.
Qed.

(** A column of the sorted frame, seen from the frame itself. *)
Lemma sorted_numeric_column d key c xs' :
  df_wf d -> cols d !! "pr_total" = Some key ->
  (take_rows (argsort key) <$> cols d) !! c = Some (Num <$> xs') ->
  exists xs, cols d !! c = Some (Num <$> xs) /\ xs' = take_rows (argsort key) xs.
Proof.
  intros Hwf Hkey Hc. rewrite lookup_fmap in Hc.
  destruct (cols d !! c) as [col|] eqn:Hcol; [|done]. injection Hc as Hc.
  assert (Hlen : length col = length key) by (by rewrite (Hwf _ _ Hcol), (Hwf _ _ Hkey)).
  assert (Hp : take_rows (argsort key) col ≡ₚ col).
  { apply take_rows_perm. rewrite Hlen. apply argsort_perm. }
  destruct (numeric_cells col) as [xs ->].
  { rewrite <- Hp, Hc. apply Forall_fmap, Forall_forall. done. }
  exists xs. split; [done|]. rewrite take_rows_fmap in Hc. by apply fmap_Num_inj.
Qed.

Lemma sorted_column d key c col' :
  df_wf d -> cols d !! "pr_total" = Some key ->
  (take_rows (argsort key) <$> cols d) !! c = Some col' ->
  exists col, cols d !! c = Some col /\ col' = take_rows (argsort key) col /\
              length col = length key.
Proof.
  intros Hwf Hkey Hc. rewrite lookup_fmap in Hc.
  destruct (cols d !! c) as [col|] eqn:Hcol; [|done]. injection Hc as <-.
  exists col. split; [done|]. split; [done|].
  by rewrite (Hwf _ _ Hcol), (Hwf _ _ Hkey).
Qed.

(** Grouping the sorted frame gives what grouping the frame gives. *)
Lemma groupby_mean_sorted d key val s :
  df_wf d -> cols d !! "pr_total" = Some key ->
  groupby_mean {| nrows := nrows d; cols := take_rows (argsort key) <$> cols d |} "cat" val = Ok s ->
  groupby_mean d "cat" val = Ok s.
Proof.
  intros Hwf Hkey (ks' & xs' & Hk & Hv & ->)%groupby_mean_Ok. cbn [cols] in Hk, Hv.
  destruct (sorted_column d key "cat" ks' Hwf Hkey Hk) as (ks & Hks & -> & Hlk).
  destruct (sorted_numeric_column d key val xs' Hwf Hkey Hv) as (xs & Hxs & ->).
  apply groupby_mean_Ok. exists ks, xs. split; [done|]. split; [done|].
  assert (Hlx : length xs = length key).
  { rewrite <- (length_fmap Num xs). by rewrite (Hwf _ _ Hxs), (Hwf _ _ Hkey). }
  apply group_means_perm; try apply _.
  apply take_rows_rows; [|lia]. rewrite Hlk. apply argsort_perm.
Qed.

(** X8.  [avg_cats] raises [KeyError] for [pr_total] when the dataframe
    has no column of that name, whatever the other columns are; it raises
    [TypeError] when that column mixes numbers and strings, and [KeyError]
    for [cat] when [pr_total] can be sorted but there is no column [cat]. *)
Theorem avg_cats_raises df x_var y_var w d :
  frames w !! df = Some d ->
  (cols d !! "pr_total" = None ->
   avg_cats df x_var y_var w = Raise (KeyError "pr_total")) /\
  (forall key, cols d !! "pr_total" = Some key -> sortable key = false ->
   avg_cats df x_var y_var w = Raise TypeError) /\
  (forall key, cols d !! "pr_total" = Some key -> sortable key = true ->
   cols d !! "cat" = None ->
   avg_cats df x_var y_var w = Raise (KeyError "cat")).
Proof.
  intros Hd. unfold avg_cats, bind, read_frame, lift. rewrite Hd.
  unfold sort_values, getitem. split; [|split].
  - by intros ->.
  - intros key -> Hs. cbn [obind]. by rewrite Hs.
  - intros key -> Hs Hcat. cbn [obind]. rewrite Hs.
    unfold groupby_mean, getitem. cbn [cols]. by rewrite lookup_fmap, Hcat.
Qed.

Lemma avg_cats_raises_witness :
  frames signed_world !! 0 = Some signed_frame /\
  avg_cats 0 "x" "x" signed_world = Raise (KeyError "pr_total").
Proof.
  assert (Hd : frames signed_world !! 0 = Some signed_frame) by reflexivity.
  split; [exact Hd|].
  by apply (proj1 (avg_cats_raises 0 "x" "x" signed_world signed_frame Hd)).
Defined.

Lemma avg_cats_runs df x_var y_var w d key cats xs ys :
  frames w !! df = Some d ->
  cols d !! "pr_total" = Some key -> sortable key = true ->
  cols d !! "cat" = Some cats ->
  cols d !! x_var = Some (Num <$> xs) -> cols d !! y_var = Some (Num <$> ys) ->
  avg_cats df x_var y_var w
  = Ok ((group_means cell_le (take_rows (argsort key) cats) (take_rows (argsort key) xs),
         group_means cell_le (take_rows (argsort key) cats) (take_rows (argsort key) ys)), w).
Proof.
  intros Hd Hkey Hs Hcat Hx Hy.
  unfold avg_cats, bind, read_frame, lift, ret. rewrite Hd.
  rewrite (proj2 (sort_values_Ok d "pr_total" _)
             (ex_intro _ key (conj Hkey (conj Hs eq_refl)))).
  set (ds := {| nrows := nrows d; cols := take_rows (argsort key) <$> cols d |}).
  assert (Hgroup : forall v vs, cols d !! v = Some (Num <$> vs) ->
            groupby_mean ds "cat" v
            = Ok (group_means cell_le (take_rows (argsort key) cats)
                    (take_rows (argsort key) vs))).
  { intros v vs Hv. apply groupby_mean_Ok.
    exists (take_rows (argsort key) cats), (take_rows (argsort key) vs).
    subst ds. cbn [cols]. rewrite !lookup_fmap, Hcat, Hv, <- take_rows_fmap. done. }
  by rewrite (Hgroup _ _ Hx), (Hgroup _ _ Hy).
Qed.





(** ** create_figure: the steps of a successful call *)

Lemma create_figure_steps df x_var y_var x_title y_title ttl second cv stack w pc w' :
  create_figure df x_var y_var x_title y_title ttl second cv stack w = Ok (pc, w') ->
  exists c1 used1 w1 tr_bar xb w2 w3 sx sy dat2 lay used2 w4,
    find_color [] w = Ok ((c1, used1), w1) /\
    create_dist df x_var c1 None (Q2Qc (1 # 10)) w1 = Ok ((tr_bar, xb), w2) /\
    cat_clients df x_var xb w2 = Ok (df, w3) /\
    avg_cats df x_var y_var w3 = Ok ((sx, sy), w3) /\
    match second with
    | None =>
        dat2 = [tr_bar; create_scatter sx sy (Str x_var) c1 1] /\
        yaxis2 lay = None /\ used2 = used1 /\ w4 = w3
    | Some s =>
        exists sx2 sy2 c2 tb2,
          avg_cats df x_var s w3 = Ok ((sx2, sy2), w3) /\
          find_color used1 w3 = Ok ((c2, used2), w4) /\
          create_dist df s c2 (Some xb) (Q2Qc (1 # 10)) w4 = Ok ((tb2, xb), w4) /\
          dat2 = [tr_bar; create_scatter sx sy (Str x_var) c1 1;
                  create_scatter sx2 sy2 (Str s) c2 2; tb2] /\
          yaxis2 lay = Some (Axis2 s "y1" "right")
    end /\
    match cv with
    | None => data pc = dat2 /\ w' = w4
    | Some c =>
        exists tc used3,
          create_cat_plots df c x_var y_var xb used2 w4 = Ok ((tc, used3), w') /\
          data pc = dat2 ++ tc
    end /\
    fig_layout pc = lay /\
    title lay = ttl /\ xaxis_title lay = x_title /\ xaxis_showline lay = true /\
    yaxis_title lay = y_title /\
    barmode lay = (if stack then Some "stack" else None).
Proof.
  unfold create_figure. intros Hrun.
  apply bind_Ok in Hrun as ([c1 used1] & w1 & Hcol & Hrun).
  apply bind_Ok in Hrun as ([tr_bar xb] & w2 & Hdist & Hrun).
  apply bind_Ok in Hrun as (df' & w3 & Hcat & Hrun).
  pose proof (cat_clients_Ok _ _ _ _ _ _ Hcat) as (? & ? & _ & -> & _).
  apply bind_Ok in Hrun as ([sx sy] & w4 & Havg & Hrun).
  pose proof (avg_cats_Ok _ _ _ _ _ _ Havg) as [-> _].
  apply bind_Ok in Hrun as ([[[dat2 lay] xb'] used2] & w5 & Hsec & Hrun).
  apply bind_Ok in Hrun as (dat & w6 & Hcv & Hrun).
  apply ret_Ok in Hrun as [-> ->]. cbn [fst snd] in *.
  assert (Hxb : xb' = xb /\
    match second with
    | None =>
        dat2 = [tr_bar; create_scatter sx sy (Str x_var) c1 1] /\
        yaxis2 lay = None /\ used2 = used1 /\ w5 = w3
    | Some s =>
        exists sx2 sy2 c2 tb2,
          avg_cats df x_var s w3 = Ok ((sx2, sy2), w3) /\
          find_color used1 w3 = Ok ((c2, used2), w5) /\
          create_dist df s c2 (Some xb) (Q2Qc (1 # 10)) w5 = Ok ((tb2, xb), w5) /\
          dat2 = [tr_bar; create_scatter sx sy (Str x_var) c1 1;
                  create_scatter sx2 sy2 (Str s) c2 2; tb2] /\
          yaxis2 lay = Some (Axis2 s "y1" "right")
    end /\
    title lay = ttl /\ xaxis_title lay = x_title /\ xaxis_showline lay = true /\
    yaxis_title lay = y_title /\
    barmode lay = (if stack then Some "stack" else None)).
  { destruct second as [s|].
    - apply bind_Ok in Hsec as ([sx2 sy2] & w7 & Havg2 & Hsec).
      pose proof (avg_cats_Ok _ _ _ _ _ _ Havg2) as [-> _].
      apply bind_Ok in Hsec as ([c2 used2'] & w8 & Hcol2 & Hsec).
      apply bind_Ok in Hsec as ([tb2 xb2] & w9 & Hdist2 & Hsec).
      apply ret_Ok in Hsec as [[= -> -> -> ->] ->]. cbn [fst snd] in *.
      pose proof (create_dist_Ok _ _ _ _ _ _ _ _ _ Hdist2)
        as (? & ? & ? & ? & ? & _ & _ & _ & _ & Hsame & _).
      destruct (Hsame xb eq_refl) as [-> ->].
      split; [done|]. split; [|done].
      exists sx2, sy2, c2, tb2. done.
    - apply ret_Ok in Hsec as [[= -> -> -> ->] ->]. done. }
  destruct Hxb as (-> & Hsecond & Hlay).
  exists c1, used1, w1, tr_bar, xb, w2, w3, sx, sy, dat2, lay, used2, w5.
  split; [done|]. split; [done|]. split; [done|]. split; [done|]. split; [done|].
  split; [|done].
  destruct cv as [c|].
  - apply bind_Ok in Hcv as ([tc used3] & w7 & Hplots & Hcv).
    apply ret_Ok in Hcv as [-> ->]. exists tc, used3. done.
  - apply ret_Ok in Hcv as [-> ->]. done.
Qed.

(** ** Colours *)

Lemma axa_marker_inj i j :
  is_draw i -> is_draw j -> axa_marker i = axa_marker j -> i = j.
Proof.
  unfold is_draw. intros Hi Hj Heq.
  assert (Hi' : (i = 0 \/ i = 1 \/ i = 2 \/ i = 3 \/ i = 4 \/ i = 5 \/ i = 6 \/ i = 7)%Z) by lia.
  assert (Hj' : (j = 0 \/ j = 1 \/ j = 2 \/ j = 3 \/ j = 4 \/ j = 5 \/ j = 6 \/ j = 7)%Z) by lia.
  clear Hi Hj.
  repeat (destruct Hi' as [->|Hi']); try subst i;
    repeat (destruct Hj' as [->|Hj']); try subst j;
    try reflexivity; vm_compute in Heq; discriminate Heq.
Qed.

(** What a successful call of [find_color] returns, when the draws are
    draws of [randint(0, 8)]. *)
Lemma find_color_marker used w m used' w' :
  Forall is_draw (draws w) ->
  find_color used w = Ok ((m, used'), w') ->
  exists idx, is_draw idx /\ (idx ∉ used) /\ used' = used ++ [idx] /\
              m = axa_marker idx /\
              frames w' = frames w /\ arrays w' = arrays w /\
              draws w' `suffix_of` draws w.
Proof.
  intros Hd Hrun.
  destruct (find_color_Ok used w m used' w' Hd Hrun)
    as (idx & Hidx & Hnew & _ & -> & Hc & Hf & Ha & Hs).
  exists idx. split; [done|]. split; [done|]. split; [done|].
  split; [|done]. unfold py_index in Hc.
  destruct (decide (0 <= idx)%Z) as [_|]; [|lia].
  unfold getidx in Hc. unfold axa_marker.
  destruct (AXA_colors !! Z.to_nat idx) as [c|]; [|done].
  injection Hc as ->. by destruct m.
Qed.

Lemma Forall_suffix {A} (P : A -> Prop) l k : l `suffix_of` k -> Forall P k -> Forall P l.
Proof. intros [pre ->] H. by apply Forall_app in H as [_ ?]. Qed.

Lemma cat_plots_loop_colours d cv xv tx ty edges vs acc used w traces used' w' :
  Forall is_draw (draws w) ->
  cat_plots_loop d cv xv tx ty edges vs acc used w = Ok ((traces, used'), w') ->
  exists new idxs,
    traces = acc ++ new /\ used' = used ++ idxs /\ length idxs = length vs /\
    Forall is_draw idxs /\ Forall (fun i => i ∉ used) idxs /\ NoDup idxs /\
    trace_marker <$> new = pair_markers idxs /\
    draws w' `suffix_of` draws w.
Proof.
  revert acc used w. induction vs as [|v vs IH]; intros acc used w Hd Hrun; simpl in Hrun.
  - apply ret_Ok in Hrun as [[= -> ->] ->]. exists [], [].
    rewrite !app_nil_r. repeat split; try done; constructor.
  - apply bind_Ok in Hrun as (sx & w1 & [_ ->]%lift_Ok & Hrun).
    apply bind_Ok in Hrun as (sy & w1 & [_ ->]%lift_Ok & Hrun).
    apply bind_Ok in Hrun as (count & w1 & [Hc ->]%lift_Ok & Hrun).
    apply bind_Ok in Hrun as (y & w1 & [Hy ->]%lift_Ok & Hrun).
    apply bind_Ok in Hrun as ([m used1] & w1 & Hcol & Hrun).
    apply (find_color_marker used w m used1 w1 Hd) in Hcol
      as (idx & Hidx & Hfresh & -> & -> & _ & _ & Hs).
    apply IH in Hrun as (new & idxs & -> & -> & Hlen & Hin & Hout & Hnd & Hm & Hs');
      [|by eapply Forall_suffix].
    eexists (_ :: _ :: new), (idx :: idxs).
    split; [by rewrite <- app_assoc|]. split; [cbn [snd]; by rewrite <- app_assoc|].
    split; [simpl; lia|]. split; [by constructor|].
    split.
    { constructor; [done|]. eapply Forall_impl; [exact Hout|].
      intros i Hi Hu. apply Hi. apply elem_of_app. by left. }
    split.
    { constructor; [|done]. intros Hdup.
      rewrite Forall_forall in Hout. apply (Hout idx Hdup).
      apply elem_of_app. right. by apply list_elem_of_singleton. }
    split; [|by etrans].
    cbn [fst snd]. rewrite !fmap_cons, Hm. reflexivity.
Qed.

Lemma create_cat_plots_colours df cv xv yv x_bar used w traces used' w' :
  Forall is_draw (draws w) ->
  create_cat_plots df cv xv yv x_bar used w = Ok ((traces, used'), w') ->
  exists idxs,
    used' = used ++ idxs /\ length traces = 2 * length idxs /\
    Forall is_draw idxs /\ Forall (fun i => i ∉ used) idxs /\ NoDup idxs /\
    trace_marker <$> traces = pair_markers idxs /\
    draws w' `suffix_of` draws w.
Proof.
  unfold create_cat_plots. intros Hd Hrun.
  apply bind_Ok in Hrun as (d & w1 & [_ ->]%read_frame_Ok & Hrun).
  apply bind_Ok in Hrun as (tx & w1 & [_ ->]%lift_Ok & Hrun).
  apply bind_Ok in Hrun as (ty & w1 & [_ ->]%lift_Ok & Hrun).
  apply bind_Ok in Hrun as (vs & w1 & [_ ->]%lift_Ok & Hrun).
  apply bind_Ok in Hrun as (edges & w1 & [_ ->]%read_array_Ok & Hrun).
  apply cat_plots_loop_colours in Hrun
    as (new & idxs & -> & -> & Hlen & Hin & Hout & Hnd & Hm & Hs); [|done].
  exists idxs. split; [done|]. split.
  { rewrite app_nil_l, <- (length_fmap trace_marker), Hm. clear.
    unfold pair_markers. induction idxs as [|i idxs IH]; [done|].
    cbn [mbind list_bind]. rewrite length_app, IH. simpl. lia. }
  done.
Qed.

(** ** create_figure: what the first steps leave *)

Lemma create_figure_front df x_var c1 used1 w w1 tr_bar xb w2 w3 :
  find_color [] w = Ok ((c1, used1), w1) ->
  create_dist df x_var c1 None (Q2Qc (1 # 10)) w1 = Ok ((tr_bar, xb), w2) ->
  cat_clients df x_var xb w2 = Ok (df, w3) ->
  exists d edges xs count ys,
    frames w !! df = Some d /\ cols d !! x_var = Some (Num <$> xs) /\
    length xs = nrows d /\ 2 <= length edges /\
    (xb ∉ dom (arrays w)) /\
    np_histogram (Num <$> xs) edges = Ok count /\
    y_bar_of count (nrows d) = Ok ys /\
    tr_bar = Bar edges ys c1 (Q2Qc (3 # 10)) (Str ("Dist. " +:+ x_var)) /\
    draws w1 `suffix_of` draws w /\
    w3 = {| frames := <[df := {| nrows := nrows d;
                                 cols := <["cat" := map (fun v => Num (of_Z (cat_of edges v))) xs]>
                                           (cols d) |}]> (frames w);
            arrays := <[xb := edges]> (arrays w);
            draws := draws w1 |}.
Proof.
  intros (Hf1 & Ha1 & Hs1)%find_color_state Hdist Hcat.
  apply create_dist_Ok in Hdist
    as (d & edges & col & count & ys & Hd & He & Hf2 & Hd2 & _ & Hnew & Hcol & Hc & Hy & ->).
  destruct (Hnew eq_refl) as [Hfresh Ha2].
  apply cat_clients_Ok_column in Hcat
    as (d' & edges' & xs & Hd' & He' & Hlen & Hcol' & Hrows & _ & ->).
  rewrite Hf2, Hf1 in Hd'. rewrite Hf1 in Hd. rewrite Hd in Hd'. injection Hd' as <-.
  rewrite He in He'. injection He' as <-.
  rewrite Hcol in Hcol'. injection Hcol' as ->.
  exists d, edges, xs, count, ys.
  split; [done|]. split; [done|]. split; [done|]. split; [done|].
  split; [by rewrite <- Ha1|]. split; [done|]. split; [done|]. split; [done|].
  split; [done|]. by rewrite Hf2, Hf1, Ha2, Ha1, Hd2.
Qed.

Lemma cat_plots_loop_draws d cv xv tx ty edges vs acc used w r w' :
  cat_plots_loop d cv xv tx ty edges vs acc used w = Ok (r, w') ->
  draws w' `suffix_of` draws w.
Proof.
  revert acc used w. induction vs as [|v vs IH]; intros acc used w Hrun; simpl in Hrun.
  - apply ret_Ok in Hrun as [_ ->]. done.
  - apply bind_Ok in Hrun as (sx & w1 & [_ ->]%lift_Ok & Hrun).
    apply bind_Ok in Hrun as (sy & w1 & [_ ->]%lift_Ok & Hrun).
    apply bind_Ok in Hrun as (count & w1 & [_ ->]%lift_Ok & Hrun).
    apply bind_Ok in Hrun as (y & w1 & [_ ->]%lift_Ok & Hrun).
    apply bind_Ok in Hrun as (cu & w1 & (_ & _ & Hs)%find_color_state & Hrun).
    apply IH in Hrun. by etrans.
Qed.

Lemma create_cat_plots_draws df cv xv yv x_bar used w r w' :
  create_cat_plots df cv xv yv x_bar used w = Ok (r, w') ->
  draws w' `suffix_of` draws w.
Proof.
  unfold create_cat_plots. intros Hrun.
  apply bind_Ok in Hrun as (d & w1 & [_ ->]%read_frame_Ok & Hrun).
  apply bind_Ok in Hrun as (tx & w1 & [_ ->]%lift_Ok & Hrun).
  apply bind_Ok in Hrun as (ty & w1 & [_ ->]%lift_Ok & Hrun).
  apply bind_Ok in Hrun as (vs & w1 & [_ ->]%lift_Ok & Hrun).
  apply bind_Ok in Hrun as (edges & w1 & [_ ->]%read_array_Ok & Hrun).
  by eapply cat_plots_loop_draws.
Qed.

(** What a successful call of [create_figure] read, built and left. *)
Lemma create_figure_Ok df x_var y_var x_title y_title ttl second cv stack w pc w' :
  create_figure df x_var y_var x_title y_title ttl second cv stack w = Ok (pc, w') ->
  exists d xs xb edges count ys c sx sy rest w3,
    let d' := {| nrows := nrows d;
                 cols := <["cat" := map (fun v => Num (of_Z (cat_of edges v))) xs]> (cols d) |} in
    frames w !! df = Some d /\ cols d !! x_var = Some (Num <$> xs) /\
    length xs = nrows d /\ 2 <= length edges /\
    (xb ∉ dom (arrays w)) /\
    arrays w' = <[xb := edges]> (arrays w) /\
    frames w' = <[df := d']> (frames w) /\
    draws w' `suffix_of` draws w /\ length (draws w') < length (draws w) /\
    np_histogram (Num <$> xs) edges = Ok count /\ y_bar_of count (nrows d) = Ok ys /\
    frames w3 !! df = Some d' /\ avg_cats df x_var y_var w3 = Ok ((sx, sy), w3) /\
    data pc = Bar edges ys c (Q2Qc (3 # 10)) (Str ("Dist. " +:+ x_var))
              :: Scatter sx sy "lines+markers" c (Str x_var) "y1" :: rest /\
    match cv with
    | None => length rest = match second with Some _ => 2 | None => 0 end
    | Some c =>
        exists col,
          cols d' !! c = Some col /\
          length rest = match second with Some _ => 2 | None => 0 end + 2 * length (unique col)
    end.
Proof.
  intros (c1 & used1 & w1 & tr_bar & xb & w2 & w3 & sx & sy & dat2 & lay & used2 & w4
          & Hcol & Hdist & Hcat & Havg & Hsec & Hcv & _)%create_figure_steps.
  destruct (create_figure_front _ _ _ _ _ _ _ _ _ _ Hcol Hdist Hcat)
    as (d & edges & xs & count & ys & Hd & Hx & Hrows & He2 & Hfresh & Hhist & Hys & -> & Hs1 & ->).
  assert (Hlt : length (draws w1) < length (draws w)).
  { unfold find_color in Hcol.
    apply bind_Ok in Hcol as (t0 & w0 & Hr & Hcol).
    apply bind_Ok in Hcol as (t & w0' & Ht & Hcol).
    apply bind_Ok in Hcol as (c & w0'' & [_ ->]%lift_Ok & Hcol).
    apply ret_Ok in Hcol as [_ ->].
    unfold randint in Hr. destruct (draws w) as [|d0 ds]; [done|].
    injection Hr as <- <-. cbn [draws] in Ht.
    apply obind_Ok in Ht as ([t' rest] & (_ & _ & Hsuf)%redraw_Ok & [= <- <-]).
    cbn [draws snd length]. apply suffix_length in Hsuf. lia. }
  set (d' := {| nrows := nrows d; cols := _ |}) in *.
  set (w3 := {| frames := _; arrays := _; draws := draws w1 |}) in *.
  assert (H4 : frames w4 = frames w3 /\ arrays w4 = arrays w3 /\
               draws w4 `suffix_of` draws w3 /\
               exists rest2,
                 dat2 = Bar edges ys c1 (Q2Qc (3 # 10)) (Str ("Dist. " +:+ x_var))
                        :: Scatter sx sy "lines+markers" c1 (Str x_var) "y1" :: rest2 /\
                 length rest2 = match second with Some _ => 2 | None => 0 end).
  { destruct second as [s|].
    - destruct Hsec as (sx2 & sy2 & c2 & tb2 & _ & (? & ? & ?)%find_color_state & _ & -> & _).
      split; [done|]. split; [done|]. split; [done|]. by eexists [_; _].
    - destruct Hsec as (-> & _ & _ & ->). split; [done|]. split; [done|]. split; [done|].
      by exists []. }
  destruct H4 as (Hf4 & Ha4 & Hs4 & rest2 & -> & Hlen2).
  assert (H' : frames w' = frames w4 /\ arrays w' = arrays w4 /\
               draws w' `suffix_of` draws w4 /\
               exists rest,
                 data pc = Bar edges ys c1 (Q2Qc (3 # 10)) (Str ("Dist. " +:+ x_var))
                        :: Scatter sx sy "lines+markers" c1 (Str x_var) "y1" :: rest /\
                 match cv with
                 | None => length rest = match second with Some _ => 2 | None => 0 end
                 | Some c =>
                     exists col,
                       cols d' !! c = Some col /\
                       length rest = match second with Some _ => 2 | None => 0 end
                                     + 2 * length (unique col)
                 end).
  { destruct cv as [c|].
    - destruct Hcv as (tc & used3 & Hplots & ->).
      pose proof (create_cat_plots_draws _ _ _ _ _ _ _ _ _ Hplots) as Hs.
      apply create_cat_plots_Ok in Hplots as (d0 & col & edges' & Hd0 & Hc & _ & Htr & Hf & Ha).
      split; [done|]. split; [done|]. split; [done|].
      exists (rest2 ++ tc). split; [done|]. exists col.
      rewrite Hf4 in Hd0. subst w3. cbn [frames] in Hd0. rewrite lookup_insert_eq in Hd0.
      injection Hd0 as <-. split; [done|].
      by rewrite length_app, Hlen2, (traces_for_length _ _ _ Htr).
    - destruct Hcv as [-> ->]. split; [done|]. split; [done|]. split; [done|].
      by exists rest2. }
  destruct H' as (Hf' & Ha' & Hs' & rest & Hdata & Hcount).
  exists d, xs, xb, edges, count, ys, c1, sx, sy, rest, w3. cbv zeta. fold d'.
  split; [done|]. split; [done|]. split; [done|]. split; [done|]. split; [done|].
  split; [by rewrite Ha', Ha4|]. split; [by rewrite Hf', Hf4|].
  assert (Hsuf : draws w' `suffix_of` draws w1) by (by etrans).
  split; [by etrans|]. split; [apply suffix_length in Hsuf; lia|].
  split; [done|]. split; [done|].
  split; [subst w3; cbn [frames]; apply lookup_insert_eq|]. done.
Qed.



(** ** create_figure: the colours of the traces *)

Lemma draws_NoDup_length (idxs : list Z) :
  NoDup idxs -> Forall is_draw idxs -> length idxs <= 8.
Proof.
  intros Hnd Hin.
  assert (Hsub : idxs ⊆+ seqZ 0 8).
  { apply NoDup_submseteq; [done|]. intros i Hi. rewrite Forall_forall in Hin.
    apply elem_of_seqZ. specialize (Hin i Hi). unfold is_draw in Hin. lia. }
  apply submseteq_length in Hsub. by rewrite length_seqZ in Hsub.
Qed.

Lemma pair_markers_app k l : pair_markers (k ++ l) = pair_markers k ++ pair_markers l.
Proof. unfold pair_markers. apply bind_app. Qed.

Lemma pair_markers_length l : length (pair_markers l) = 2 * length l.
Proof.
  unfold pair_markers. induction l as [|i l IH]; [done|].
  cbn [mbind list_bind]. rewrite length_app, IH. simpl. lia.
Qed.

(** The colour indices behind the traces of a figure. *)
Lemma create_figure_palette df x_var y_var x_title y_title ttl second cv stack w pc w' :
  Forall is_draw (draws w) ->
  create_figure df x_var y_var x_title y_title ttl second cv stack w = Ok (pc, w') ->
  exists idxs,
    trace_marker <$> data pc = pair_markers idxs /\ Forall is_draw idxs /\ NoDup idxs.
Proof.
  intros Hd (c1 & used1 & w1 & tr_bar & xb & w2 & w3 & sx & sy & dat2 & lay & used2 & w4
          & Hcol & Hdist & Hcat & _ & Hsec & Hcv & _)%create_figure_steps.
  destruct (create_figure_front _ _ _ _ _ _ _ _ _ _ Hcol Hdist Hcat)
    as (d & edges & xs & count & ys & _ & _ & _ & _ & _ & _ & _ & -> & Hs1 & ->).
  apply (find_color_marker [] w c1 used1 w1 Hd) in Hcol
    as (i1 & Hi1 & _ & -> & -> & _ & _ & _).
  set (w3 := {| frames := _; arrays := _; draws := draws w1 |}) in *.
  assert (Hd3 : Forall is_draw (draws w3)) by (by eapply Forall_suffix).
  assert (H2 : exists idxs2,
    used2 = idxs2 /\ trace_marker <$> dat2 = pair_markers idxs2 /\
    Forall is_draw idxs2 /\ NoDup idxs2 /\ Forall is_draw (draws w4)).
  { destruct second as [s|].
    - destruct Hsec as (sx2 & sy2 & c2 & tb2 & _ & Hcol2 & Hdist2 & -> & _).
      apply (find_color_marker _ w3 c2 used2 w4 Hd3) in Hcol2
        as (i2 & Hi2 & Hnew & -> & -> & _ & _ & Hs2).
      apply create_dist_Ok in Hdist2 as (? & ? & ? & ? & ? & _ & _ & _ & _ & _ & _ & _ & _ & _ & ->).
      exists [i1; i2]. split; [done|]. split; [done|].
      split; [constructor; [done|]; constructor; [done|]; constructor|]. split.
      + apply NoDup_cons. split; [|apply NoDup_singleton].
        intros Hin%list_elem_of_singleton. apply Hnew. rewrite Hin.
        by apply list_elem_of_singleton.
      + by eapply Forall_suffix.
    - destruct Hsec as (-> & _ & -> & ->). exists [i1]. split; [done|]. split; [done|].
      split; [constructor; [done|]; constructor|]. split; [apply NoDup_singleton|done]. }
  destruct H2 as (idxs2 & -> & Hm2 & Hin2 & Hnd2 & Hd4).
  assert (H3 : exists idxs,
    trace_marker <$> data pc = pair_markers idxs /\ Forall is_draw idxs /\ NoDup idxs).
  { destruct cv as [c|].
    - destruct Hcv as (tc & used3 & Hplots & ->).
      apply create_cat_plots_colours in Hplots
        as (idxs3 & _ & _ & Hin3 & Hout3 & Hnd3 & Hm3 & _); [|done].
      exists (idxs2 ++ idxs3). rewrite fmap_app, pair_markers_app, Hm2, Hm3.
      split; [done|]. split; [by apply Forall_app|].
      apply NoDup_app. split; [done|]. split; [|done].
      intros i Hi Hi'. rewrite Forall_forall in Hout3. by apply (Hout3 i Hi').
    - destruct Hcv as [-> _]. by exists idxs2. }
  exact H3.
Qed.

(** X12.  When the draws are draws of [randint(0, 8)], the traces of a
    figure that [create_figure] returns come in pairs of one colour of the
    palette, no two pairs have the same colour, and so there are at most
    eight pairs. *)
Theorem create_figure_colours df x_var y_var x_title y_title ttl second cv stack w pc w' :
  Forall is_draw (draws w) ->
  create_figure df x_var y_var x_title y_title ttl second cv stack w = Ok (pc, w') ->
  exists idxs,
    trace_marker <$> data pc = pair_markers idxs /\
    Forall is_draw idxs /\ NoDup idxs /\ NoDup (axa_marker <$> idxs) /\
    length (data pc) = 2 * length idxs /\ length idxs <= 8.
Proof.
  intros Hd Hrun.
  destruct (create_figure_palette _ _ _ _ _ _ _ _ _ _ _ _ Hd Hrun) as (idxs & Hm & Hin & Hnd).
  exists idxs. split; [done|]. split; [done|]. split; [done|]. split.
  - apply NoDup_fmap_2_strong; [|done]. intros i j Hi Hj.
    rewrite Forall_forall in Hin. apply axa_marker_inj; auto.
  - split; [|by apply draws_NoDup_length].
    by rewrite <- (length_fmap trace_marker), Hm, pair_markers_length.
Qed.

Lemma create_figure_colours_witness :
  Forall is_draw (draws example_world) /\
  exists pc w',
    create_figure 0 "x" "y" "X" "Y" "T" (Some "y") (Some "g") false example_world
    = Ok (pc, w') /\
    length (data pc) <= 16.
Proof.
  assert (Hd : Forall is_draw (draws example_world)).
  { unfold is_draw. apply (bool_decide_unpack _). vm_compute. exact I. }
  split; [exact Hd|].
  assert (Hrun : exists pc w',
    create_figure 0 "x" "y" "X" "Y" "T" (Some "y") (Some "g") false example_world
    = Ok (pc, w')) by (vm_compute; eauto).
  destruct Hrun as (pc & w' & Hrun). exists pc, w'. split; [exact Hrun|].
  destruct (create_figure_colours _ _ _ _ _ _ _ _ _ _ _ _ Hd Hrun)
    as (idxs & _ & _ & _ & _ & Hlen & Hle).
  rewrite Hlen. lia.
Defined.

(** ** create_figure: the first steps run *)

Lemma find_color_first w d0 ds :
  draws w = d0 :: ds -> is_draw d0 ->
  find_color [] w
  = Ok ((axa_marker d0, [d0]), {| frames := frames w; arrays := arrays w; draws := ds |}).
Proof.
  intros Hdraws Hd0. unfold find_color, bind, randint. rewrite Hdraws. cbn [draws].
  assert (Hre : redraw [] d0 ds = Ok (d0, ds)).
  { destruct ds; simpl; destruct (decide (d0 ∈ [])) as [Hin|_]; try done;
      by apply elem_of_nil in Hin. }
  rewrite Hre. cbn [obind fst snd].
  destruct (py_index_colors d0 Hd0) as [c Hc]. unfold lift, ret. rewrite Hc.
  unfold py_index in Hc. unfold is_draw in Hd0.
  destruct (decide (0 <= d0)%Z) as [_|]; [|lia].
  unfold getidx in Hc. unfold axa_marker.
  destruct (AXA_colors !! Z.to_nat d0) as [c'|]; [|done].
  injection Hc as ->. reflexivity.
Qed.

Lemma create_figure_front_runs df x_var w d xs m d0 ds :
  frames w !! df = Some d -> df_wf d -> cols d !! x_var = Some (Num <$> xs) ->
  m ∈ xs -> (forall x, x ∈ xs -> (x <= m)%Qc) -> (0 < m)%Qc ->
  draws w = d0 :: ds -> is_draw d0 ->
  exists edges,
    let xb := fresh (dom (arrays w)) in
    let w1 := {| frames := frames w; arrays := arrays w; draws := ds |} in
    let w2 := {| frames := frames w; arrays := <[xb := edges]> (arrays w); draws := ds |} in
    let d' := {| nrows := nrows d;
                 cols := <["cat" := map (fun v => Num (of_Z (cat_of edges v))) xs]> (cols d) |} in
    find_color [] w = Ok ((axa_marker d0, [d0]), w1) /\
    create_dist df x_var (axa_marker d0) None (Q2Qc (1 # 10)) w1
    = Ok ((Bar edges (shares edges xs (nrows d)) (axa_marker d0) (Q2Qc (3 # 10))
               (Str ("Dist. " +:+ x_var)), xb), w2) /\
    cat_clients df x_var xb w2
    = Ok (df, {| frames := <[df := d']> (frames w); arrays := <[xb := edges]> (arrays w);
                 draws := ds |}).
Proof.
  intros Hd Hwf Hx Hin Hub Hm Hdraws Hd0.
  pose proof (series_max_is_max xs m Hin Hub) as Hmax.
  assert (Hrows : nrows d <> 0).
  { rewrite <- (Hwf _ _ Hx), length_fmap. destruct xs; [|done].
    by apply elem_of_nil in Hin. }
  assert (Hp : (0 < Q2Qc (1 # 10))%Qc) by done.
  assert (Hp1 : (Q2Qc (1 # 10) <= 1)%Qc) by (apply (bool_decide_unpack _); vm_compute; exact I).
  set (w1 := {| frames := frames w; arrays := arrays w; draws := ds |}).
  pose proof (create_dist_builds df x_var (axa_marker d0) (Q2Qc (1 # 10)) w1 d xs m
                Hd Hx Hmax Hrows Hm Hp Hp1) as Hrun.
  cbv zeta in Hrun.
  set (temp := ceil (m / of_Z 100)%Qc) in *.
  set (step := (Q2Qc (1 # 10) * of_Z temp)%Qc) in *.
  set (N := ceil ((of_Z (temp * 100 + temp) - 0) / step)%Qc) in *.
  destruct (arange_bounds m (Q2Qc (1 # 10)) temp N Hm Hp Hp1 eq_refl eq_refl)
    as (Htemp & HN & Hstep & Hlast & _ & _).
  fold step in Hstep, Hlast.
  set (edges := map (term step) (seq 0 (Z.to_nat N))) in *.
  assert (Hlen : 2 <= length edges).
  { unfold edges. rewrite length_map, length_seq.
    destruct (decide (2 <= N)%Z) as [|Hsmall]; [lia|]. exfalso.
    assert (N - 1 = 0)%Z as Hz by lia. rewrite Hz in Hlast.
    apply (Qclt_not_le _ _ Hm). eapply Qcle_trans; [exact Hlast|].
    unfold of_Z. rewrite Z2Qc_inj_0. rewrite Qcmult_0_l. apply Qcle_refl. }
  exists edges. cbv zeta. split; [by apply find_color_first|].
  subst w1. cbn [arrays frames draws] in Hrun. split; [exact Hrun|].
  exact (cat_clients_runs df x_var (fresh (dom (arrays w)))
           {| frames := frames w; arrays := <[fresh (dom (arrays w)) := edges]> (arrays w);
              draws := ds |}
           d edges xs Hd ltac:(apply lookup_insert_eq) Hx Hwf Hlen).
Qed.

(** ** create_figure: the traces of the figure *)

(** X13.  The figure that [create_figure] returns starts with the bar
    trace named after [x_var] and the scatter trace of [x_var] on axis
    [y1], both of one colour; two more traces follow when a second variable
    is given, and two for every distinct value of the categorical column
    as it is in the dataframe after the call; the layout has the titles
    given and stacks the bars exactly when [stack_bar] is set. *)
Theorem create_figure_traces df x_var y_var x_title y_title ttl second cv stack w pc w' :
  create_figure df x_var y_var x_title y_title ttl second cv stack w = Ok (pc, w') ->
  exists edges ys c sx sy rest,
    data pc = Bar edges ys c (Q2Qc (3 # 10)) (Str ("Dist. " +:+ x_var))
              :: Scatter sx sy "lines+markers" c (Str x_var) "y1" :: rest /\
    title (fig_layout pc) = ttl /\ xaxis_title (fig_layout pc) = x_title /\
    yaxis_title (fig_layout pc) = y_title /\
    (barmode (fig_layout pc) = Some "stack" <-> stack = true) /\
    match cv with
    | None => length rest = match second with Some _ => 2 | None => 0 end
    | Some c =>
        exists d' col,
          frames w' !! df = Some d' /\ cols d' !! c = Some col /\
          length rest = match second with Some _ => 2 | None => 0 end + 2 * length (unique col)
    end.
Proof.
  intros Hrun.
  pose proof (create_figure_steps _ _ _ _ _ _ _ _ _ _ _ _ Hrun)
    as (c1 & used1 & w1 & tr_bar & xb' & w2 & w3' & sx' & sy' & dat2 & lay & used2 & w4
        & _ & _ & _ & _ & _ & _ & <- & Ht & Hxt & _ & Hyt & Hbm).
  apply create_figure_Ok in Hrun
    as (d & xs & xb & edges & count & ys & c & sx & sy & rest & w3 & H).
  cbv zeta in H.
  destruct H as (_ & _ & _ & _ & _ & _ & Hf & _ & _ & _ & _ & _ & _ & Hdata & Hcount).
  exists edges, ys, c, sx, sy, rest.
  split; [done|]. split; [done|]. split; [done|]. split; [done|].
  split; [rewrite Hbm; by destruct stack|].
  destruct cv as [cvar|]; [|done].
  destruct Hcount as (col & Hcol & Hlen).
  eexists _, col. rewrite Hf, lookup_insert_eq. done.
Qed.

Lemma create_figure_traces_witness :
  exists pc w' t1 t2 rest,
    create_figure 0 "x" "y" "X" "Y" "T" (Some "y") (Some "g") false example_world
    = Ok (pc, w') /\
    data pc = t1 :: t2 :: rest /\ trace_name t1 = Str "Dist. x" /\ trace_name t2 = Str "x".
Proof.
  assert (Hrun : exists pc w',
    create_figure 0 "x" "y" "X" "Y" "T" (Some "y") (Some "g") false example_world
    = Ok (pc, w')) by (vm_compute; eauto).
  destruct Hrun as (pc & w' & Hrun).
  destruct (create_figure_traces _ _ _ _ _ _ _ _ _ _ _ _ Hrun)
    as (edges & ys & c & sx & sy & rest & Hdata & _).
  eexists pc, w', _, _, rest. split; [exact Hrun|]. split; [exact Hdata|]. split; reflexivity.
Defined.

(** X14.  [create_figure] returns no figure that needs more than eight
    colours: when the draws are draws of [randint(0, 8)] and the distinct
    values of the categorical column, with the second variable if there is
    one, are eight or more, the call does not return. *)
Theorem create_figure_colour_limit df x_var y_var x_title y_title ttl second c stack w d col :
  Forall is_draw (draws w) ->
  frames w !! df = Some d -> cols d !! c = Some col -> c <> "cat" ->
  8 <= length (unique col) + match second with Some _ => 1 | None => 0 end ->
  forall r, create_figure df x_var y_var x_title y_title ttl second (Some c) stack w <> Ok r.
Proof.
  intros Hdraws Hd Hcol Hc Hmany [pc w'] Hrun.
  destruct (create_figure_palette _ _ _ _ _ _ _ _ _ _ _ _ Hdraws Hrun)
    as (idxs & Hm & Hin & Hnd).
  pose proof (draws_NoDup_length idxs Hnd Hin) as Hle.
  assert (Hlen : length (data pc) = 2 * length idxs)
    by (by rewrite <- (length_fmap trace_marker), Hm, pair_markers_length).
  apply create_figure_Ok in Hrun
    as (d0 & xs & xb & edges & count & ys & c1 & sx & sy & rest & w3 & H).
  cbv zeta in H.
  destruct H as (Hd0 & _ & _ & _ & _ & _ & _ & _ & _ & _ & _ & _ & _ & Hdata & col' & Hcol' & Hrest).
  rewrite Hd in Hd0. injection Hd0 as <-.
  cbn [cols] in Hcol'. rewrite lookup_insert_ne in Hcol' by done.
  rewrite Hcol in Hcol'. injection Hcol' as <-.
  rewrite Hdata in Hlen. cbn [length] in Hlen. rewrite Hrest in Hlen.
  destruct second; lia.
Qed.

Lemma create_figure_colour_limit_witness :
  Forall is_draw (draws crowded_world) /\
  create_figure 0 "x" "y" "X" "Y" "T" None (Some "g") true crowded_world
  <> Ok (PlotCall [] (Layout "T" "X" true "Y" None None) "T", crowded_world).
Proof.
  assert (Hdraws : Forall is_draw (draws crowded_world)).
  { unfold is_draw. apply (bool_decide_unpack _). vm_compute. exact I. }
  split; [exact Hdraws|].
  apply (create_figure_colour_limit 0 "x" "y" "X" "Y" "T" None "g" true crowded_world
           crowded_frame (Str <$> ["a"; "b"; "c"; "d"; "e"; "f"; "g"; "h"]) Hdraws).
  - reflexivity.
  - reflexivity.
  - discriminate.
  - vm_compute. lia.
Defined.



(** ** create_figure: the plain call returns *)

Lemma cat_frame_wf d edges xs :
  df_wf d -> length xs = nrows d ->
  df_wf {| nrows := nrows d; cols := <["cat" := cat_cells edges xs]> (cols d) |}.
Proof.
  intros Hwf Hlen c l. cbn [cols nrows].
  destruct (decide (c = "cat")) as [->|Hne].
  - rewrite lookup_insert_eq. intros [= <-]. unfold cat_cells. by rewrite length_map.
  - rewrite lookup_insert_ne by done. apply Hwf.
Qed.

Lemma cat_frame_numeric d edges xs v vs :
  cols d !! v = Some (Num <$> vs) ->
  exists vs', (<["cat" := cat_cells edges xs]> (cols d)) !! v = Some (Num <$> vs') /\
              (v <> "cat" -> vs' = vs).
Proof.
  intros Hv. destruct (decide (v = "cat")) as [->|Hne].
  - exists (map (fun x => of_Z (cat_of edges x)) xs). rewrite lookup_insert_eq.
    split; [|done]. unfold cat_cells. f_equal.
    change (map ?f ?l) with (f <$> l). by rewrite <- list_fmap_compose.
  - exists vs. by rewrite lookup_insert_ne.
Qed.



(** ** create_figure: the points of the scatter trace *)

Lemma group_means_same_keys (keys : list cell) (xs ys : list Qc) :
  length keys = length xs -> length keys = length ys ->
  (group_means cell_le keys ys).*1 = (group_means cell_le keys xs).*1.
Proof.
  intros Hlx Hly.
  destruct (group_means_keys cell_le keys xs) as [Hsx Hnx].
  destruct (group_means_keys cell_le keys ys) as [Hsy Hny].
  apply (Sorted_unique cell_le); [done|done|].
  apply NoDup_Permutation; [done|done|].
  intros c. rewrite !list_elem_of_fmap. split.
  - intros ([c' m] & -> & Hin). apply (group_means_elem_of cell_le) in Hin as [Hc _]; [|done].
    exists (c', mean (rows_of c' (zip keys xs))). split; [done|].
    apply group_means_elem_of; [done|]. by split.
  - intros ([c' m] & -> & Hin). apply (group_means_elem_of cell_le) in Hin as [Hc _]; [|done].
    exists (c', mean (rows_of c' (zip keys ys))). split; [done|].
    apply group_means_elem_of; [done|]. by split.
Qed.



(** ** create_cat_plots: the bars of the values stack up to the bar of all rows *)

Lemma rows_where_numeric (col : list cell) v (xs : list Qc) :
  rows_where col v (Num <$> xs) = Num <$> rows_of v (zip col xs).
Proof.
  unfold rows_where, rows_of. revert xs.
  induction col as [|c col IH]; intros [|x xs]; try done.
  cbn [fmap list_fmap zip zip_with]. rewrite !filter_cons. cbn [fst].
  destruct (decide (c = v)); cbn [fmap list_fmap snd]; by rewrite <- IH.
Qed.

Lemma shares_lookup edges xs n i :
  default 0%Qc (shares edges xs n !! i)
  = if decide (i < length edges - 1) then (of_nat (bin_count edges xs i) / of_nat n)%Qc
    else 0%Qc.
Proof.
  unfold shares. change (map ?f ?l) with (f <$> l). rewrite list_lookup_fmap.
  destruct (decide (i < length edges - 1)) as [Hi|Hi].
  - by rewrite lookup_seq_lt.
  - by rewrite lookup_seq_ge by lia.
Qed.

(** Each row is counted for one value of a list of distinct values that
    holds its key. *)
Lemma count_by_value (P : Qc -> Prop) `{!forall x, Decision (P x)}
    (vs : list cell) (rows : list (cell * Qc)) :
  NoDup vs -> (forall r, r ∈ rows -> r.1 ∈ vs) ->
  foldr Nat.add 0 ((fun v => length (filter P (rows_of v rows))) <$> vs)
  = length (filter P rows.*2).
Proof.
  intros Hnd. induction rows as [|[k x] rows IH]; intros Hin.
  - clear Hnd Hin. induction vs as [|v vs IH]; [done|].
    rewrite fmap_cons. cbn [foldr]. by rewrite IH.
  - assert (Hk : k ∈ vs) by (apply (Hin (k, x)); apply list_elem_of_here).
    assert (IH' := IH (fun r Hr => Hin r (list_elem_of_further _ _ _ Hr))).
    assert (Hkey : foldr Nat.add 0
                     ((fun v => length (filter P (rows_of v ((k, x) :: rows)))) <$> vs)
                   = (if decide (P x) then 1 else 0)
                     + foldr Nat.add 0 ((fun v => length (filter P (rows_of v rows))) <$> vs)).
    { clear IH IH' Hin. induction vs as [|v vs IHv]; [by apply elem_of_nil in Hk|].
      apply NoDup_cons in Hnd as [Hv Hnd]. rewrite !fmap_cons. cbn [foldr].
      rewrite rows_of_cons. destruct (decide (k = v)) as [->|Hne].
      - assert (Hrest : foldr Nat.add 0
                          ((fun v0 => length (filter P (rows_of v0 ((v, x) :: rows)))) <$> vs)
                        = foldr Nat.add 0
                            ((fun v0 => length (filter P (rows_of v0 rows))) <$> vs)).
        { clear IHv Hk Hnd. induction vs as [|u vs IHu]; [done|].
          rewrite !fmap_cons. cbn [foldr]. rewrite rows_of_cons.
          apply not_elem_of_cons in Hv as [Hvu Hv].
          rewrite decide_False by done. by rewrite IHu. }
        rewrite Hrest, filter_cons. destruct (decide (P x)); simpl; lia.
      - apply elem_of_cons in Hk as [->|Hk]; [done|].
        rewrite (IHv Hnd Hk). lia. }
    rewrite Hkey, IH', fmap_cons. cbn [snd]. rewrite filter_cons.
    destruct (decide (P x)); simpl; lia.
Qed.

Lemma Qc_sum_shares (f : cell -> nat) (vs : list cell) n :
  Qc_sum ((fun v => (of_nat (f v) / of_nat n)%Qc) <$> vs)
  = (of_nat (foldr Nat.add 0%nat (f <$> vs)) / of_nat n)%Qc.
Proof.
  unfold Qc_sum. induction vs as [|v vs IH].
  - simpl. unfold of_nat. change (Z.of_nat 0) with 0%Z. rewrite Z2Qc_inj_0.
    unfold Qcdiv. ring.
  - rewrite !fmap_cons. cbn [foldr]. rewrite IH. unfold of_nat.
    rewrite Nat2Z.inj_add, Z2Qc_inj_add. unfold Qcdiv. ring.
Qed.

Lemma Qc_sum_cons x l : Qc_sum (x :: l) = (x + Qc_sum l)%Qc.
Proof. reflexivity. Qed.

Lemma stack_traces d cv xv edges ccol xs vs traces i :
  cols d !! cv = Some ccol -> cols d !! xv = Some (Num <$> xs) -> nrows d <> 0 ->
  traces_for (overlay_pair d cv xv edges) vs traces ->
  Qc_sum (height_at i <$> traces)
  = Qc_sum ((fun v => default 0%Qc (shares edges (rows_of v (zip ccol xs)) (nrows d) !! i))
            <$> vs).
Proof.
  intros Hc Hx Hn. revert traces.
  induction vs as [|v vs IH]; intros [|s [|b traces]]; cbn [traces_for]; try done.
  intros [(sx & sy & m & col & xcol & count & y & Hc' & Hx' & Hh & Hy & -> & ->) Htr].
  rewrite Hc in Hc'. injection Hc' as <-. rewrite Hx in Hx'. injection Hx' as <-.
  rewrite rows_where_numeric in Hh.
  apply np_histogram_Ok in Hh as (_ & xs' & <-%fmap_Num_inj & ->).
  rewrite y_bar_of_Ok, shares_of_counts in Hy by done. injection Hy as <-.
  rewrite !fmap_cons, !Qc_sum_cons, (IH traces Htr).
  unfold height_at. cbn [bar_heights create_scatter].
  rewrite lookup_nil. cbn [default]. ring.
Qed.



(** ** create_cat_plots: errors, and the points of the scatter traces *)

(** X19.  [create_cat_plots] raises [KeyError] for the categorical
    variable when the dataframe has no such column, and [KeyError] for
    [cat] when it has that column but no column [cat], that is, when
    [cat_clients] has not run on the dataframe. *)
Theorem create_cat_plots_raises df cv xv yv x_bar used w d :
  frames w !! df = Some d ->
  (cols d !! cv = None ->
   create_cat_plots df cv xv yv x_bar used w = Raise (KeyError cv)) /\
  (forall col, cols d !! cv = Some col -> cols d !! "cat" = None ->
   create_cat_plots df cv xv yv x_bar used w = Raise (KeyError "cat")).
Proof.
  intros Hd. unfold create_cat_plots, bind, read_frame, lift. rewrite Hd.
  unfold groupby2_mean, getitem. split.
  - by intros ->.
  - by intros col -> ->.
Qed.

Lemma create_cat_plots_raises_witness :
  frames example_binned !! 0 = Some example_frame /\
  create_cat_plots 0 "g" "x" "y" 0 [] example_binned = Raise (KeyError "cat").
Proof.
  assert (Hd : frames example_binned !! 0 = Some example_frame) by reflexivity.
  split; [exact Hd|].
  apply (proj2 (create_cat_plots_raises 0 "g" "x" "y" 0 [] example_binned example_frame Hd)
               [Str "a"; Str "b"; Str "a"; Str "b"]); reflexivity.
Defined.

Lemma series_sel_Ok v (s : series (cell * cell)) sx :
  series_sel v s = Ok sx ->
  forall c q, (c, q) ∈ sx <-> ((v, c), q) ∈ s.
Proof.
  unfold series_sel. intros Hsel c q.
  assert (Heq : sx = map (fun e => (e.1.2, e.2)) (filter (fun e => e.1.1 = v) s)).
  { destruct (filter (fun e => e.1.1 = v) s); [done|]. by injection Hsel as <-. }
  rewrite Heq. change (map ?f ?l) with (f <$> l). rewrite list_elem_of_fmap. split.
  - intros ([[v' c'] q'] & [= -> ->] & [Hv Hin]%list_elem_of_filter).
    cbn [fst snd] in Hv. by subst v'.
  - intros Hin. exists ((v, c), q). split; [done|]. by apply list_elem_of_filter.
Qed.

Lemma groupby2_mean_Ok d key1 key2 val s :
  groupby2_mean d key1 key2 val = Ok s <->
  exists k1 k2 xs, cols d !! key1 = Some k1 /\ cols d !! key2 = Some k2 /\
                   cols d !! val = Some (Num <$> xs) /\
                   s = group_means key2_le (zip k1 k2) xs.
Proof.
  unfold groupby2_mean, getitem. split.
  - intros (k1 & Hk1 & (k2 & Hk2 & (vs & Hv & (xs & ->%to_numeric_Ok & [= <-])%obind_Ok)%obind_Ok)%obind_Ok)%obind_Ok.
    destruct (cols d !! key1) as [k1'|]; [injection Hk1 as ->|done].
    destruct (cols d !! key2) as [k2'|]; [injection Hk2 as ->|done].
    destruct (cols d !! val) as [vs'|]; [injection Hv as ->|done].
    by exists k1, k2, xs.
  - intros (k1 & k2 & xs & -> & -> & -> & ->). simpl.
    by rewrite (proj2 (to_numeric_Ok _ _) eq_refl).
Qed.

Lemma cat_plots_loop_scatter d cv xv tx ty edges vs acc used w traces used' w' :
  cat_plots_loop d cv xv tx ty edges vs acc used w = Ok ((traces, used'), w') ->
  exists new,
    traces = acc ++ new /\
    traces_for (fun v s b =>
                  exists sx sy m,
                    series_sel v tx = Ok sx /\ series_sel v ty = Ok sy /\
                    s = Scatter sx sy "lines+markers" m v "y1" /\
                    trace_marker b = m /\ trace_name b = v) vs new.
Proof.
  revert acc used w. induction vs as [|v vs IH]; intros acc used w Hrun; simpl in Hrun.
  - apply ret_Ok in Hrun as [[= -> ->] ->]. exists []. by rewrite app_nil_r.
  - apply bind_Ok in Hrun as (sx & w1 & [Hsx ->]%lift_Ok & Hrun).
    apply bind_Ok in Hrun as (sy & w1 & [Hsy ->]%lift_Ok & Hrun).
    apply bind_Ok in Hrun as (count & w1 & [_ ->]%lift_Ok & Hrun).
    apply bind_Ok in Hrun as (y & w1 & [_ ->]%lift_Ok & Hrun).
    apply bind_Ok in Hrun as ([m used1] & w1 & _ & Hrun).
    apply IH in Hrun as (new & -> & Hnew).
    eexists (_ :: _ :: new). split; [by rewrite <- app_assoc|].
    cbn [traces_for]. split; [|done]. by exists sx, sy, m.
Qed.



(** ** create_cat_plots returns *)

Lemma find_color_fresh used w i ds :
  draws w = i :: ds -> is_draw i -> i ∉ used ->
  find_color used w
  = Ok ((axa_marker i, used ++ [i]),
        {| frames := frames w; arrays := arrays w; draws := ds |}).
Proof.
  intros Hdraws Hi Hnew. unfold find_color, bind, randint. rewrite Hdraws. cbn [draws].
  assert (Hre : redraw used i ds = Ok (i, ds)).
  { destruct ds; simpl; by rewrite decide_False. }
  rewrite Hre. cbn [obind fst snd].
  destruct (py_index_colors i Hi) as [c Hc]. unfold lift, ret. rewrite Hc.
  unfold py_index in Hc. unfold is_draw in Hi.
  destruct (decide (0 <= i)%Z) as [_|]; [|lia].
  unfold getidx in Hc. unfold axa_marker.
  destruct (AXA_colors !! Z.to_nat i) as [c'|]; [|done].
  injection Hc as ->. reflexivity.
Qed.

Lemma series_sel_runs v (s : series (cell * cell)) c q :
  ((v, c), q) ∈ s -> exists sx, series_sel v s = Ok sx.
Proof.
  intros Hin. unfold series_sel.
  assert (Hf : ((v, c), q) ∈ filter (fun e => e.1.1 = v) s) by (by apply list_elem_of_filter).
  destruct (filter (fun e => e.1.1 = v) s) as [|e l]; [by apply elem_of_nil in Hf|].
  by eexists.
Qed.

Lemma value_has_group (col cats : list cell) (xs : list Qc) v :
  length col = length cats -> length col = length xs -> v ∈ col ->
  exists c q, ((v, c), q) ∈ group_means key2_le (zip col cats) xs.
Proof.
  intros Hlc Hlx (j & Hj)%list_elem_of_lookup_1.
  destruct (lookup_lt_is_Some_2 cats j) as [c Hc].
  { rewrite <- Hlc. by eapply lookup_lt_Some. }
  exists c, (mean (rows_of (v, c) (zip (zip col cats) xs))).
  apply group_means_elem_of; [rewrite length_zip; lia|]. split; [|done].
  apply (list_elem_of_lookup_2 _ j). by apply lookup_zip_Some.
Qed.

Lemma cat_plots_loop_runs d cv xv tx ty edges col xs vs :
  cols d !! cv = Some col -> cols d !! xv = Some (Num <$> xs) ->
  nrows d <> 0 -> any_decreasing edges = false ->
  (forall v, v ∈ vs -> (exists sx, series_sel v tx = Ok sx) /\
                       (exists sy, series_sel v ty = Ok sy)) ->
  forall acc used w idxs rest,
    draws w = idxs ++ rest -> length idxs = length vs ->
    NoDup (used ++ idxs) -> Forall is_draw idxs ->
    exists new,
      cat_plots_loop d cv xv tx ty edges vs acc used w
      = Ok ((acc ++ new, used ++ idxs),
            {| frames := frames w; arrays := arrays w; draws := rest |}) /\
      length new = 2 * length vs.
Proof.
  intros Hcol Hx Hn Hmono. induction vs as [|v vs IH]; intros Hsel acc used w idxs rest
    Hdraws Hlen Hnd Hin.
  - destruct idxs; [|done]. exists []. rewrite !app_nil_r. simpl in Hdraws.
    split; [|done]. cbn [cat_plots_loop]. unfold ret. rewrite <- Hdraws. by destruct w.
  - destruct idxs as [|i idxs]; [done|].
    destruct (Hsel v) as [[sx Hsx] [sy Hsy]]; [apply list_elem_of_here|].
    apply Forall_cons in Hin as [Hi Hin].
    assert (Hnew : i ∉ used).
    { apply NoDup_app in Hnd as (_ & Hdisj & _). intros Hu. apply (Hdisj i Hu).
      apply list_elem_of_here. }
    pose proof (find_color_fresh used w i (idxs ++ rest) Hdraws Hi Hnew) as Hfc.
    set (w1 := {| frames := frames w; arrays := arrays w; draws := idxs ++ rest |}) in *.
    destruct (IH (fun u Hu => Hsel u (list_elem_of_further _ _ _ Hu))
                 (acc ++ [create_scatter sx sy v (axa_marker i) 1;
                          Bar edges (shares edges (rows_of v (zip col xs)) (nrows d))
                              (axa_marker i) (Q2Qc (3 # 10)) v])
                 (used ++ [i]) w1 idxs rest eq_refl)
      as (new & Hrun & Hlen'); [simpl in Hlen; lia|by rewrite <- app_assoc|done|].
    eexists (_ :: _ :: new). split; [|simpl; lia].
    cbn [cat_plots_loop]. unfold bind at 1 2 3 4 5. unfold lift, getitem.
    rewrite Hsx, Hsy, Hcol, Hx. cbn [obind].
    rewrite rows_where_numeric.
    rewrite (proj2 (np_histogram_Ok _ edges _)
               (conj Hmono (ex_intro _ (rows_of v (zip col xs)) (conj eq_refl eq_refl)))).
    rewrite y_bar_of_Ok, shares_of_counts by done.
    rewrite Hfc. cbn [fst snd]. rewrite Hrun. by rewrite <- !app_assoc.
Qed.

(** X21.  [create_cat_plots] returns, on a well-formed dataframe that is
    not empty and has the categorical column, the column [cat] and numeric
    columns [x_var] and [y_var], for edges that do not decrease, when the
    next draws are distinct unused colour indices, one for each distinct
    value: it makes two traces for each value, adds those indices to
    [color_used] in order, and leaves the dataframes and arrays as they
    were. *)
Theorem create_cat_plots_returns df cv xv yv x_bar used w d col cats xs ys edges idxs rest :
  frames w !! df = Some d -> df_wf d -> nrows d <> 0 ->
  cols d !! cv = Some col -> cols d !! "cat" = Some cats ->
  cols d !! xv = Some (Num <$> xs) -> cols d !! yv = Some (Num <$> ys) ->
  arrays w !! x_bar = Some edges -> any_decreasing edges = false ->
  draws w = idxs ++ rest -> length idxs = length (unique col) ->
  NoDup (used ++ idxs) -> Forall is_draw idxs ->
  exists traces,
    create_cat_plots df cv xv yv x_bar used w
    = Ok ((traces, used ++ idxs),
          {| frames := frames w; arrays := arrays w; draws := rest |}) /\
    length traces = 2 * length (unique col).
Proof.
  intros Hd Hwf Hn Hcol Hcats Hx Hy He Hmono Hdraws Hlen Hnd Hin.
  assert (Hlc : length col = length cats) by (by rewrite (Hwf _ _ Hcol), (Hwf _ _ Hcats)).
  assert (Hlx : length col = length xs).
  { rewrite (Hwf _ _ Hcol), <- (Hwf _ _ Hx). by rewrite length_fmap. }
  assert (Hly : length col = length ys).
  { rewrite (Hwf _ _ Hcol), <- (Hwf _ _ Hy). by rewrite length_fmap. }
  destruct (unique_spec col) as [_ Hu].
  destruct (cat_plots_loop_runs d cv xv
              (group_means key2_le (zip col cats) xs) (group_means key2_le (zip col cats) ys)
              edges col xs (unique col) Hcol Hx Hn Hmono) with (acc := @nil trace)
              (used := used) (w := w) (idxs := idxs) (rest := rest)
    as (new & Hrun & Hlen'); try done.
  { intros v Hv%Hu. split.
    - destruct (value_has_group col cats xs v Hlc Hlx Hv) as (c & q & Hg).
      by eapply series_sel_runs.
    - destruct (value_has_group col cats ys v Hlc Hly Hv) as (c & q & Hg).
      by eapply series_sel_runs. }
  exists new. split; [|done].
  unfold create_cat_plots, bind, read_frame, lift, read_array. rewrite Hd.
  rewrite (proj2 (groupby2_mean_Ok d cv "cat" xv _)
             (ex_intro _ col (ex_intro _ cats (ex_intro _ xs
                (conj Hcol (conj Hcats (conj Hx eq_refl))))))).
  rewrite (proj2 (groupby2_mean_Ok d cv "cat" yv _)
             (ex_intro _ col (ex_intro _ cats (ex_intro _ ys
                (conj Hcol (conj Hcats (conj Hy eq_refl))))))).
  unfold getitem. rewrite Hcol. cbn [obind]. rewrite He. exact Hrun.
Qed.

Lemma create_cat_plots_returns_witness :
  exists traces,
    create_cat_plots 0 "g" "x" "y" 0 [3%Z]
      {| frames := frames example_categorised; arrays := arrays example_categorised;
         draws := [4; 6; 1]%Z |}
    = Ok ((traces, [3; 4; 6]%Z),
          {| frames := frames example_categorised; arrays := arrays example_categorised;
             draws := [1]%Z |}) /\
    length traces = 4.
Proof.
  assert (Hwf : df_wf example_cat_frame)
    by (apply (bool_decide_unpack _); vm_compute; exact I).
  assert (Hin : Forall is_draw [4; 6]%Z).
  { unfold is_draw. apply (bool_decide_unpack _). vm_compute. exact I. }
  assert (Hnd : NoDup ([3] ++ [4; 6])%Z) by (apply (bool_decide_unpack _); vm_compute; exact I).
  assert (Hn : nrows example_cat_frame <> 0) by discriminate.
  exact (create_cat_plots_returns 0 "g" "x" "y" 0 [3%Z]
           {| frames := frames example_categorised; arrays := arrays example_categorised;
              draws := [4; 6; 1]%Z |}
           example_cat_frame [Str "a"; Str "b"; Str "a"; Str "b"]
           [int 0; int 0; int 0; int 1]
           (of_Z <$> [5; 10; 50; 120]%Z) (of_Z <$> [1; 2; 3; 4]%Z)
           (of_Z <$> [0; 100; 200]%Z) [4; 6]%Z [1%Z]
           eq_refl Hwf Hn eq_refl eq_refl eq_refl eq_refl eq_refl eq_refl eq_refl eq_refl
           Hnd Hin).
Defined.

(** ** find_color: the first draw that is not in use *)

Lemma redraw_first_unused used temp ds t rest :
  redraw used temp ds = Ok (t, rest) <->
  exists pre, temp :: ds = pre ++ t :: rest /\ Forall (fun d => d ∈ used) pre /\ t ∉ used.
Proof.
  revert temp. induction ds as [|d ds IH]; intros temp; simpl.
  - destruct (decide (temp ∈ used)) as [Hin|Hout]; split.
    + done.
    + intros (pre & Heq & Hpre & Ht). destruct pre as [|p pre].
      * injection Heq as -> _. done.
      * injection Heq as _ Heq. by destruct pre.
    + intros [= <- <-]. exists []. by repeat split.
    + intros (pre & Heq & Hpre & Ht). destruct pre as [|p pre].
      * by injection Heq as -> ->.
      * injection Heq as -> _. by apply Forall_cons in Hpre as [? _].
  - destruct (decide (temp ∈ used)) as [Hin|Hout]; split.
    + intros (pre & Heq & Hpre & Ht)%IH. exists (temp :: pre).
      split; [by rewrite Heq|]. split; [by constructor|done].
    + intros (pre & Heq & Hpre & Ht). apply IH. destruct pre as [|p pre].
      * injection Heq as -> _. done.
      * injection Heq as -> Heq. apply Forall_cons in Hpre as [_ Hpre]. by exists pre.
    + intros [= <- <-]. exists []. by repeat split.
    + intros (pre & Heq & Hpre & Ht). destruct pre as [|p pre].
      * by injection Heq as -> ->.
      * injection Heq as -> _. by apply Forall_cons in Hpre as [? _].
Qed.

(** X22.  [find_color] returns the first draw that is not in [color_used]:
    it returns exactly when the draws start with draws that are in use,
    followed by one that is not and that indexes a colour; it skips the
    former, appends the latter to [color_used], and touches nothing else.
    An index in 0..7 always indexes a colour, its colour of the palette. *)
Theorem find_color_first_unused used w m used' w' :
  (find_color used w = Ok ((m, used'), w') <->
   exists pre i rest,
     draws w = pre ++ i :: rest /\ Forall (fun d => d ∈ used) pre /\ (i ∉ used) /\
     py_index AXA_colors i = Ok (color m) /\ used' = used ++ [i] /\
     w' = {| frames := frames w; arrays := arrays w; draws := rest |}) /\
  (forall i, is_draw i -> py_index AXA_colors i = Ok (color (axa_marker i))).
Proof.
  split.
  - unfold find_color. split.
    + intros Hrun.
      apply bind_Ok in Hrun as (t0 & w1 & Hr & Hrun).
      apply bind_Ok in Hrun as (t & w2 & Ht & Hrun).
      apply bind_Ok in Hrun as (c & w3 & [Hc ->]%lift_Ok & Hrun).
      apply ret_Ok in Hrun as [[= -> ->] ->].
      unfold randint in Hr. destruct (draws w) as [|d0 ds] eqn:Hdraws; [done|].
      injection Hr as <- <-. cbn [draws frames arrays] in Ht.
      apply obind_Ok in Ht as ([t' rest] & (pre & Heq & Hpre & Hnew)%redraw_first_unused
                               & [= <- <-]).
      exists pre, t', rest. cbn [frames arrays fst snd color]. done.
    + intros (pre & i & rest & Hdraws & Hpre & Hnew & Hc & -> & ->).
      unfold bind, randint. destruct (draws w) as [|d0 ds] eqn:Hd.
      { by destruct pre. }
      cbn [draws frames arrays].
      rewrite (proj2 (redraw_first_unused used d0 ds i rest)
                 (ex_intro _ pre (conj Hdraws (conj Hpre Hnew)))).
      cbn [obind fst snd]. unfold lift, ret. rewrite Hc. by destruct m.
  - intros i Hi. destruct (py_index_colors i Hi) as [c Hc]. rewrite Hc.
    unfold py_index in Hc. unfold is_draw in Hi.
    destruct (decide (0 <= i)%Z) as [_|]; [|lia].
    unfold getidx in Hc. unfold axa_marker.
    destruct (AXA_colors !! Z.to_nat i) as [c'|]; [|done].
    by injection Hc as ->.
Qed.

Lemma find_color_first_unused_witness :
  find_color [0; 3]%Z example_world
  = Ok ((axa_marker 5, [0; 3; 5]%Z),
        {| frames := frames example_world; arrays := arrays example_world;
           draws := [2]%Z |}).
Proof.
  apply (proj1 (find_color_first_unused [0; 3]%Z example_world (axa_marker 5) [0; 3; 5]%Z _)).
  exists [0; 0; 3; 3; 0]%Z, 5%Z, [2%Z].
  split; [reflexivity|]. split.
  { apply (bool_decide_unpack _). vm_compute. exact I. }
  split.
  { apply (bool_decide_unpack _). vm_compute. exact I. }
  split; [|split; reflexivity].
  apply (proj2 (find_color_first_unused [] example_world (axa_marker 5) [] example_world)).
  unfold is_draw. lia.
Defined.

(** ** create_figure: the second variable *)


